(** * Advanced OCR service: a shallow embedding of
      [python_ocr/advanced_ocr_service.py] and the properties of its
      reconciliation pipeline.

    Conventions of the embedding.
    - Python numbers (the floats of bounding boxes, confidences and
      percentages, and the ints that are divided into them) are exact
      rationals [Q]; a comparison [a < b] is [Qltb a b].  Division is the
      partial [pydiv], which raises [ZeroDivisionError] as Python does,
      except where the denominator is shown to be positive.  The program
      computes in binary64: a value of the embedding and the value the
      program computes can differ by rounding, so a comparison that is
      within rounding of its threshold can fall on the other side.  The
      properties of the deduplicator and of the boxes are therefore
      stated on the outcome of the program's own tests ([overlaps],
      [is_match], the comparisons of confidences), on the program's own
      formulas and on orderings that rounding preserves; none of them
      rests on an identity between two differently computed values.
    - Python strings are [string]s of ASCII characters.
    - A call that may raise returns an [outcome]; code that appends to a
      list while it may raise runs in the state-and-exception monad [M].
    - Module globals and instance attributes are finite maps from names,
      so that reading a name nobody bound raises, as in Python.
    - External collaborators (PyMuPDF, pdfplumber, the OCR engines, OpenCV,
      PIL) are fields of a [runtime] record: what they return is data of
      the request, their code is not part of this program. *)

From Stdlib Require Import QArith Qminmax Lqa ZArith Lia List Bool Ascii String.
From stdpp Require Import base gmap strings list fin_maps pretty.
Import ListNotations.

Local Open Scope Q_scope.
Local Open Scope string_scope.
Local Open Scope list_scope.

(** ** Numbers *)

Module Num.

(** [a < b] on Python numbers. *)
Definition Qltb (a b : Q) : bool := negb (Qle_bool b a).

(** [max(a, b)]: the first argument unless the second is greater. *)
Definition pymax (a b : Q) : Q := if Qltb a b then b else a.

(** [min(a, b)]: the first argument unless the second is smaller. *)
Definition pymin (a b : Q) : Q := if Qltb b a then b else a.

(** [abs(a)]. *)
Definition pyabs (a : Q) : Q := if Qltb a 0 then - a else a.

(** [len(l)] as a number. *)
Definition len {A} (l : list A) : Q := inject_Z (Z.of_nat (length l)).

End Num.
Export Num.

(** ** Strings *)

Module Str.

(** [c.isspace()] on ASCII: tab, newline, vertical tab, form feed,
    carriage return, the four separators 0x1c-0x1f, and space. *)
Definition isspace (c : ascii) : bool :=
  let n := nat_of_ascii c in
  ((9 <=? n)%nat && (n <=? 13)%nat) || ((28 <=? n)%nat && (n <=? 32)%nat).

Definition lower_char (c : ascii) : ascii :=
  let n := nat_of_ascii c in
  if ((65 <=? n)%nat && (n <=? 90)%nat) then ascii_of_nat (n + 32) else c.

(** [s.lower()]. *)
Fixpoint lower (s : string) : string :=
  match s with
  | EmptyString => EmptyString
  | String c s' => String (lower_char c) (lower s')
  end.

(** A string is truthy when it is not empty. *)
Definition truthy (s : string) : bool :=
  match s with EmptyString => false | String _ _ => true end.

(** [s.split()]: the maximal runs of non-whitespace characters.
    [tok] is the run being read. *)
Fixpoint split_from (tok : string) (s : string) : list string :=
  match s with
  | EmptyString => if truthy tok then [tok] else []
  | String c s' =>
      if isspace c
      then (if truthy tok then tok :: split_from EmptyString s'
            else split_from EmptyString s')
      else split_from (tok ++ String c EmptyString) s'
  end.

Definition split (s : string) : list string := split_from EmptyString s.

(** [s.strip()]. *)
Fixpoint lstrip (s : string) : string :=
  match s with
  | String c s' => if isspace c then lstrip s' else s
  | EmptyString => EmptyString
  end.

Fixpoint rev_string (acc s : string) : string :=
  match s with
  | EmptyString => acc
  | String c s' => rev_string (String c acc) s'
  end.

Definition strip (s : string) : string :=
  rev_string EmptyString (lstrip (rev_string EmptyString (lstrip s))).

(** [s.startswith(p)]. *)
Definition startswith (p s : string) : bool := String.prefix p s.

(** [s.endswith(p)]. *)
Definition endswith (p s : string) : bool :=
  String.prefix (rev_string EmptyString p) (rev_string EmptyString s).

(** The text has no token: it is empty or made of whitespace only. *)
Definition blank (s : string) : bool :=
  match lstrip s with EmptyString => true | _ => false end.

End Str.

(** ** Data model *)

Record BoundingBox := mkBBox { x : Q; y : Q; width : Q; height : Q }.

(** The keys of a word dict besides text, bbox and confidence: the native
    extractor stores the span's font, an OCR engine stores its name. *)
Inductive WordOrigin :=
| NativeSpan (font_family : string) (font_size : Q) (flags : Z)
| Engine (engine : string).

(** A word dict.  Every producer in the program stores the key
    ["confidence"], so [word.get("confidence", 0)] is the field. *)
Record Word := mkWord {
  text : string;
  bbox : BoundingBox;
  confidence : Q;
  origin : WordOrigin
}.

(** [==] on the dicts, as [list.remove] uses it: numbers compare by value. *)
Definition bbox_eqb (a b : BoundingBox) : bool :=
  Qeq_bool (x a) (x b) && Qeq_bool (y a) (y b) &&
  Qeq_bool (width a) (width b) && Qeq_bool (height a) (height b).

Definition origin_eqb (a b : WordOrigin) : bool :=
  match a, b with
  | NativeSpan f s g, NativeSpan f' s' g' =>
      String.eqb f f' && Qeq_bool s s' && Z.eqb g g'
  | Engine e, Engine e' => String.eqb e e'
  | _, _ => false
  end.

Definition word_eqb (a b : Word) : bool :=
  String.eqb (text a) (text b) && bbox_eqb (bbox a) (bbox b) &&
  Qeq_bool (confidence a) (confidence b) && origin_eqb (origin a) (origin b).

(** [l.remove(v)]: drops the first element equal to [v].  (Python raises
    when there is none; the deduplicator removes an element it is
    iterating over.) *)
Fixpoint list_remove (v : Word) (l : list Word) : list Word :=
  match l with
  | [] => []
  | w :: l' => if word_eqb w v then l' else w :: list_remove v l'
  end.

(** ** The deduplicator *)

(** [_text_similarity]: Jaccard index of the lower-cased token sets. *)
Definition _text_similarity (text1 text2 : string) : Q :=
  if negb (Str.truthy text1) || negb (Str.truthy text2) then 0
  else
    let set1 : gset string := list_to_set (Str.split (Str.lower text1)) in
    let set2 : gset string := list_to_set (Str.split (Str.lower text2)) in
    if bool_decide (set1 = ∅) && bool_decide (set2 = ∅) then 1
    else
      let intersection := size (set1 ∩ set2) in
      let union := size (set1 ∪ set2) in
      if (0 <? union)%nat
      then inject_Z (Z.of_nat intersection) / inject_Z (Z.of_nat union)
      else 0.

(** The corners of the intersection rectangle of two boxes. *)
Definition inter_x1 (bbox1 bbox2 : BoundingBox) : Q := pymax (x bbox1) (x bbox2).
Definition inter_y1 (bbox1 bbox2 : BoundingBox) : Q := pymax (y bbox1) (y bbox2).
Definition inter_x2 (bbox1 bbox2 : BoundingBox) : Q :=
  pymin (x bbox1 + width bbox1) (x bbox2 + width bbox2).
Definition inter_y2 (bbox1 bbox2 : BoundingBox) : Q :=
  pymin (y bbox1 + height bbox1) (y bbox2 + height bbox2).

(** [if x1 < x2 and y1 < y2].  The sums [x + width] are exact here and
    rounded in the program, so for a box whose width is lost in the
    rounding of [x + width] the program's test can fail where this one
    succeeds; the properties use [overlaps] as the test of the program,
    never to derive that a given box passes it. *)
Definition overlaps (bbox1 bbox2 : BoundingBox) : bool :=
  Qltb (inter_x1 bbox1 bbox2) (inter_x2 bbox1 bbox2) &&
  Qltb (inter_y1 bbox1 bbox2) (inter_y2 bbox1 bbox2).

Definition intersection_area (bbox1 bbox2 : BoundingBox) : Q :=
  (inter_x2 bbox1 bbox2 - inter_x1 bbox1 bbox2) *
  (inter_y2 bbox1 bbox2 - inter_y1 bbox1 bbox2).

(** [area1 + area2 - intersection], the denominator of the IoU. *)
Definition union_area (bbox1 bbox2 : BoundingBox) : Q :=
  width bbox1 * height bbox1 + width bbox2 * height bbox2
  - intersection_area bbox1 bbox2.

(** [iou], computed only under [overlaps]; there [union_area] is positive
    in the arithmetic of the embedding ([union_area_pos] below), so the
    division is written without [pydiv].  The value is exact here and
    rounded in the program (which can return a value just above 1 for a
    box against itself, or just above 0.7 for an exact 7/10): no property
    below bounds it or gives its value, it is only compared with 0.7 as
    the program does. *)
Definition iou (bbox1 bbox2 : BoundingBox) : Q :=
  intersection_area bbox1 bbox2 / union_area bbox1 bbox2.

(** The condition under which the inner loop reaches its [break]. *)
Definition is_match (word existing : Word) : bool :=
  overlaps (bbox word) (bbox existing) &&
  (Qltb 0.7 (iou (bbox word) (bbox existing)) &&
   Qltb 0.8 (_text_similarity (text word) (text existing))).

(** The inner loop [for existing in unique_words] over the entries not yet
    visited ([rest]); returns the list [unique_words] as the loop leaves it
    and the flag [is_duplicate]. *)
Fixpoint scan (word : Word) (unique_words rest : list Word)
  : list Word * bool :=
  match rest with
  | [] => (unique_words, false)
  | existing :: rest' =>
      if overlaps (bbox word) (bbox existing) then
        if Qltb 0.7 (iou (bbox word) (bbox existing)) &&
           Qltb 0.8 (_text_similarity (text word) (text existing))
        then
          if Qltb (confidence existing) (confidence word)
          then (list_remove existing unique_words, false)
          else (unique_words, true)
        else scan word unique_words rest'
      else scan word unique_words rest'
  end.

(** One iteration of the outer loop. *)
Definition dedup_step (unique_words : list Word) (word : Word) : list Word :=
  let '(unique_words', is_duplicate) := scan word unique_words unique_words in
  if is_duplicate then unique_words' else unique_words' ++ [word].

Definition _deduplicate_words (words : list Word) : list Word :=
  fold_left dedup_step words [].

(** ** Exceptions and the two monads *)

Inductive exn :=
| HTTPException (status_code : Z) (detail : string)
| PyError (kind : string) (message : string).

Definition ZeroDivisionError : exn := PyError "ZeroDivisionError" "division by zero".
Definition ValueError (message : string) : exn := PyError "ValueError" message.
Definition NameError (name : string) : exn :=
  PyError "NameError" ("name '" ++ name ++ "' is not defined").
Definition AttributeError (name : string) : exn :=
  PyError "AttributeError"
          ("'AdvancedOCR' object has no attribute '" ++ name ++ "'").

Inductive outcome (A : Type) :=
| Ok (a : A)
| Raise (e : exn).
Arguments Ok {A} a.
Arguments Raise {A} e.

Definition bind {A B} (m : outcome A) (k : A -> outcome B) : outcome B :=
  match m with
  | Ok a => k a
  | Raise e => Raise e
  end.

Notation "x <- m ;; k" := (bind m (fun x => k))
  (at level 100, m at next level, right associativity).

(** [try: body  except Exception as e: handler e]. *)
Definition try_except {A} (body : outcome A) (handler : exn -> outcome A)
  : outcome A :=
  match body with
  | Ok a => Ok a
  | Raise e => handler e
  end.

(** [for a in l: ...] collecting one result per element, stopping at the
    first exception. *)
Fixpoint for_each {A B} (body : A -> outcome B) (l : list A)
  : outcome (list B) :=
  match l with
  | [] => Ok []
  | a :: l' => b <- body a ;; bs <- for_each body l' ;; Ok (b :: bs)
  end.

(** [a / b]. *)
Definition pydiv (a b : Q) : outcome Q :=
  if Qeq_bool b 0 then Raise ZeroDivisionError else Ok (a / b).

(** [min(l)] and [max(l)] of a list. *)
Definition min_list (l : list Q) : outcome Q :=
  match l with
  | [] => Raise (ValueError "min() arg is an empty sequence")
  | a :: l' => Ok (fold_left pymin l' a)
  end.

Definition max_list (l : list Q) : outcome Q :=
  match l with
  | [] => Raise (ValueError "max() arg is an empty sequence")
  | a :: l' => Ok (fold_left pymax l' a)
  end.

(** Code that appends to a list [S] and may raise: the list keeps what was
    appended before the exception. *)
Definition M (S A : Type) : Type := S -> S * outcome A.

Definition ret {S A} (a : A) : M S A := fun s => (s, Ok a).

Definition lift {S A} (m : outcome A) : M S A := fun s => (s, m).

Definition bindM {S A B} (m : M S A) (k : A -> M S B) : M S B :=
  fun s =>
    match m s with
    | (s', Ok a) => k a s'
    | (s', Raise e) => (s', Raise e)
    end.

Notation "x <~ m ;; k" := (bindM m (fun x => k))
  (at level 100, m at next level, right associativity).

(** [l.append(v)]. *)
Definition append {S} (v : S) : M (list S) unit := fun s => (s ++ [v], Ok tt).

(** [len(l)] of the list being built. *)
Definition length_so_far {S} : M (list S) nat := fun s => (s, Ok (length s)).

(** [try: body  except Exception as e: logger.warning(...)]. *)
Definition try_log {S} (body : M S unit) : M S unit :=
  fun s => match body s with (s', _) => (s', Ok tt) end.

Fixpoint for_eachM {S A} (body : A -> M S unit) (l : list A) : M S unit :=
  match l with
  | [] => ret tt
  | a :: l' => _ <~ body a ;; for_eachM body l'
  end.

(** [enumerate(l)]. *)
Definition enumerate {A} (l : list A) : list (nat * A) :=
  combine (seq 0 (length l)) l.

(** ** Records of the intermediate representation *)

Record Shape := mkShape {
  shape_type : string;
  shape_bbox : BoundingBox;
  coordinates : list (Q * Q)   (* empty when the key is absent *)
}.

Record Cell := mkCell {
  cell_text : string; row : nat; col : nat; cell_confidence : Q
}.

Record Table := mkTable {
  table_page_number : nat;
  table_id : string;
  table_bbox : BoundingBox;
  cells : list Cell;
  rows : nat;
  cols : nat
}.

Record LayoutElement := mkLayoutElement {
  element_type : string; element_bbox : BoundingBox; element_confidence : Q
}.

(** A page dict as an extraction source returns it.  A page of the OCR
    path has no key ["shapes"]: there [page_shapes] is [[]], which is what
    [.get("shapes", [])] reads. *)
Record SourcePage := mkSourcePage {
  page_number : nat;
  page_width : Q;
  page_height : Q;
  words : list Word;
  page_shapes : list Shape;
  page_method : string
}.

Record SourceData := mkSourceData {
  pages : list SourcePage;
  total_pages : nat;
  method : string
}.

Record CoverageStats := mkCoverage {
  native_words : nat;
  ocr_words : nat;
  final_words : nat;
  coverage_percent : Q
}.

(** A page of the result.  The PDF path fills [pr_tables], the image path
    fills [pr_layout_elements]; the other key is absent there. *)
Record PageRecord := mkPageRecord {
  pr_page_number : nat;
  pr_width : Q;
  pr_height : Q;
  pr_words : list Word;
  pr_tables : list Table;
  pr_layout_elements : list LayoutElement;
  pr_shapes : list Shape;
  coverage : CoverageStats
}.

Record DocumentRecord := mkDocument {
  doc_pages : list PageRecord;
  doc_total_pages : nat;
  extraction_methods : list string;
  overall_coverage : Q
}.

(** ** Reconciliation *)

(** [min(100, (final_word_count / max(native_word_count, ocr_word_count, 1)) * 100)]. *)
Definition compute_coverage_percent
    (native_word_count ocr_word_count final_word_count : nat) : outcome Q :=
  ratio <- pydiv (inject_Z (Z.of_nat final_word_count))
                 (pymax (pymax (inject_Z (Z.of_nat native_word_count))
                               (inject_Z (Z.of_nat ocr_word_count))) 1) ;;
  Ok (pymin 100 (ratio * 100)).

(** The body of the loop over [page_idx]. *)
Definition reconcile_page (native_data ocr_data : SourceData)
    (table_data : list Table) (page_idx : nat) : outcome PageRecord :=
  let native_page := nth_error (pages native_data) page_idx in
  let ocr_page := nth_error (pages ocr_data) page_idx in
  let all_words :=
    match native_page with Some p => words p | None => [] end ++
    match ocr_page with Some p => words p | None => [] end in
  let unique_words := _deduplicate_words all_words in
  let page_tables :=
    filter (fun t => Nat.eqb (table_page_number t) (page_idx + 1)) table_data in
  let native_word_count :=
    match native_page with Some p => length (words p) | None => 0%nat end in
  let ocr_word_count :=
    match ocr_page with Some p => length (words p) | None => 0%nat end in
  let final_word_count := length unique_words in
  coverage_percent <-
    compute_coverage_percent native_word_count ocr_word_count final_word_count ;;
  let first_page :=
    match native_page with Some p => Some p | None => ocr_page end in
  Ok {| pr_page_number := page_idx + 1;
        pr_width := match first_page with Some p => page_width p | None => 1000 end;
        pr_height := match first_page with Some p => page_height p | None => 1000 end;
        pr_words := unique_words;
        pr_tables := page_tables;
        pr_layout_elements := [];
        pr_shapes :=
          match native_page with Some p => page_shapes p | None => [] end ++
          match ocr_page with Some p => page_shapes p | None => [] end;
        coverage := {| native_words := native_word_count;
                       ocr_words := ocr_word_count;
                       final_words := final_word_count;
                       coverage_percent := coverage_percent |} |}.

(** [sum(...)] of the per-page percentages. *)
Definition sum_coverage (reconciled_pages : list PageRecord) : Q :=
  fold_left (fun acc p => acc + coverage_percent (coverage p)) reconciled_pages 0.

Definition _reconcile_extraction_sources (native_data ocr_data : SourceData)
    (table_data : list Table) : outcome DocumentRecord :=
  reconciled_pages <-
    for_each (reconcile_page native_data ocr_data table_data)
             (seq 0 (Nat.max (length (pages native_data))
                             (length (pages ocr_data)))) ;;
  overall <-
    match reconciled_pages with
    | [] => Ok 0
    | _ => pydiv (sum_coverage reconciled_pages) (len reconciled_pages)
    end ;;
  Ok {| doc_pages := reconciled_pages;
        doc_total_pages := length reconciled_pages;
        extraction_methods := ["pdf_native"; "ocr_paddle"; "pdf_tables"];
        overall_coverage := overall |}.

(** ** External collaborators *)

Definition bytes : Type := list Byte.byte.

(** An image as a numpy array: [shape0] rows and [shape1] columns;
    [image_id] stands for the pixels. *)
Record Image := mkImage { image_id : nat; shape0 : nat; shape1 : nat }.

(** An int of Python as a number. *)
Definition num (n : nat) : Q := inject_Z (Z.of_nat n).

(** PyMuPDF.  A span of [page.get_text("dict")]; the keys read with
    [span.get] may be absent. *)
Record Span := mkSpan {
  span_text : string;
  span_bbox : Q * Q * Q * Q;
  span_font : option string;
  span_size : option Q;
  span_flags : option Z
}.

(** A block; ["lines"] is absent in an image block.  A line is the list of
    its spans. *)
Record Block := mkBlock { block_lines : option (list (list Span)) }.

(** An item of a drawing path: ["l"] with two points, ["re"] with a
    rectangle (its [x0], [y0], [width], [height]), or another operator. *)
Inductive DrawItem :=
| LineItem (p1 p2 : Q * Q)
| RectItem (x0 y0 rect_w rect_h : Q)
| OtherItem.

(** [page.get_pixmap(matrix=mat)] and its PNG bytes. *)
Record Pixmap := mkPixmap { pix_width : nat; pix_height : nat; png : bytes }.

Record FitzPage := mkFitzPage {
  rect_width : Q;
  rect_height : Q;
  get_text : outcome (list Block);
  get_drawings : outcome (list (list DrawItem));
  get_pixmap : outcome Pixmap
}.

(** pdfplumber.  [table.extract()] gives rows of cells; a row or a cell
    may be [None]; an empty list stands for a falsy [table_data]. *)
Record PlumberTable := mkPlumberTable {
  pt_bbox : Q * Q * Q * Q;
  extract : outcome (list (option (list (option string))))
}.

Record PlumberPage := mkPlumberPage {
  pl_width : Q;
  pl_height : Q;
  find_tables : outcome (list PlumberTable)
}.

(** A row of [pytesseract.image_to_data(..., output_type=DICT)]: the i-th
    entries of its parallel lists. *)
Record TessRow := mkTessRow {
  level : Z; conf : Z; row_text : string;
  left : Z; top : Z; row_width : Z; row_height : Z
}.

(** A detection of PaddleOCR or EasyOCR: the corner points, the text and
    the confidence. *)
Record OcrLine := mkOcrLine {
  quad : list (Q * Q); line_text : string; line_confidence : Q
}.

(** A block of a LayoutParser layout. *)
Record LayoutBlock := mkLayoutBlock {
  block_type : string; x_1 : Q; y_1 : Q;
  block_width : Q; block_height : Q; score : Q
}.

(** An OpenCV contour: the number of corners of its polygon
    approximation, its area and its bounding rectangle. *)
Record Contour := mkContour {
  approx_corners : nat; contour_area : Q; bounding_rect : Q * Q * Q * Q
}.

Record runtime := mkRuntime {
  (** whether each optional import at module level succeeds *)
  import_pytesseract : bool;
  import_pdfplumber : bool;
  import_pdf2image : bool;
  import_paddleocr : bool;
  import_easyocr : bool;
  (** the constructors of the two engines *)
  new_PaddleOCR : outcome unit;
  new_easyocr_Reader : outcome unit;
  (** [fitz.open(stream=..., filetype="pdf")]: the pages of the document *)
  fitz_open : bytes -> outcome (list FitzPage);
  (** [pdfplumber.open(...)]: [pdf.pages] *)
  pdfplumber_open : bytes -> outcome (list PlumberPage);
  (** [np.array(Image.open(io.BytesIO(...)))] *)
  Image_open : bytes -> outcome Image;
  (** [pytesseract.image_to_data(Image.fromarray(image_np), ...)] *)
  image_to_data : Image -> outcome (list TessRow);
  (** [paddle_ocr.ocr(image_np, cls=True)] *)
  paddle_ocr_ocr : Image -> outcome (list (list OcrLine));
  (** [easy_ocr.readtext(image_np)] *)
  easy_ocr_readtext : Image -> outcome (list OcrLine);
  (** [layout_model.detect(image_np)] *)
  layout_model_detect : Image -> outcome (list LayoutBlock);
  (** [cv2.cvtColor], [cv2.Canny] and [cv2.HoughLinesP]: the segments *)
  cv2_HoughLinesP : Image -> outcome (list (Q * Q * Q * Q));
  (** [cv2.findContours] and the measures taken of each contour *)
  cv2_findContours : Image -> outcome (list Contour);
  (** [str(e)] of an [HTTPException] *)
  str_HTTPException : Z -> string -> string
}.

(** [str(e)]. *)
Definition exn_str (rt : runtime) (e : exn) : string :=
  match e with
  | HTTPException status_code detail => str_HTTPException rt status_code detail
  | PyError _ message => message
  end.

(** ** Names: module globals and instance attributes *)

Inductive Value :=
| VBool (b : bool)
| VNone
| VObject (class_name : string).

Definition truth (v : Value) : bool :=
  match v with
  | VBool b => b
  | VNone => false
  | VObject _ => true
  end.

(** [v is not None]. *)
Definition is_not_None (v : Value) : bool :=
  match v with VNone => false | _ => true end.

(** Reading a global name. *)
Definition load_global (globals : gmap string Value) (name : string)
  : outcome Value :=
  match globals !! name with
  | Some v => Ok v
  | None => Raise (NameError name)
  end.

(** Reading [self.name]. *)
Definition getattr (self : gmap string Value) (name : string)
  : outcome Value :=
  match self !! name with
  | Some v => Ok v
  | None => Raise (AttributeError name)
  end.

(** The availability flags, as the [try: import ... except ImportError]
    blocks at the top of the module bind them. *)
Definition module_globals (rt : runtime) : gmap string Value :=
  <["EASY_OCR_AVAILABLE" := VBool (import_easyocr rt)]>
  (<["PADDLE_AVAILABLE" := VBool (import_paddleocr rt)]>
  (<["PDF2IMAGE_AVAILABLE" := VBool (import_pdf2image rt)]>
  (<["PDFPLUMBER_AVAILABLE" := VBool (import_pdfplumber rt)]>
  (<["PYTESSERACT_AVAILABLE" := VBool (import_pytesseract rt)]> ∅)))).

(** [AdvancedOCR.__init__]: the attributes of the new instance. *)
Definition __init__ (rt : runtime) (globals : gmap string Value)
  : outcome (gmap string Value) :=
  let self : gmap string Value := <["paddle_ocr" := VNone]> ∅ in
  let self := <["easy_ocr" := VNone]> self in
  pytesseract_available <- load_global globals "PYTESSERACT_AVAILABLE" ;;
  let self := <["pytesseract_available" := pytesseract_available]> self in
  paddle_available <- load_global globals "PADDLE_AVAILABLE" ;;
  let self :=
    if truth paddle_available then
      match new_PaddleOCR rt with
      | Ok _ => <["paddle_ocr" := VObject "PaddleOCR"]> self
      | Raise _ => self
      end
    else self in
  easy_available <- load_global globals "EASY_OCR_AVAILABLE" ;;
  let self :=
    if truth easy_available then
      match new_easyocr_Reader rt with
      | Ok _ => <["easy_ocr" := VObject "Reader"]> self
      | Raise _ => self
      end
    else self in
  _ <- load_global globals "PYTESSERACT_AVAILABLE" ;;
  Ok self.

(** The module once imported: its flags and [ocr_service = AdvancedOCR()]. *)
Record Module := mkModule {
  globals : gmap string Value;
  ocr_service : gmap string Value
}.

Definition load_module (rt : runtime) : outcome Module :=
  let globals := module_globals rt in
  ocr_service <- __init__ rt globals ;;
  Ok {| globals := globals; ocr_service := ocr_service |}.

(** ** Coordinate normalisation *)

(** The bbox dict built from corners [(b0, b1, b2, b3)] of a page of size
    [page_w] x [page_h], as [_extract_pdf_native] and
    [_extract_pdf_tables] build it. *)
Definition normalize_corners (b : Q * Q * Q * Q) (page_w page_h : Q)
  : outcome BoundingBox :=
  let '(b0, b1, b2, b3) := b in
  bx <- pydiv b0 page_w ;;
  by_ <- pydiv b1 page_h ;;
  bw <- pydiv (b2 - b0) page_w ;;
  bh <- pydiv (b3 - b1) page_h ;;
  Ok {| x := bx; y := by_; width := bw; height := bh |}.

(** The bbox dict built from a corner and a size [(bx, by, bw, bh)] in
    pixels, as the OCR, layout and contour code builds it. *)
Definition normalize_rect (r : Q * Q * Q * Q) (page_w page_h : Q)
  : outcome BoundingBox :=
  let '(rx, ry, rw, rh) := r in
  bx <- pydiv rx page_w ;;
  by_ <- pydiv ry page_h ;;
  bw <- pydiv rw page_w ;;
  bh <- pydiv rh page_h ;;
  Ok {| x := bx; y := by_; width := bw; height := bh |}.

(** The bbox dict built from the corner points of a detection.  The four
    quotients are exact here and rounded in the program, so [x + width]
    of the result need not be the quotient of the greatest coordinate:
    the properties only use the order of the quotients, which rounding
    preserves. *)
Definition normalize_quad (q : list (Q * Q)) (page_w page_h : Q)
  : outcome BoundingBox :=
  let x_coords := map fst q in
  let y_coords := map snd q in
  min_x <- min_list x_coords ;;
  bx <- pydiv min_x page_w ;;
  min_y <- min_list y_coords ;;
  by_ <- pydiv min_y page_h ;;
  max_x <- max_list x_coords ;;
  bw <- pydiv (max_x - min_x) page_w ;;
  max_y <- max_list y_coords ;;
  bh <- pydiv (max_y - min_y) page_h ;;
  Ok {| x := bx; y := by_; width := bw; height := bh |}.

(** The bbox and the two end points of a segment; as for
    [normalize_quad], only the order of the quotients is used. *)
Definition normalize_segment (p1 p2 : Q * Q) (page_w page_h : Q)
  : outcome (BoundingBox * list (Q * Q)) :=
  bx <- pydiv (pymin (fst p1) (fst p2)) page_w ;;
  by_ <- pydiv (pymin (snd p1) (snd p2)) page_h ;;
  bw <- pydiv (pyabs (fst p2 - fst p1)) page_w ;;
  bh <- pydiv (pyabs (snd p2 - snd p1)) page_h ;;
  c1x <- pydiv (fst p1) page_w ;;
  c1y <- pydiv (snd p1) page_h ;;
  c2x <- pydiv (fst p2) page_w ;;
  c2y <- pydiv (snd p2) page_h ;;
  Ok ({| x := bx; y := by_; width := bw; height := bh |},
      [(c1x, c1y); (c2x, c2y)]).

(** ** The native extractor *)

(** The dict appended for one span. *)
Definition native_word (page_w page_h : Q) (span : Span) : outcome Word :=
  b <- normalize_corners (span_bbox span) page_w page_h ;;
  Ok {| text := span_text span;
        bbox := b;
        confidence := 1;
        origin := NativeSpan (default "" (span_font span))
                             (default 0 (span_size span))
                             (default 0%Z (span_flags span)) |}.

(** The three nested loops over blocks, lines and spans. *)
Definition native_page_words (page_w page_h : Q) (blocks : list Block)
  : outcome (list Word) :=
  per_block <-
    for_each (fun block =>
                match block_lines block with
                | Some block_lines =>
                    per_line <-
                      for_each (for_each (native_word page_w page_h))
                               block_lines ;;
                    Ok (concat per_line)
                | None => Ok []
                end) blocks ;;
  Ok (concat per_block).

(** The body of the loop of [_extract_pdf_shapes] over the items. *)
Definition pdf_shape_of_item (page_w page_h : Q) (item : DrawItem)
  : M (list Shape) unit :=
  match item with
  | LineItem p1 p2 =>
      s <~ lift (normalize_segment p1 p2 page_w page_h) ;;
      append {| shape_type := "line"; shape_bbox := fst s;
                coordinates := snd s |}
  | RectItem x0 y0 rect_w rect_h =>
      b <~ lift (normalize_rect (x0, y0, rect_w, rect_h) page_w page_h) ;;
      append {| shape_type := "rectangle"; shape_bbox := b;
                coordinates := [] |}
  | OtherItem => ret tt
  end.

Definition _extract_pdf_shapes (page : FitzPage) (page_w page_h : Q)
  : list Shape :=
  fst (try_log
         (paths <~ lift (get_drawings page) ;;
          for_eachM (for_eachM (pdf_shape_of_item page_w page_h)) paths)
         []).

Definition _extract_pdf_native (rt : runtime) (pdf_bytes : bytes)
  : outcome SourceData :=
  doc <- fitz_open rt pdf_bytes ;;
  pages <-
    for_each (fun '(page_num, page) =>
                let page_w := rect_width page in
                let page_h := rect_height page in
                text_dict <- get_text page ;;
                words <- native_page_words page_w page_h text_dict ;;
                let shapes := _extract_pdf_shapes page page_w page_h in
                Ok {| page_number := page_num + 1;
                      page_width := page_w;
                      page_height := page_h;
                      words := words;
                      page_shapes := shapes;
                      page_method := "pdf_native" |})
             (enumerate doc) ;;
  Ok {| pages := pages; total_pages := length pages; method := "pdf_native" |}.

(** ** The OCR engines *)

(** The body of the loop over the rows of Tesseract. *)
Definition tesseract_row (image_np : Image) (r : TessRow)
  : M (list Word) unit :=
  if (30 <? conf r)%Z then
    let text := Str.strip (row_text r) in
    if Str.truthy text then
      b <~ lift (normalize_rect
                   (inject_Z (left r), inject_Z (top r),
                    inject_Z (row_width r), inject_Z (row_height r))
                   (num (shape1 image_np)) (num (shape0 image_np))) ;;
      append {| text := text; bbox := b;
                confidence := inject_Z (conf r) / 100;
                origin := Engine "tesseract" |}
    else ret tt
  else ret tt.

(** The body of the loops over the detections of PaddleOCR and EasyOCR. *)
Definition ocr_line_word (engine : string) (image_np : Image) (l : OcrLine)
  : M (list Word) unit :=
  b <~ lift (normalize_quad (quad l)
               (num (shape1 image_np)) (num (shape0 image_np))) ;;
  append {| text := line_text l; bbox := b;
            confidence := line_confidence l;
            origin := Engine engine |}.

(** [_multi_engine_ocr]; the result is the list under ["words"]. *)
Definition multi_engine_body (rt : runtime) (self : gmap string Value)
    (image_np : Image) : M (list Word) unit :=
  pytesseract_available <~ lift (getattr self "pytesseract_available") ;;
  _ <~ (if truth pytesseract_available then
          try_log (data <~ lift (image_to_data rt image_np) ;;
                   for_eachM (tesseract_row image_np) data)
        else ret tt) ;;
  paddle_ocr <~ lift (getattr self "paddle_ocr") ;;
  found <~ length_so_far ;;
  _ <~ (if truth paddle_ocr && (found <? 10)%nat then
          try_log (paddle_results <~ lift (paddle_ocr_ocr rt image_np) ;;
                   match paddle_results with
                   | first_result :: _ =>
                       for_eachM (ocr_line_word "paddle" image_np) first_result
                   | [] => ret tt
                   end)
        else ret tt) ;;
  easy_ocr <~ lift (getattr self "easy_ocr") ;;
  found <~ length_so_far ;;
  _ <~ (if truth easy_ocr && (found =? 0)%nat then
          try_log (easy_results <~ lift (easy_ocr_readtext rt image_np) ;;
                   for_eachM (ocr_line_word "easy" image_np) easy_results)
        else ret tt) ;;
  ret tt.

Definition _multi_engine_ocr (rt : runtime) (self : gmap string Value)
    (image_np : Image) : outcome (list Word) :=
  let '(all_words, r) := multi_engine_body rt self image_np [] in
  _ <- r ;; Ok all_words.

Definition _extract_pdf_via_ocr (rt : runtime) (self : gmap string Value)
    (pdf_bytes : bytes) : outcome SourceData :=
  doc <- fitz_open rt pdf_bytes ;;
  pages <-
    for_each (fun '(page_num, page) =>
                pix <- get_pixmap page ;;
                image_np <- Image_open rt (png pix) ;;
                ocr_words <- _multi_engine_ocr rt self image_np ;;
                Ok {| page_number := page_num + 1;
                      page_width := num (pix_width pix);
                      page_height := num (pix_height pix);
                      words := ocr_words;
                      page_shapes := [];
                      page_method := "pdf_to_image_ocr" |})
             (enumerate doc) ;;
  Ok {| pages := pages; total_pages := length pages; method := "pdf_ocr" |}.

(** ** The table detector *)

(** The cells of a table: the non-empty texts with their row and column. *)
Definition table_cells (table_data : list (option (list (option string))))
  : list Cell :=
  flat_map
    (fun '(row_idx, row) =>
       flat_map
         (fun '(col_idx, cell_text) =>
            match cell_text with
            | Some t =>
                if Str.truthy t
                then [{| cell_text := t; row := row_idx; col := col_idx;
                         cell_confidence := 0.95 |}]
                else []
            | None => []
            end)
         (enumerate (default [] row)))
    (enumerate table_data).

(** [max(len(row or []) for row in table_data) if table_data else 0]. *)
Definition table_cols (table_data : list (option (list (option string))))
  : nat :=
  fold_right Nat.max 0%nat (map (fun row => length (default [] row)) table_data).

(** The body of the loop over the tables of a page. *)
Definition plumber_table (page_num : nat) (page : PlumberPage)
    (entry : nat * PlumberTable) : M (list Table) unit :=
  let '(table_idx, table) := entry in
  table_data <~ lift (extract table) ;;
  b <~ lift (normalize_corners (pt_bbox table) (pl_width page) (pl_height page)) ;;
  append {| table_page_number := page_num + 1;
            table_id := "table_" ++ pretty page_num ++ "_" ++ pretty table_idx;
            table_bbox := b;
            cells := table_cells table_data;
            rows := length table_data;
            cols := table_cols table_data |}.

Definition _extract_pdf_tables (rt : runtime) (globals : gmap string Value)
    (pdf_bytes : bytes) : outcome (list Table) :=
  available <- load_global globals "PDFPLUMBER_AVAILABLE" ;;
  if negb (truth available) then Ok []
  else
    Ok (fst (try_log
               (pdf <~ lift (pdfplumber_open rt pdf_bytes) ;;
                for_eachM
                  (fun '(page_num, page) =>
                     page_tables <~ lift (find_tables page) ;;
                     for_eachM (plumber_table page_num page)
                               (enumerate page_tables))
                  (enumerate pdf))
               [])).

(** ** The image path *)

Definition _analyze_layout (rt : runtime) (self : gmap string Value)
    (image_np : Image) : outcome (list LayoutElement) :=
  layout_model <- getattr self "layout_model" ;;
  if negb (truth layout_model) then Ok []
  else
    try_except
      (layout <- layout_model_detect rt image_np ;;
       for_each
         (fun block =>
            b <- normalize_rect
                   (x_1 block, y_1 block, block_width block, block_height block)
                   (num (shape1 image_np)) (num (shape0 image_np)) ;;
            Ok {| element_type := block_type block;
                  element_bbox := b;
                  element_confidence := score block |})
         layout)
      (fun _ => Ok []).

Definition _detect_shapes_and_lines (rt : runtime) (image_np : Image)
  : list Shape :=
  let page_w := num (shape1 image_np) in
  let page_h := num (shape0 image_np) in
  fst (try_log
         (lines <~ lift (cv2_HoughLinesP rt image_np) ;;
          _ <~ for_eachM
                 (fun '(x1, y1, x2, y2) =>
                    s <~ lift (normalize_segment (x1, y1) (x2, y2) page_w page_h) ;;
                    append {| shape_type := "line"; shape_bbox := fst s;
                              coordinates := snd s |})
                 lines ;;
          contours <~ lift (cv2_findContours rt image_np) ;;
          for_eachM
            (fun contour =>
               if (approx_corners contour =? 4)%nat &&
                  Qltb 1000 (contour_area contour)
               then
                 b <~ lift (normalize_rect (bounding_rect contour) page_w page_h) ;;
                 append {| shape_type := "rectangle"; shape_bbox := b;
                           coordinates := [] |}
               else ret tt)
            contours)
         []).

Definition _build_intermediate_representation (image_np : Image)
    (layout_elements : list LayoutElement) (ocr_results : list Word)
    (shapes : list Shape) : DocumentRecord :=
  {| doc_pages :=
       [ {| pr_page_number := 1;
            pr_width := num (shape1 image_np);
            pr_height := num (shape0 image_np);
            pr_words := ocr_results;
            pr_tables := [];
            pr_layout_elements := layout_elements;
            pr_shapes := shapes;
            coverage := {| native_words := 0;
                           ocr_words := length ocr_results;
                           final_words := length ocr_results;
                           coverage_percent := 100 |} |} ];
     doc_total_pages := 1;
     extraction_methods := ["paddleocr"; "layout_parser"; "opencv_shapes"];
     overall_coverage := 100 |}.

Definition extract_image_with_layout (rt : runtime) (m : Module)
    (image_bytes : bytes) : outcome DocumentRecord :=
  try_except
    (image_np <- Image_open rt image_bytes ;;
     layout_elements <- _analyze_layout rt (ocr_service m) image_np ;;
     ocr_results <- _multi_engine_ocr rt (ocr_service m) image_np ;;
     let shapes := _detect_shapes_and_lines rt image_np in
     Ok (_build_intermediate_representation
           image_np layout_elements ocr_results shapes))
    (fun e => Raise (HTTPException 500
                       ("Image extraction failed: " ++ exn_str rt e))).

(** ** The PDF path *)

Definition extract_pdf_with_coordinates (rt : runtime) (m : Module)
    (pdf_bytes : bytes) : outcome DocumentRecord :=
  try_except
    (native_data <- _extract_pdf_native rt pdf_bytes ;;
     ocr_data <- _extract_pdf_via_ocr rt (ocr_service m) pdf_bytes ;;
     available <- load_global (globals m) "PDFPLUMBER_AVAILABLE" ;;
     table_data <-
       (if truth available
        then _extract_pdf_tables rt (globals m) pdf_bytes
        else Ok []) ;;
     _reconcile_extraction_sources native_data ocr_data table_data)
    (fun e => Raise (HTTPException 500
                       ("PDF extraction failed: " ++ exn_str rt e))).

(** ** The endpoints *)

(** The upload: [await file.read()], [file.content_type], [file.filename]. *)
Record UploadFile := mkUploadFile {
  read : outcome bytes;
  content_type : option string;
  filename : option string
}.

(** [v or ""]. *)
Definition or_empty (v : option string) : string :=
  match v with
  | Some s => s
  | None => ""
  end.

Definition image_extensions : list string :=
  [".jpg"; ".jpeg"; ".png"; ".bmp"; ".tiff"].

(** The two tests of the dispatch. *)
Definition is_pdf (content_type filename : string) : bool :=
  String.eqb content_type "application/pdf" ||
  Str.endswith ".pdf" (Str.lower filename).

Definition is_image (content_type filename : string) : bool :=
  Str.startswith "image/" content_type ||
  existsb (fun ext => Str.endswith ext (Str.lower filename)) image_extensions.

(** [POST /extract].  An exception that leaves the function is the HTTP
    response of the request: an [HTTPException] answers with its
    [status_code] and [detail]. *)
Definition extract_document (rt : runtime) (m : Module) (file : UploadFile)
  : outcome DocumentRecord :=
  try_except
    (file_content <- read file ;;
     let content_type := or_empty (content_type file) in
     let filename := or_empty (filename file) in
     if is_pdf content_type filename
     then extract_pdf_with_coordinates rt m file_content
     else if is_image content_type filename
     then extract_image_with_layout rt m file_content
     else Raise (HTTPException 400 "Unsupported file type"))
    (fun e => Raise (HTTPException 500 (exn_str rt e))).

Record Services := mkServices {
  svc_paddle_ocr : bool;
  svc_easy_ocr : bool;
  svc_layout_parser : bool;
  svc_pdf_plumber : bool
}.

Record Health := mkHealth { status : string; services : Services }.

(** [FLAG and ocr_service.attr is not None]. *)
Definition flag_and_attr (m : Module) (flag attr : string) : outcome bool :=
  available <- load_global (globals m) flag ;;
  if truth available
  then v <- getattr (ocr_service m) attr ;; Ok (is_not_None v)
  else Ok false.

(** [GET /health]. *)
Definition health_check (m : Module) : outcome Health :=
  paddle_ocr <- flag_and_attr m "PADDLE_AVAILABLE" "paddle_ocr" ;;
  easy_ocr <- flag_and_attr m "EASY_OCR_AVAILABLE" "easy_ocr" ;;
  layout_parser <- flag_and_attr m "LAYOUT_PARSER_AVAILABLE" "layout_model" ;;
  pdf_plumber <- load_global (globals m) "PDFPLUMBER_AVAILABLE" ;;
  Ok {| status := "healthy";
        services := {| svc_paddle_ocr := paddle_ocr;
                       svc_easy_ocr := easy_ocr;
                       svc_layout_parser := layout_parser;
                       svc_pdf_plumber := truth pdf_plumber |} |}.

(** ** Predicates of the statements *)

(** The boxes that [==] identifies. *)
Definition bbox_equiv (a b : BoundingBox) : Prop :=
  x a == x b /\ y a == y b /\ width a == width b /\ height a == height b.

(** No entry of [l] satisfies the match condition against [word]. *)
Definition unmatched (word : Word) (l : list Word) : bool :=
  forallb (fun e => negb (is_match word e)) l.

(** A list in which no word matches a word before it. *)
Fixpoint settled_from (seen rest : list Word) : bool :=
  match rest with
  | [] => true
  | e :: rest' => unmatched e seen && settled_from (seen ++ [e]) rest'
  end.

Definition settled (l : list Word) : bool := settled_from [] l.

(** The source types that contributed at least one record, in the words of
    the specification: the native extractor when one of its pages has a
    word or a shape, the OCR path when one of its pages has a word, the
    table detector when it found a table. *)
Definition contributing_sources (native_data ocr_data : SourceData)
    (table_data : list Table) : list string :=
  (if existsb (fun p => (0 <? length (words p) + length (page_shapes p))%nat)
              (pages native_data)
   then ["pdf_native"] else []) ++
  (if existsb (fun p => (0 <? length (words p))%nat) (pages ocr_data)
   then ["ocr_paddle"] else []) ++
  (if (0 <? length table_data)%nat then ["pdf_tables"] else []).

(** [min(100, final / max(native, ocr, 1) * 100)] with the minimum and
    maximum of the rationals. *)
Definition coverage_formula (c : CoverageStats) : Q :=
  Qmin 100 (num (final_words c)
            / Qmax (Qmax (num (native_words c)) (num (ocr_words c))) 1
            * 100).


(** The merge in the words of the specification: the incoming [word] takes
    the place of the entry [existing] it beats, the other entries keep
    their positions. *)
Fixpoint replace_entry (existing word : Word) (l : list Word) : list Word :=
  match l with
  | [] => []
  | w :: l' =>
      if word_eqb w existing then word :: l'
      else w :: replace_entry existing word l'
  end.

(** A computation that appends the same records and ends in the same way
    whatever the list it starts from. *)
Definition uniform {S} (m : M (list S) unit) : Prop :=
  exists added r, forall s, m s = (s ++ added, r).


(** ** Predicates of the further properties *)

(** Two boxes that lie side by side or one above the other, possibly
    touching. *)
Definition separated (a b : BoundingBox) : Prop :=
  x a + width a <= x b \/ x b + width b <= x a \/
  y a + height a <= y b \/ y b + height b <= y a.

(** The lower-cased tokens of a text, as [_text_similarity] compares them. *)
Definition tokens (t : string) : gset string :=
  list_to_set (Str.split (Str.lower t)).

(** A computation that only appends to the list it builds, and appends
    only elements that satisfy [P], whether or not it raises. *)
Definition appends {S} (P : S -> Prop) (m : M (list S) unit) : Prop :=
  forall s, exists added, fst (m s) = s ++ added /\ Forall P added.

(** The rows of Tesseract that the loop keeps, and the word it stores for
    a row. *)
Definition tesseract_keeps (r : TessRow) : bool :=
  (30 <? conf r)%Z && Str.truthy (Str.strip (row_text r)).

Definition tesseract_word (image_np : Image) (r : TessRow) : Word :=
  {| text := Str.strip (row_text r);
     bbox := {| x := inject_Z (left r) / num (shape1 image_np);
                y := inject_Z (top r) / num (shape0 image_np);
                width := inject_Z (row_width r) / num (shape1 image_np);
                height := inject_Z (row_height r) / num (shape0 image_np) |};
     confidence := inject_Z (conf r) / 100;
     origin := Engine "tesseract" |}.

(** A table whose cells lie inside the dimensions it reports. *)
Definition well_formed_table (t : Table) : Prop :=
  (1 <= table_page_number t)%nat /\
  forall c, In c (cells t) ->
    (row c < rows t)%nat /\ (col c < cols t)%nat /\
    Str.truthy (cell_text c) = true /\ cell_confidence c == 0.95.

(** The spans of a text dict in reading order: those of the blocks that
    have lines. *)
Definition block_spans (block : Block) : list Span :=
  match block_lines block with
  | Some block_lines => concat block_lines
  | None => []
  end.

Definition page_spans (blocks : list Block) : list Span :=
  concat (map block_spans blocks).

(** A page that every source can process: positive size, a text layer
    that reads, and a rendering that decodes. *)
Definition page_processable (rt : runtime) (page : FitzPage) : Prop :=
  0 < rect_width page /\ 0 < rect_height page /\
  (exists blocks, get_text page = Ok blocks) /\
  (exists pix image_np,
     get_pixmap page = Ok pix /\ Image_open rt (png pix) = Ok image_np).

(** A shape dict as the extractors build it: a line with its two end
    points, or a rectangle, which has no key ["coordinates"]. *)
Definition well_formed_shape (s : Shape) : Prop :=
  (shape_type s = "line" /\ length (coordinates s) = 2%nat) \/
  (shape_type s = "rectangle" /\ coordinates s = []).

(** ** Sample inputs *)

Module Sample.

(** Three detections of the same word on one line, each shifted by 0.05
    of the page width: the middle one overlaps both neighbours with
    IoU 9/11, the outer two overlap each other with IoU 2/3 only. *)
Definition box_at (left_edge : Q) : BoundingBox :=
  {| x := left_edge; y := 0.1; width := 0.5; height := 0.1 |}.

Definition word_left : Word :=
  {| text := "hello"; bbox := box_at 0; confidence := 0.5;
     origin := Engine "tesseract" |}.

Definition word_right : Word :=
  {| text := "hello"; bbox := box_at 0.1; confidence := 0.5;
     origin := Engine "tesseract" |}.

Definition word_middle : Word :=
  {| text := "hello"; bbox := box_at 0.05; confidence := 0.9;
     origin := Engine "paddle" |}.

(** Two spans of a PDF text layer that hold one space each, at the same
    place. *)
Definition space_span : Word :=
  {| text := " "; bbox := box_at 0; confidence := 1;
     origin := NativeSpan "Helvetica" 12 0 |}.

Definition spaces_span : Word :=
  {| text := "  "; bbox := box_at 0; confidence := 1;
     origin := NativeSpan "Helvetica" 12 0 |}.

End Sample.

Module SampleSources.

(** Sources that found nothing: no page, no table. *)
Definition nothing (name : string) : SourceData :=
  {| pages := []; total_pages := 0; method := name |}.

(** Two pages: on the first the native extractor finds one word and the
    OCR path two; on the second, a blank page, neither finds any. *)
Definition native_two_pages : SourceData :=
  {| pages :=
       [ {| page_number := 1; page_width := 600; page_height := 800;
            words := [Sample.word_left]; page_shapes := [];
            page_method := "pdf_native" |};
         {| page_number := 2; page_width := 600; page_height := 800;
            words := []; page_shapes := [];
            page_method := "pdf_native" |} ];
     total_pages := 2; method := "pdf_native" |}.

Definition ocr_two_pages : SourceData :=
  {| pages :=
       [ {| page_number := 1; page_width := 1200; page_height := 1600;
            words := [Sample.word_right; Sample.word_middle];
            page_shapes := []; page_method := "pdf_to_image_ocr" |};
         {| page_number := 2; page_width := 1200; page_height := 1600;
            words := []; page_shapes := [];
            page_method := "pdf_to_image_ocr" |} ];
     total_pages := 2; method := "pdf_ocr" |}.

End SampleSources.

Module SampleRuntime.

Definition failing {A} (message : string) : outcome A :=
  Raise (PyError "RuntimeError" message).

(** One span "Total" on a 600 x 800 page. *)
Definition total_span : Span :=
  {| span_text := "Total"; span_bbox := (60, 80, 120, 96);
     span_font := Some "Helvetica"; span_size := Some 12;
     span_flags := Some 0%Z |}.

Definition rendering : Pixmap :=
  {| pix_width := 1200; pix_height := 1600; png := [] |}.

(** A page whose text layer reads well. *)
Definition readable_page : FitzPage :=
  {| rect_width := 600; rect_height := 800;
     get_text := Ok [ {| block_lines := Some [[total_span]] |} ];
     get_drawings := Ok [];
     get_pixmap := Ok rendering |}.


Definition scan_image : Image :=
  {| image_id := 0; shape0 := 1600; shape1 := 1200 |}.

Definition total_row : TessRow :=
  {| level := 5; conf := 91; row_text := "Total";
     left := 120; top := 160; row_width := 120; row_height := 32 |}.

(** Everything is installed and works; the document has the pages
    [doc]. *)
Definition healthy (doc : list FitzPage) : runtime :=
  {| import_pytesseract := true;
     import_pdfplumber := true;
     import_pdf2image := true;
     import_paddleocr := true;
     import_easyocr := true;
     new_PaddleOCR := Ok tt;
     new_easyocr_Reader := Ok tt;
     fitz_open := fun _ => Ok doc;
     pdfplumber_open :=
       fun _ => Ok [ {| pl_width := 600; pl_height := 800;
                        find_tables := Ok [] |} ];
     Image_open := fun _ => Ok scan_image;
     image_to_data := fun _ => Ok [total_row];
     paddle_ocr_ocr := fun _ => Ok [[]];
     easy_ocr_readtext := fun _ => Ok [];
     layout_model_detect := fun _ => Ok [];
     cv2_HoughLinesP := fun _ => Ok [];
     cv2_findContours := fun _ => Ok [];
     str_HTTPException :=
       fun status_code detail =>
         (pretty status_code ++ ": " ++ detail)%string |}.

(** The text layer reads well, but Tesseract raises on every image,
    PaddleOCR cannot be constructed, EasyOCR is not installed and
    pdfplumber cannot open the file. *)
Definition engines_down : runtime :=
  {| import_pytesseract := true;
     import_pdfplumber := true;
     import_pdf2image := true;
     import_paddleocr := true;
     import_easyocr := false;
     new_PaddleOCR := failing "model download failed";
     new_easyocr_Reader := failing "not installed";
     fitz_open := fun _ => Ok [readable_page];
     pdfplumber_open := fun _ => failing "not a PDF";
     Image_open := fun _ => Ok scan_image;
     image_to_data := fun _ => failing "tesseract is not installed";
     paddle_ocr_ocr := fun _ => failing "no engine";
     easy_ocr_readtext := fun _ => failing "no engine";
     layout_model_detect := fun _ => failing "no model";
     cv2_HoughLinesP := fun _ => Ok [];
     cv2_findContours := fun _ => Ok [];
     str_HTTPException :=
       fun status_code detail =>
         (pretty status_code ++ ": " ++ detail)%string |}.

(** The module as imported under [rt]. *)
Definition imported (rt : runtime) : Module :=
  match load_module rt with
  | Ok m => m
  | Raise _ => {| globals := ∅; ocr_service := ∅ |}
  end.

(** A span that reaches beyond the right edge of its 600 x 800 page. *)
Definition overflowing_span : Span :=
  {| span_text := "overflow"; span_bbox := (700, 0, 800, 10);
     span_font := None; span_size := None; span_flags := None |}.

Definition pdf_upload : bytes := [].

(** An upload that is neither a PDF nor an image. *)
Definition text_upload : UploadFile :=
  {| read := Ok []; content_type := Some "text/plain";
     filename := Some "notes.txt" |}.

Definition png_upload : UploadFile :=
  {| read := Ok []; content_type := Some "image/png";
     filename := Some "scan.png" |}.

End SampleRuntime.

Module SampleLayout.

(** Two words on different lines of a page. *)
Definition heading : Word :=
  {| text := "Invoice"; bbox := {| x := 0.1; y := 0.1; width := 0.3; height := 0.05 |};
     confidence := 1; origin := NativeSpan "Helvetica" 18 0 |}.

Definition footer : Word :=
  {| text := "Invoice"; bbox := {| x := 0.1; y := 0.9; width := 0.3; height := 0.05 |};
     confidence := 0.8; origin := Engine "tesseract" |}.

End SampleLayout.

Module SampleTables.

(** A table found on page 1 and one that carries a page number beyond the
    document. *)
Definition on_page (n : nat) : Table :=
  {| table_page_number := n; table_id := "table_0_0";
     table_bbox := {| x := 0.1; y := 0.2; width := 0.8; height := 0.3 |};
     cells := [ {| cell_text := "Qty"; row := 0; col := 0;
                   cell_confidence := 0.95 |} ];
     rows := 1; cols := 1 |}.

(** pdfplumber finds one table with a header row and a row that has an
    empty and a missing cell. *)
Definition found_table : PlumberTable :=
  {| pt_bbox := (60, 160, 540, 400);
     extract := Ok [ Some [Some "Qty"; Some "Price"];
                     Some [Some "2"; Some ""; None];
                     None ] |}.

Definition runtime_with_table : runtime :=
  {| import_pytesseract := true;
     import_pdfplumber := true;
     import_pdf2image := true;
     import_paddleocr := false;
     import_easyocr := false;
     new_PaddleOCR := Ok tt;
     new_easyocr_Reader := Ok tt;
     fitz_open := fun _ => Ok [SampleRuntime.readable_page];
     pdfplumber_open :=
       fun _ => Ok [ {| pl_width := 600; pl_height := 800;
                        find_tables := Ok [found_table] |} ];
     Image_open := fun _ => Ok SampleRuntime.scan_image;
     image_to_data := fun _ => Ok [SampleRuntime.total_row];
     paddle_ocr_ocr := fun _ => Ok [];
     easy_ocr_readtext := fun _ => Ok [];
     layout_model_detect := fun _ => Ok [];
     cv2_HoughLinesP := fun _ => Ok [];
     cv2_findContours := fun _ => Ok [];
     str_HTTPException :=
       fun status_code detail =>
         (pretty status_code ++ ": " ++ detail)%string |}.

End SampleTables.

Module SamplePages.

(** A page with a text layer whose rectangle has width 0. *)
Definition zero_width_page : FitzPage :=
  {| rect_width := 0; rect_height := 800;
     get_text := Ok [ {| block_lines := Some [[SampleRuntime.total_span]] |} ];
     get_drawings := Ok [];
     get_pixmap := Ok SampleRuntime.rendering |}.

End SamplePages.

(** * Properties *)

(** ** Numbers and the monads *)

Lemma Qltb_lt (a b : Q) : Qltb a b = true <-> a < b.
Proof.
  unfold Qltb. rewrite negb_true_iff.
  split.
  - intros H. apply Qnot_le_lt. intros Hle.
    apply Qle_bool_iff in Hle. congruence.
  - intros H. destruct (Qle_bool b a) eqn:E; [|reflexivity].
    apply Qle_bool_iff in E. exfalso. apply (Qlt_not_le _ _ H E).
Qed.

Lemma Qltb_ge (a b : Q) : Qltb a b = false <-> b <= a.
Proof.
  unfold Qltb. rewrite negb_false_iff. apply Qle_bool_iff.
Qed.

Lemma pymax_lub (a b : Q) : a <= pymax a b /\ b <= pymax a b.
Proof.
  unfold pymax. destruct (Qltb a b) eqn:E.
  - apply Qltb_lt in E. split; [apply Qlt_le_weak, E | apply Qle_refl].
  - apply Qltb_ge in E. split; [apply Qle_refl | exact E].
Qed.

Lemma pymin_glb (a b : Q) : pymin a b <= a /\ pymin a b <= b.
Proof.
  unfold pymin. destruct (Qltb b a) eqn:E.
  - apply Qltb_lt in E. split; [apply Qlt_le_weak, E | apply Qle_refl].
  - apply Qltb_ge in E. split; [apply Qle_refl | exact E].
Qed.

Lemma pydiv_ok (a b : Q) : ~ b == 0 -> pydiv a b = Ok (a / b).
Proof.
  intros H. unfold pydiv. destruct (Qeq_bool b 0) eqn:E; [|reflexivity].
  apply Qeq_bool_iff in E. contradiction.
Qed.

Lemma pydiv_zero (a b : Q) : b == 0 -> pydiv a b = Raise ZeroDivisionError.
Proof.
  intros H. unfold pydiv. apply Qeq_bool_iff in H. now rewrite H.
Qed.

(** ** Text similarity *)

Lemma isspace_lower_char (c : ascii) :
  Str.isspace (Str.lower_char c) = Str.isspace c.
Proof.
  destruct c as [[] [] [] [] [] [] [] []]; reflexivity.
Qed.

Lemma lstrip_lower (s : string) :
  Str.lstrip (Str.lower s) = Str.lower (Str.lstrip s).
Proof.
  induction s as [|c s IH]; [reflexivity|].
  simpl. rewrite isspace_lower_char.
  destruct (Str.isspace c); [exact IH | reflexivity].
Qed.

Lemma blank_lower (s : string) : Str.blank (Str.lower s) = Str.blank s.
Proof.
  unfold Str.blank. rewrite lstrip_lower.
  destruct (Str.lstrip s); reflexivity.
Qed.

Lemma split_from_token (tok s : string) :
  Str.truthy tok = true -> Str.split_from tok s <> [].
Proof.
  revert tok. induction s as [|c s IH]; intros tok Htok; simpl.
  - rewrite Htok. discriminate.
  - destruct (Str.isspace c).
    + rewrite Htok. discriminate.
    + apply IH. destruct tok; reflexivity.
Qed.

(** A text has no token exactly when it is blank. *)
Lemma split_blank (s : string) :
  Str.split s = [] <-> Str.blank s = true.
Proof.
  unfold Str.split, Str.blank.
  induction s as [|c s IH]; simpl.
  - split; reflexivity.
  - destruct (Str.isspace c); [exact IH|].
    split; [|discriminate].
    intros H. exfalso. revert H. now apply split_from_token.
Qed.

Lemma tokens_empty (s : string) :
  (list_to_set (Str.split (Str.lower s)) : gset string) = ∅
  <-> Str.blank s = true.
Proof.
  rewrite <- blank_lower, <- split_blank.
  destruct (Str.split (Str.lower s)) as [|t l]; [split; reflexivity|].
  split; [|discriminate].
  intros H. exfalso.
  assert (Ht : t ∈ (list_to_set (t :: l) : gset string)).
  { apply elem_of_list_to_set. left. }
  rewrite H in Ht. revert Ht. apply not_elem_of_empty.
Qed.

Lemma blank_empty (s : string) : Str.truthy s = false -> Str.blank s = true.
Proof. destruct s; [reflexivity | discriminate]. Qed.

(** What [_text_similarity] returns when one of the texts has no token. *)
Lemma text_similarity_blank_l (t1 t2 : string) :
  Str.blank t1 = true ->
  _text_similarity t1 t2 ==
  (if Str.truthy t1 && Str.truthy t2 && Str.blank t2 then 1 else 0).
Proof.
  intros Hb. unfold _text_similarity.
  destruct (Str.truthy t1); [|reflexivity].
  destruct (Str.truthy t2); [|reflexivity].
  simpl negb. simpl orb. cbv beta iota. simpl andb.
  apply tokens_empty in Hb. rewrite Hb.
  rewrite bool_decide_eq_true_2 by reflexivity. simpl andb.
  destruct (Str.blank t2) eqn:Hb2.
  - apply tokens_empty in Hb2. rewrite Hb2.
    rewrite bool_decide_eq_true_2 by reflexivity. reflexivity.
  - rewrite bool_decide_eq_false_2.
    2:{ intros H. apply tokens_empty in H. congruence. }
    set (s2 := list_to_set (Str.split (Str.lower t2)) : gset string).
    assert (Hi : (∅ : gset string) ∩ s2 = ∅) by apply (left_absorb_L _ _).
    rewrite Hi, size_empty.
    destruct (0 <? _)%nat; [|reflexivity].
    unfold Qdiv. apply Qmult_0_l.
Qed.

Lemma text_similarity_sym (t1 t2 : string) :
  _text_similarity t1 t2 = _text_similarity t2 t1.
Proof.
  unfold _text_similarity.
  rewrite (orb_comm (negb (Str.truthy t1))).
  rewrite (andb_comm (bool_decide (_ (Str.split (Str.lower t1)) = _))).
  set (s1 := list_to_set (Str.split (Str.lower t1)) : gset string).
  set (s2 := list_to_set (Str.split (Str.lower t2)) : gset string).
  assert (Hi : s1 ∩ s2 = s2 ∩ s1) by apply (comm_L _).
  assert (Hu : s1 ∪ s2 = s2 ∪ s1) by apply (comm_L _).
  rewrite Hi, Hu. reflexivity.
Qed.

(** ** The deduplicator *)

#[local] Instance Qltb_comp : Proper (Qeq ==> Qeq ==> eq) Qltb.
Proof.
  intros a a' Ha b b' Hb. unfold Qltb. now rewrite Ha, Hb.
Qed.

#[local] Instance pymax_comp : Proper (Qeq ==> Qeq ==> Qeq) pymax.
Proof.
  intros a a' Ha b b' Hb. unfold pymax. rewrite Ha, Hb.
  destruct (Qltb a' b'); assumption.
Qed.

#[local] Instance pymin_comp : Proper (Qeq ==> Qeq ==> Qeq) pymin.
Proof.
  intros a a' Ha b b' Hb. unfold pymin. rewrite Ha, Hb.
  destruct (Qltb b' a'); assumption.
Qed.

Lemma bbox_eqb_equiv (a b : BoundingBox) :
  bbox_eqb a b = true -> bbox_equiv a b.
Proof.
  unfold bbox_eqb, bbox_equiv. rewrite !andb_true_iff.
  intros [[[Hx Hy] Hw] Hh]. repeat split; now apply Qeq_bool_iff.
Qed.

Lemma overlaps_equiv (a b b' : BoundingBox) :
  bbox_equiv b b' -> overlaps a b = overlaps a b'.
Proof.
  intros (Hx & Hy & Hw & Hh).
  unfold overlaps, inter_x1, inter_x2, inter_y1, inter_y2.
  now rewrite Hx, Hy, Hw, Hh.
Qed.

Lemma iou_equiv (a b b' : BoundingBox) :
  bbox_equiv b b' -> iou a b == iou a b'.
Proof.
  intros (Hx & Hy & Hw & Hh).
  unfold iou, union_area, intersection_area,
    inter_x1, inter_x2, inter_y1, inter_y2.
  now rewrite Hx, Hy, Hw, Hh.
Qed.

(** Equal dicts are matched alike. *)
Lemma is_match_word_eqb (word p e : Word) :
  word_eqb p e = true -> is_match word p = is_match word e.
Proof.
  unfold word_eqb. rewrite !andb_true_iff.
  intros [[[Ht Hb] _] _].
  apply String.eqb_eq in Ht. apply bbox_eqb_equiv in Hb.
  unfold is_match.
  now rewrite Ht, (overlaps_equiv _ _ _ Hb), (iou_equiv _ _ _ Hb).
Qed.

Lemma word_eqb_refl (w : Word) : word_eqb w w = true.
Proof.
  unfold word_eqb, bbox_eqb, origin_eqb.
  rewrite String.eqb_refl, !Qeq_bool_refl.
  destruct (origin w); simpl.
  - now rewrite String.eqb_refl, Qeq_bool_refl, Z.eqb_refl.
  - apply String.eqb_refl.
Qed.

Lemma scan_unmatched (word : Word) (unique_words rest : list Word) :
  unmatched word rest = true ->
  scan word unique_words rest = (unique_words, false).
Proof.
  induction rest as [|e rest IH]; [reflexivity|].
  simpl. rewrite andb_true_iff, negb_true_iff. intros [He Hrest].
  unfold is_match in He.
  destruct (overlaps (bbox word) (bbox e)); [|exact (IH Hrest)].
  simpl in He. rewrite He. exact (IH Hrest).
Qed.

Lemma scan_first_match (word e : Word) (unique_words pre post : list Word) :
  unmatched word pre = true ->
  is_match word e = true ->
  scan word unique_words (pre ++ e :: post)
  = if Qltb (confidence e) (confidence word)
    then (list_remove e unique_words, false)
    else (unique_words, true).
Proof.
  intros Hpre He.
  induction pre as [|p pre IH]; simpl.
  - unfold is_match in He. apply andb_true_iff in He as [Ho He].
    now rewrite Ho, He.
  - simpl in Hpre. apply andb_true_iff in Hpre as [Hp Hpre].
    apply negb_true_iff in Hp. unfold is_match in Hp.
    destruct (overlaps (bbox word) (bbox p)); [|exact (IH Hpre)].
    simpl in Hp. rewrite Hp. exact (IH Hpre).
Qed.

Lemma list_remove_first (word e : Word) (pre post : list Word) :
  unmatched word pre = true ->
  is_match word e = true ->
  list_remove e (pre ++ e :: post) = pre ++ post.
Proof.
  intros Hpre He.
  induction pre as [|p pre IH]; simpl.
  - now rewrite word_eqb_refl.
  - simpl in Hpre. apply andb_true_iff in Hpre as [Hp Hpre].
    apply negb_true_iff in Hp.
    destruct (word_eqb p e) eqn:Hpe.
    + rewrite (is_match_word_eqb word p e Hpe) in Hp. congruence.
    + now rewrite (IH Hpre).
Qed.

Lemma dedup_step_unmatched (unique_words : list Word) (word : Word) :
  unmatched word unique_words = true ->
  dedup_step unique_words word = unique_words ++ [word].
Proof.
  intros H. unfold dedup_step. now rewrite scan_unmatched.
Qed.

Lemma dedup_step_first_match (word e : Word) (pre post : list Word) :
  unmatched word pre = true ->
  is_match word e = true ->
  dedup_step (pre ++ e :: post) word
  = if Qltb (confidence e) (confidence word)
    then pre ++ post ++ [word]
    else pre ++ e :: post.
Proof.
  intros Hpre He. unfold dedup_step.
  rewrite (scan_first_match word e _ pre post Hpre He).
  destruct (Qltb (confidence e) (confidence word)); [|reflexivity].
  now rewrite (list_remove_first word e pre post Hpre He), <- app_assoc.
Qed.

(** When some entry matches, there is a first one. *)
Lemma first_match_exists (word : Word) (l : list Word) :
  unmatched word l = false ->
  exists pre e post,
    l = pre ++ e :: post /\ unmatched word pre = true /\
    is_match word e = true.
Proof.
  induction l as [|a l IH]; [discriminate|].
  simpl. destruct (is_match word a) eqn:Ha; simpl.
  - intros _. exists [], a, l. auto.
  - intros H. destruct (IH H) as (pre & e & post & -> & Hpre & He).
    exists (a :: pre), e, post. simpl. rewrite Ha. auto.
Qed.

(** Under [overlaps] the denominator of the IoU is positive, so the
    division of [iou] is the one Python performs without raising. *)
Lemma union_area_pos (bbox1 bbox2 : BoundingBox) :
  overlaps bbox1 bbox2 = true ->
  0 < intersection_area bbox1 bbox2 /\
  intersection_area bbox1 bbox2 <= width bbox1 * height bbox1 /\
  0 < union_area bbox1 bbox2.
Proof.
  unfold overlaps, union_area, intersection_area.
  rewrite andb_true_iff, !Qltb_lt. intros [Hx Hy].
  unfold inter_x1, inter_x2, inter_y1, inter_y2 in *.
  destruct (pymax_lub (x bbox1) (x bbox2)) as [Hx1 Hx1'].
  destruct (pymax_lub (y bbox1) (y bbox2)) as [Hy1 Hy1'].
  destruct (pymin_glb (x bbox1 + width bbox1) (x bbox2 + width bbox2))
    as [Hx2 Hx2'].
  destruct (pymin_glb (y bbox1 + height bbox1) (y bbox2 + height bbox2))
    as [Hy2 Hy2'].
  set (x1 := pymax (x bbox1) (x bbox2)) in *.
  set (y1 := pymax (y bbox1) (y bbox2)) in *.
  set (x2 := pymin (x bbox1 + width bbox1) (x bbox2 + width bbox2)) in *.
  set (y2 := pymin (y bbox1 + height bbox1) (y bbox2 + height bbox2)) in *.
  assert (Hdx : 0 < x2 - x1) by lra.
  assert (Hdy : 0 < y2 - y1) by lra.
  assert (Hw1 : x2 - x1 <= width bbox1) by lra.
  assert (Hh1 : y2 - y1 <= height bbox1) by lra.
  assert (Hw2 : x2 - x1 <= width bbox2) by lra.
  assert (Hh2 : y2 - y1 <= height bbox2) by lra.
  assert (Hi : 0 < (x2 - x1) * (y2 - y1)) by nra.
  assert (H1 : (x2 - x1) * (y2 - y1) <= width bbox1 * height bbox1) by nra.
  assert (H2 : (x2 - x1) * (y2 - y1) <= width bbox2 * height bbox2) by nra.
  repeat split; [exact Hi | exact H1 | lra].
Qed.

Lemma iou_division_defined (bbox1 bbox2 : BoundingBox) :
  overlaps bbox1 bbox2 = true ->
  pydiv (intersection_area bbox1 bbox2) (union_area bbox1 bbox2)
  = Ok (iou bbox1 bbox2).
Proof.
  intros H. apply pydiv_ok.
  destruct (union_area_pos _ _ H) as (_ & _ & Hu).
  intros E. rewrite E in Hu. discriminate.
Qed.

Lemma fold_dedup_settled (seen rest : list Word) :
  settled_from seen rest = true ->
  fold_left dedup_step rest seen = seen ++ rest.
Proof.
  revert seen. induction rest as [|e rest IH]; intros seen; simpl.
  - now rewrite app_nil_r.
  - rewrite andb_true_iff. intros [He Hrest].
    rewrite (dedup_step_unmatched seen e He), (IH _ Hrest), <- app_assoc.
    reflexivity.
Qed.

(** C8 (amended): when at least one of the two texts is empty or made of
    whitespace only, [_text_similarity] returns 0.0, so the pair stays below
    the 0.8 threshold, except when both texts are non-empty and made of
    whitespace only: then both token sets are empty and it returns 1.0. *)
Theorem C8_text_similarity_without_tokens (t1 t2 : string) :
  Str.blank t1 = true \/ Str.blank t2 = true ->
  let both_spaces :=
    Str.truthy t1 && Str.truthy t2 && Str.blank t1 && Str.blank t2 in
  _text_similarity t1 t2 == (if both_spaces then 1 else 0) /\
  Qltb 0.8 (_text_similarity t1 t2) = both_spaces.
Proof.
  intros H both_spaces.
  assert (Hs : _text_similarity t1 t2 == (if both_spaces then 1 else 0)).
  { subst both_spaces. destruct H as [H|H].
    - rewrite (text_similarity_blank_l t1 t2 H), H.
      destruct (Str.truthy t1), (Str.truthy t2), (Str.blank t2); reflexivity.
    - rewrite text_similarity_sym, (text_similarity_blank_l t2 t1 H), H.
      destruct (Str.truthy t1), (Str.truthy t2), (Str.blank t1); reflexivity. }
  split; [exact Hs|].
  destruct both_spaces.
  - apply Qltb_lt. rewrite Hs. reflexivity.
  - apply Qltb_ge. rewrite Hs. discriminate.
Qed.

Lemma C8_text_similarity_without_tokens_witness :
  Str.blank "   " = true /\
  _text_similarity "   " "Invoice total" == 0 /\
  Qltb 0.8 (_text_similarity "   " "Invoice total") = false.
Proof.
  split; [reflexivity|].
  apply (C8_text_similarity_without_tokens "   " "Invoice total").
  left. reflexivity.
Defined.

(** C8 as stated fails: two texts of whitespace only have similarity 1.0,
    and two such words at the same place are merged. *)
Lemma C8_whitespace_pair_counterexample :
  (Str.blank " " = true \/ Str.blank "  " = true) /\
  ~ _text_similarity " " "  " == 0 /\
  Qltb 0.8 (_text_similarity " " "  ") = true /\
  _deduplicate_words [Sample.space_span; Sample.spaces_span]
  = [Sample.space_span].
Proof.
  split; [left; reflexivity|].
  split; [|split]; [|vm_compute; reflexivity..].
  intros H. vm_compute in H. discriminate.
Qed.

Lemma dedup_step_matched_length (unique_words : list Word) (word : Word) :
  unmatched word unique_words = false ->
  length (dedup_step unique_words word) = length unique_words.
Proof.
  intros H.
  destruct (first_match_exists _ _ H) as (pre & e & post & -> & Hpre & He).
  rewrite (dedup_step_first_match word e pre post Hpre He).
  destruct (Qltb (confidence e) (confidence word)); [|reflexivity].
  rewrite !length_app. simpl. lia.
Qed.

Lemma dedup_step_length (unique_words : list Word) (word : Word) :
  (length (dedup_step unique_words word) <= S (length unique_words))%nat.
Proof.
  destruct (unmatched word unique_words) eqn:H.
  - rewrite (dedup_step_unmatched _ _ H), length_app. simpl. lia.
  - rewrite (dedup_step_matched_length _ _ H). lia.
Qed.

Lemma fold_dedup_length (seen rest : list Word) :
  (length (fold_left dedup_step rest seen) <= length seen + length rest)%nat.
Proof.
  revert seen. induction rest as [|e rest IH]; intros seen; simpl; [lia|].
  specialize (IH (dedup_step seen e)).
  pose proof (dedup_step_length seen e). lia.
Qed.

(** A word that matches an earlier one makes the list shrink. *)
Lemma fold_dedup_unsettled (seen rest : list Word) :
  settled_from seen rest = false ->
  (length (fold_left dedup_step rest seen) < length seen + length rest)%nat.
Proof.
  revert seen. induction rest as [|e rest IH]; intros seen; simpl;
    [discriminate|].
  destruct (unmatched e seen) eqn:He; simpl.
  - intros H. rewrite (dedup_step_unmatched _ _ He).
    specialize (IH _ H). rewrite length_app in IH. simpl in IH. lia.
  - intros _.
    pose proof (fold_dedup_length (dedup_step seen e) rest) as Hle.
    rewrite (dedup_step_matched_length _ _ He) in Hle. lia.
Qed.

(** C3 as stated fails: the middle word replaces the left one and is
    appended without being compared with the right one, which it also
    matches; the second run then merges the two. *)
Lemma C3_dedup_not_idempotent_counterexample :
  let words := [Sample.word_left; Sample.word_right; Sample.word_middle] in
  _deduplicate_words words = [Sample.word_right; Sample.word_middle] /\
  _deduplicate_words (_deduplicate_words words) = [Sample.word_middle] /\
  _deduplicate_words (_deduplicate_words words) <> _deduplicate_words words.
Proof.
  intros words.
  assert (H1 : _deduplicate_words words
               = [Sample.word_right; Sample.word_middle])
    by (vm_compute; reflexivity).
  assert (H2 : _deduplicate_words (_deduplicate_words words)
               = [Sample.word_middle])
    by (vm_compute; reflexivity).
  split; [exact H1|]. split; [exact H2|].
  rewrite H2, H1. discriminate.
Qed.

(** ** Reconciliation *)

Lemma for_each_total {A B} (body : A -> outcome B) (l : list A) :
  (forall a, In a l -> exists b, body a = Ok b) ->
  exists bs, for_each body l = Ok bs.
Proof.
  induction l as [|a l IH]; intros H; simpl.
  - now exists [].
  - destruct (H a (or_introl eq_refl)) as [b ->].
    destruct IH as [bs ->]; [intros a' Ha'; apply H; now right|].
    now exists (b :: bs).
Qed.

Lemma for_each_inv {A B} (body : A -> outcome B) (l : list A) (bs : list B) :
  for_each body l = Ok bs ->
  forall b, In b bs -> exists a, In a l /\ body a = Ok b.
Proof.
  revert bs. induction l as [|a l IH]; intros bs; simpl.
  - intros [= <-] b [].
  - destruct (body a) as [b0|] eqn:Ha; [|discriminate]. simpl.
    destruct (for_each body l) as [bs0|]; [|discriminate]. simpl.
    intros [= <-] b [<-|Hb].
    + exists a. auto.
    + destruct (IH bs0 eq_refl b Hb) as (a' & Ha' & Hb').
      exists a'. auto.
Qed.

Lemma for_each_length {A B} (body : A -> outcome B) (l : list A) (bs : list B) :
  for_each body l = Ok bs -> length bs = length l.
Proof.
  revert bs. induction l as [|a l IH]; intros bs; simpl.
  - now intros [= <-].
  - destruct (body a); [|discriminate]. simpl.
    destruct (for_each body l) as [bs0|]; [|discriminate]. simpl.
    intros [= <-]. simpl. now rewrite (IH bs0).
Qed.

Lemma num_nonneg (n : nat) : 0 <= num n.
Proof.
  unfold num. change 0 with (inject_Z 0). rewrite <- Zle_Qle. lia.
Qed.

Lemma pymin_Qmin (a b : Q) : pymin a b == Qmin a b.
Proof.
  unfold pymin. destruct (Qltb b a) eqn:E.
  - apply Qltb_lt in E. symmetry. apply Q.min_r. now apply Qlt_le_weak.
  - apply Qltb_ge in E. symmetry. now apply Q.min_l.
Qed.

Lemma pymax_Qmax (a b : Q) : pymax a b == Qmax a b.
Proof.
  unfold pymax. destruct (Qltb a b) eqn:E.
  - apply Qltb_lt in E. symmetry. apply Q.max_r. now apply Qlt_le_weak.
  - apply Qltb_ge in E. symmetry. now apply Q.max_l.
Qed.

(** The denominator of the coverage ratio is at least 1. *)
Lemma coverage_denominator (n o : nat) :
  1 <= pymax (pymax (num n) (num o)) 1.
Proof. apply pymax_lub. Qed.

Lemma compute_coverage_percent_ok (n o f : nat) :
  compute_coverage_percent n o f
  = Ok (pymin 100 (num f / pymax (pymax (num n) (num o)) 1 * 100)).
Proof.
  unfold compute_coverage_percent. fold (num n) (num o) (num f).
  rewrite pydiv_ok; [reflexivity|].
  intros E. pose proof (coverage_denominator n o) as H. lra.
Qed.

Lemma coverage_range (n o f : nat) :
  let c := pymin 100 (num f / pymax (pymax (num n) (num o)) 1 * 100) in
  0 <= c /\ c <= 100.
Proof.
  intros c. subst c.
  pose proof (coverage_denominator n o) as Hd.
  pose proof (num_nonneg f) as Hf.
  set (d := pymax (pymax (num n) (num o)) 1) in *.
  assert (Hr : 0 <= num f / d).
  { apply Qle_shift_div_l; lra. }
  split.
  - unfold pymin. destruct (Qltb _ _); lra.
  - apply pymin_glb.
Qed.

(** The page the loop builds at [page_idx]: its counts are the lengths of
    the word lists it read and of the list it kept. *)
Lemma reconcile_page_ok (native_data ocr_data : SourceData)
    (table_data : list Table) (page_idx : nat) :
  exists p,
    reconcile_page native_data ocr_data table_data page_idx = Ok p /\
    final_words (coverage p) = length (pr_words p) /\
    (native_words (coverage p) = 0%nat -> ocr_words (coverage p) = 0%nat ->
     final_words (coverage p) = 0%nat) /\
    coverage_percent (coverage p)
    = pymin 100 (num (final_words (coverage p))
                 / pymax (pymax (num (native_words (coverage p)))
                                (num (ocr_words (coverage p)))) 1
                 * 100).
Proof.
  unfold reconcile_page. rewrite compute_coverage_percent_ok. simpl.
  eexists. split; [reflexivity|]. simpl.
  split; [reflexivity|]. split; [|reflexivity].
  intros Hn Ho.
  destruct (nth_error (pages native_data) page_idx) as [np|],
           (nth_error (pages ocr_data) page_idx) as [op|]; simpl in *.
  - apply length_zero_iff_nil in Hn, Ho. now rewrite Hn, Ho.
  - apply length_zero_iff_nil in Hn. now rewrite Hn.
  - apply length_zero_iff_nil in Ho. now rewrite Ho.
  - reflexivity.
Qed.

Lemma len_pos {A} (l : list A) : l <> [] -> ~ len l == 0.
Proof.
  intros Hl E. destruct l; [congruence|].
  unfold len, Qeq in E. simpl Qnum in E. simpl Qden in E.
  simpl length in E. lia.
Qed.

(** Reconciliation never raises, and every page comes from the loop body. *)
Lemma reconcile_ok (native_data ocr_data : SourceData)
    (table_data : list Table) :
  exists doc,
    _reconcile_extraction_sources native_data ocr_data table_data = Ok doc /\
    extraction_methods doc = ["pdf_native"; "ocr_paddle"; "pdf_tables"] /\
    length (doc_pages doc)
    = Nat.max (length (pages native_data)) (length (pages ocr_data)) /\
    forall p, In p (doc_pages doc) ->
      exists page_idx,
        reconcile_page native_data ocr_data table_data page_idx = Ok p.
Proof.
  unfold _reconcile_extraction_sources.
  destruct (for_each_total
              (reconcile_page native_data ocr_data table_data)
              (seq 0 (Nat.max (length (pages native_data))
                              (length (pages ocr_data)))))
    as [ps Hps].
  { intros i _.
    destruct (reconcile_page_ok native_data ocr_data table_data i)
      as (p & Hp & _). now exists p. }
  rewrite Hps. simpl.
  assert (Hinv := for_each_inv _ _ _ Hps).
  assert (Hlen := for_each_length _ _ _ Hps). rewrite length_seq in Hlen.
  destruct ps as [|p0 ps].
  - simpl. eexists. split; [reflexivity|]. simpl. split; [reflexivity|].
    split; [exact Hlen|]. intros p [].
  - rewrite pydiv_ok by (apply len_pos; discriminate). simpl.
    eexists. split; [reflexivity|]. simpl. split; [reflexivity|].
    split; [exact Hlen|].
    intros p Hp. destruct (Hinv p Hp) as (i & _ & Hi). now exists i.
Qed.

(** C5: reconciliation returns a document, and on every page of it
    [coverage_percent] equals
    min(100, final_words / max(native_words, ocr_words, 1) * 100), lies in
    [0, 100], and is 0 when both sources gave no word on the page. *)
Theorem C5_coverage_percent (native_data ocr_data : SourceData)
    (table_data : list Table) :
  exists doc,
    _reconcile_extraction_sources native_data ocr_data table_data = Ok doc /\
    forall p, In p (doc_pages doc) ->
      let c := coverage p in
      coverage_percent c == coverage_formula c /\
      0 <= coverage_percent c /\ coverage_percent c <= 100 /\
      (native_words c = 0%nat -> ocr_words c = 0%nat ->
       coverage_percent c == 0).
Proof.
  destruct (reconcile_ok native_data ocr_data table_data)
    as (doc & Hdoc & _ & _ & Hpages).
  exists doc. split; [exact Hdoc|].
  intros p Hp c.
  destruct (Hpages p Hp) as (i & Hi).
  destruct (reconcile_page_ok native_data ocr_data table_data i)
    as (p' & Hp' & _ & Hzero & Hcov).
  rewrite Hi in Hp'. injection Hp' as <-. fold c in Hzero, Hcov.
  destruct (coverage_range (native_words c) (ocr_words c) (final_words c))
    as [Hlo Hhi].
  rewrite <- Hcov in Hlo, Hhi.
  split; [|split; [exact Hlo|split; [exact Hhi|]]].
  - rewrite Hcov. unfold coverage_formula.
    now rewrite pymin_Qmin, !pymax_Qmax.
  - intros Hn Ho. rewrite Hcov, (Hzero Hn Ho), Hn, Ho.
    vm_compute. reflexivity.
Qed.

Lemma C5_coverage_percent_witness :
  exists doc blank_page,
    _reconcile_extraction_sources
      SampleSources.native_two_pages SampleSources.ocr_two_pages [] = Ok doc /\
    nth_error (doc_pages doc) 1 = Some blank_page /\
    coverage_percent (coverage blank_page) == 0.
Proof.
  destruct (C5_coverage_percent
              SampleSources.native_two_pages SampleSources.ocr_two_pages [])
    as (doc & Hdoc & Hpages).
  assert (Hp : exists p,
             nth_error (doc_pages doc) 1 = Some p /\
             native_words (coverage p) = 0%nat /\
             ocr_words (coverage p) = 0%nat).
  { vm_compute in Hdoc. injection Hdoc as <-.
    eexists. split; [reflexivity|]. split; reflexivity. }
  destruct Hp as (p & Hnth & Hn & Ho).
  exists doc, p. split; [exact Hdoc|]. split; [exact Hnth|].
  apply (Hpages p); [exact (nth_error_In _ _ Hnth) | exact Hn | exact Ho].
Defined.

(** C7 (amended): the [extraction_methods] of a reconciled document is
    always the fixed list pdf_native, ocr_paddle, pdf_tables, whichever
    sources contributed records. *)
Theorem C7_extraction_methods_fixed (native_data ocr_data : SourceData)
    (table_data : list Table) :
  exists doc,
    _reconcile_extraction_sources native_data ocr_data table_data = Ok doc /\
    extraction_methods doc = ["pdf_native"; "ocr_paddle"; "pdf_tables"].
Proof.
  destruct (reconcile_ok native_data ocr_data table_data)
    as (doc & Hdoc & Hm & _).
  now exists doc.
Qed.

(** C7 as stated fails: when no source returns a page or a table, the
    document has no page and no record, yet it lists all three source
    types. *)
Lemma C7_no_contribution_counterexample :
  let native_data := SampleSources.nothing "pdf_native" in
  let ocr_data := SampleSources.nothing "pdf_ocr" in
  exists doc,
    _reconcile_extraction_sources native_data ocr_data [] = Ok doc /\
    doc_pages doc = [] /\
    contributing_sources native_data ocr_data [] = [] /\
    extraction_methods doc = ["pdf_native"; "ocr_paddle"; "pdf_tables"] /\
    extraction_methods doc <> contributing_sources native_data ocr_data [].
Proof.
  eexists. split; [vm_compute; reflexivity|].
  repeat split. discriminate.
Qed.

(** ** The module and the service instance *)

(** Importing the module succeeds; the instance has the three attributes
    that [__init__] assigns, and no attribute [layout_model]. *)
Lemma load_module_ok (rt : runtime) :
  exists m,
    load_module rt = Ok m /\
    globals m = module_globals rt /\
    ocr_service m !! "layout_model" = None /\
    ocr_service m !! "pytesseract_available"
    = Some (VBool (import_pytesseract rt)) /\
    (exists v, ocr_service m !! "paddle_ocr" = Some v) /\
    (exists v, ocr_service m !! "easy_ocr" = Some v).
Proof.
  unfold load_module, __init__, load_global.
  change (module_globals rt !! "PYTESSERACT_AVAILABLE")
    with (Some (VBool (import_pytesseract rt))).
  change (module_globals rt !! "PADDLE_AVAILABLE")
    with (Some (VBool (import_paddleocr rt))).
  change (module_globals rt !! "EASY_OCR_AVAILABLE")
    with (Some (VBool (import_easyocr rt))).
  simpl bind.
  destruct (import_paddleocr rt), (new_PaddleOCR rt),
           (import_easyocr rt), (new_easyocr_Reader rt); simpl;
    eexists; (split; [reflexivity|]); simpl;
    repeat split; eexists; reflexivity.
Qed.

(** ** Source-level failures *)

Lemma guarded_try_ok {S} (c : bool) (body : M S unit) (s : S) :
  exists s', (if c then try_log body else ret tt) s = (s', Ok tt).
Proof.
  destruct c; [|now exists s].
  unfold try_log. destruct (body s) as [s' r]. now exists s'.
Qed.

(** The OCR stage never raises on an instance that has its three
    attributes: an engine that fails is logged and skipped. *)
Lemma multi_engine_ocr_ok (rt : runtime) (self : gmap string Value)
    (image_np : Image) (a p e : Value) :
  self !! "pytesseract_available" = Some a ->
  self !! "paddle_ocr" = Some p ->
  self !! "easy_ocr" = Some e ->
  exists all_words, _multi_engine_ocr rt self image_np = Ok all_words.
Proof.
  intros Ha Hp He.
  unfold _multi_engine_ocr, multi_engine_body, bindM, lift, getattr,
    length_so_far.
  rewrite Ha, Hp, He.
  match goal with
  | |- context [(if truth a then try_log ?b else ret tt) ?s] =>
      destruct (guarded_try_ok (truth a) b s) as [s1 ->]
  end.
  match goal with
  | |- context [(if ?c then try_log ?b else ret tt) s1] =>
      destruct (guarded_try_ok c b s1) as [s2 ->]
  end.
  match goal with
  | |- context [(if ?c then try_log ?b else ret tt) s2] =>
      destruct (guarded_try_ok c b s2) as [s3 ->]
  end.
  simpl. now exists s3.
Qed.

(** The table detector never raises; when pdfplumber cannot open the file
    its contribution is empty. *)
Lemma extract_pdf_tables_ok (rt : runtime) (pdf_bytes : bytes) :
  exists table_data,
    _extract_pdf_tables rt (module_globals rt) pdf_bytes = Ok table_data /\
    (forall e, pdfplumber_open rt pdf_bytes = Raise e -> table_data = []).
Proof.
  unfold _extract_pdf_tables, load_global.
  change (module_globals rt !! "PDFPLUMBER_AVAILABLE")
    with (Some (VBool (import_pdfplumber rt))).
  simpl. destruct (import_pdfplumber rt); simpl.
  - eexists. split; [reflexivity|].
    intros e He. unfold try_log, bindM, lift. now rewrite He.
  - now exists [].
Qed.

Lemma in_enumerate {A} (l : list A) (i : nat) (a : A) :
  In (i, a) (enumerate l) -> In a l.
Proof. unfold enumerate. apply in_combine_r. Qed.

(** The OCR path returns its pages when the document opens and every page
    can be rendered, whatever the engines do. *)
Lemma extract_pdf_via_ocr_ok (rt : runtime) (self : gmap string Value)
    (pdf_bytes : bytes) (doc : list FitzPage) (a p e : Value) :
  self !! "pytesseract_available" = Some a ->
  self !! "paddle_ocr" = Some p ->
  self !! "easy_ocr" = Some e ->
  fitz_open rt pdf_bytes = Ok doc ->
  (forall page, In page doc ->
     exists pix image_np,
       get_pixmap page = Ok pix /\ Image_open rt (png pix) = Ok image_np) ->
  exists ocr_data, _extract_pdf_via_ocr rt self pdf_bytes = Ok ocr_data.
Proof.
  intros Ha Hp He Hdoc Hrender.
  unfold _extract_pdf_via_ocr. rewrite Hdoc. simpl.
  match goal with
  | |- context [for_each ?body (enumerate doc)] =>
      destruct (for_each_total body (enumerate doc)) as [ps ->]
  end.
  - intros [i page] Hin. apply in_enumerate in Hin.
    destruct (Hrender page Hin) as (pix & image_np & -> & Himg). simpl.
    rewrite Himg. simpl.
    destruct (multi_engine_ocr_ok rt self image_np a p e Ha Hp He)
      as [ws ->].
    simpl. eexists. reflexivity.
  - simpl. eexists. reflexivity.
Qed.


(** ** The image path and the endpoints *)

(** C2: on the service instance that the module creates, for every image
    input, [extract_image_with_layout] returns no intermediate
    representation: it raises an HTTPException with status 500.  When the
    image decodes, the cause is the read of [self.layout_model] in
    [_analyze_layout], an attribute that [__init__] never assigns. *)
Theorem C2_image_extraction_always_500 (rt : runtime) (image_bytes : bytes) :
  exists m,
    load_module rt = Ok m /\
    (forall image_np,
       _analyze_layout rt (ocr_service m) image_np
       = Raise (AttributeError "layout_model")) /\
    extract_image_with_layout rt m image_bytes
    = Raise (HTTPException 500
               ("Image extraction failed: " ++
                match Image_open rt image_bytes with
                | Ok _ => exn_str rt (AttributeError "layout_model")
                | Raise e => exn_str rt e
                end)).
Proof.
  destruct (load_module_ok rt) as (m & Hm & _ & Hlayout & _).
  exists m. split; [exact Hm|].
  assert (Ha : forall image_np,
             _analyze_layout rt (ocr_service m) image_np
             = Raise (AttributeError "layout_model")).
  { intros image_np. unfold _analyze_layout, getattr. now rewrite Hlayout. }
  split; [exact Ha|].
  unfold extract_image_with_layout.
  destruct (Image_open rt image_bytes) as [image_np|e]; simpl.
  - now rewrite Ha.
  - reflexivity.
Qed.

(** C6, on the code: an upload that is neither a PDF nor an image is
    answered with status 500, not 400: the HTTPException with status 400
    is raised inside the [try] and caught by its [except Exception], which
    raises the one with status 500 and [str(e)] as detail. *)
Theorem C6_unsupported_type_answers_500 (rt : runtime) (m : Module)
    (file : UploadFile) (file_content : bytes) :
  read file = Ok file_content ->
  is_pdf (or_empty (content_type file)) (or_empty (filename file)) = false ->
  is_image (or_empty (content_type file)) (or_empty (filename file)) = false ->
  extract_document rt m file
  = Raise (HTTPException 500
             (exn_str rt (HTTPException 400 "Unsupported file type"))) /\
  extract_document rt m file
  <> Raise (HTTPException 400 "Unsupported file type").
Proof.
  intros Hread Hpdf Himage.
  unfold extract_document. rewrite Hread. simpl.
  rewrite Hpdf, Himage. simpl. split; [reflexivity|discriminate].
Qed.

Lemma C6_unsupported_type_answers_500_witness :
  let rt := SampleRuntime.healthy [SampleRuntime.readable_page] in
  let m := SampleRuntime.imported rt in
  extract_document rt m SampleRuntime.text_upload
  = Raise (HTTPException 500 "400: Unsupported file type") /\
  extract_document rt m SampleRuntime.text_upload
  <> Raise (HTTPException 400 "Unsupported file type").
Proof.
  intros rt m.
  apply (C6_unsupported_type_answers_500 rt m SampleRuntime.text_upload []);
    reflexivity.
Defined.

(** C10, on the code: every call of [health_check] raises NameError: the
    entry for the layout parser reads the global
    [LAYOUT_PARSER_AVAILABLE], which the module never binds, so no JSON
    object is returned. *)
Theorem C10_health_check_raises (rt : runtime) :
  exists m,
    load_module rt = Ok m /\
    health_check m = Raise (NameError "LAYOUT_PARSER_AVAILABLE").
Proof.
  destruct (load_module_ok rt)
    as (m & Hm & Hg & _ & _ & [p Hp] & [e He]).
  exists m. split; [exact Hm|].
  unfold health_check, flag_and_attr, load_global, getattr.
  rewrite Hg, Hp, He.
  change (module_globals rt !! "PADDLE_AVAILABLE")
    with (Some (VBool (import_paddleocr rt))).
  change (module_globals rt !! "EASY_OCR_AVAILABLE")
    with (Some (VBool (import_easyocr rt))).
  change (module_globals rt !! "LAYOUT_PARSER_AVAILABLE")
    with (@None Value).
  destruct (import_paddleocr rt), (import_easyocr rt); reflexivity.
Qed.

(** ** Coordinate normalisation *)

Lemma normalize_corners_ok (b0 b1 b2 b3 page_w page_h : Q) :
  ~ page_w == 0 -> ~ page_h == 0 ->
  normalize_corners (b0, b1, b2, b3) page_w page_h
  = Ok {| x := b0 / page_w; y := b1 / page_h;
          width := (b2 - b0) / page_w; height := (b3 - b1) / page_h |}.
Proof.
  intros Hw Hh. unfold normalize_corners.
  now rewrite !(pydiv_ok _ page_w Hw), !(pydiv_ok _ page_h Hh).
Qed.

Lemma normalize_corners_zero (b0 b1 b2 b3 page_w page_h : Q) :
  page_w == 0 \/ page_h == 0 ->
  normalize_corners (b0, b1, b2, b3) page_w page_h = Raise ZeroDivisionError.
Proof.
  intros H. unfold normalize_corners, pydiv.
  destruct (Qeq_bool page_w 0) eqn:Ew; [reflexivity|].
  destruct H as [H|H].
  - apply Qeq_bool_iff in H. congruence.
  - apply Qeq_bool_iff in H. simpl. now rewrite H.
Qed.

Lemma normalize_rect_ok (rx ry rw rh page_w page_h : Q) :
  ~ page_w == 0 -> ~ page_h == 0 ->
  normalize_rect (rx, ry, rw, rh) page_w page_h
  = Ok {| x := rx / page_w; y := ry / page_h;
          width := rw / page_w; height := rh / page_h |}.
Proof.
  intros Hw Hh. unfold normalize_rect.
  now rewrite !(pydiv_ok _ page_w Hw), !(pydiv_ok _ page_h Hh).
Qed.

Lemma normalize_rect_zero (rx ry rw rh page_w page_h : Q) :
  page_w == 0 \/ page_h == 0 ->
  normalize_rect (rx, ry, rw, rh) page_w page_h = Raise ZeroDivisionError.
Proof.
  intros H. unfold normalize_rect, pydiv.
  destruct (Qeq_bool page_w 0) eqn:Ew; [reflexivity|].
  destruct H as [H|H].
  - apply Qeq_bool_iff in H. congruence.
  - apply Qeq_bool_iff in H. simpl. now rewrite H.
Qed.

(** A quotient [a / d] with [0 <= a <= d] lies in the unit interval. *)
Lemma unit_quotient (a d : Q) : 0 < d -> 0 <= a -> a <= d ->
  0 <= a / d /\ a / d <= 1.
Proof.
  intros Hd Ha Had. split.
  - apply Qle_shift_div_l; lra.
  - apply Qle_shift_div_r; lra.
Qed.

(** C9 (amended): coordinate normalisation divides the four fields by the
    page dimensions and does not clamp them: with non-zero dimensions the
    box is exactly (x0 / W, y0 / H, (x1 - x0) / W, (y1 - y0) / H) for
    corners and (x / W, y / H, w / W, h / H) for a pixel rectangle; its
    fields lie in [0, 1] when the absolute box lies inside the page; a zero
    page dimension raises the ZeroDivisionError of the division (the code
    has no dedicated error for it). *)
Theorem C9_normalization_unclamped (b0 b1 b2 b3 page_w page_h : Q) :
  (page_w == 0 \/ page_h == 0 ->
   normalize_corners (b0, b1, b2, b3) page_w page_h = Raise ZeroDivisionError /\
   normalize_rect (b0, b1, b2, b3) page_w page_h = Raise ZeroDivisionError) /\
  (~ page_w == 0 -> ~ page_h == 0 ->
   normalize_corners (b0, b1, b2, b3) page_w page_h
   = Ok {| x := b0 / page_w; y := b1 / page_h;
           width := (b2 - b0) / page_w; height := (b3 - b1) / page_h |} /\
   normalize_rect (b0, b1, b2, b3) page_w page_h
   = Ok {| x := b0 / page_w; y := b1 / page_h;
           width := b2 / page_w; height := b3 / page_h |}) /\
  (0 <= b0 -> b0 <= b2 -> b2 <= page_w ->
   0 <= b1 -> b1 <= b3 -> b3 <= page_h ->
   0 < page_w -> 0 < page_h ->
   exists b,
     normalize_corners (b0, b1, b2, b3) page_w page_h = Ok b /\
     (0 <= x b /\ x b <= 1) /\ (0 <= y b /\ y b <= 1) /\
     (0 <= width b /\ width b <= 1) /\ (0 <= height b /\ height b <= 1)) /\
  (0 <= b0 -> 0 <= b2 -> b0 + b2 <= page_w ->
   0 <= b1 -> 0 <= b3 -> b1 + b3 <= page_h ->
   0 < page_w -> 0 < page_h ->
   exists b,
     normalize_rect (b0, b1, b2, b3) page_w page_h = Ok b /\
     (0 <= x b /\ x b <= 1) /\ (0 <= y b /\ y b <= 1) /\
     (0 <= width b /\ width b <= 1) /\ (0 <= height b /\ height b <= 1)).
Proof.
  split; [|split; [|split]].
  - intros H. split.
    + now apply normalize_corners_zero.
    + now apply normalize_rect_zero.
  - intros Hw Hh. split.
    + now apply normalize_corners_ok.
    + now apply normalize_rect_ok.
  - intros H0 H02 H2 H1 H13 H3 Hw Hh.
    eexists. split.
    + apply normalize_corners_ok; lra.
    + simpl. repeat split; apply unit_quotient; lra.
  - intros H0 H02 H2 H1 H13 H3 Hw Hh.
    eexists. split.
    + apply normalize_rect_ok; lra.
    + simpl. repeat split; apply unit_quotient; lra.
Qed.

Lemma C9_normalization_unclamped_witness :
  exists b,
    normalize_corners (60, 80, 120, 96) 600 800 = Ok b /\
    (0 <= x b /\ x b <= 1) /\ (0 <= y b /\ y b <= 1) /\
    (0 <= width b /\ width b <= 1) /\ (0 <= height b /\ height b <= 1).
Proof.
  destruct (C9_normalization_unclamped 60 80 120 96 600 800)
    as (_ & _ & H & _).
  apply H; lra.
Defined.

(** C9 as stated fails: a span that reaches beyond the page gets an [x]
    above 1, and a page of width 0 makes the native extractor raise
    ZeroDivisionError, which has no handler of its own. *)
Lemma C9_unclamped_counterexample :
  (exists w,
     native_word 600 800 SampleRuntime.overflowing_span = Ok w /\
     x (bbox w) == 7 # 6 /\ ~ x (bbox w) <= 1) /\
  native_word 0 800 SampleRuntime.total_span = Raise ZeroDivisionError /\
  tesseract_row (mkImage 0 0 0) SampleRuntime.total_row []
  = ([], Raise ZeroDivisionError).
Proof.
  split; [|split; reflexivity].
  eexists. split; [reflexivity|].
  split; [reflexivity|].
  intros H. vm_compute in H. now apply H.
Qed.

(** * Further properties of the code *)

(** ** Geometry of the match test *)

Lemma pymax_comm (a b : Q) : pymax a b == pymax b a.
Proof. rewrite !pymax_Qmax. apply Q.max_comm. Qed.

Lemma pymin_comm (a b : Q) : pymin a b == pymin b a.
Proof. rewrite !pymin_Qmin. apply Q.min_comm. Qed.

Lemma overlaps_sym (a b : BoundingBox) : overlaps a b = overlaps b a.
Proof.
  unfold overlaps, inter_x1, inter_x2, inter_y1, inter_y2.
  now rewrite (pymax_comm (x a)), (pymax_comm (y a)),
    (pymin_comm (x a + width a)), (pymin_comm (y a + height a)).
Qed.

Lemma intersection_area_sym (a b : BoundingBox) :
  intersection_area a b == intersection_area b a.
Proof.
  unfold intersection_area, inter_x1, inter_x2, inter_y1, inter_y2.
  now rewrite (pymax_comm (x a)), (pymax_comm (y a)),
    (pymin_comm (x a + width a)), (pymin_comm (y a + height a)).
Qed.

Lemma iou_sym (a b : BoundingBox) : iou a b == iou b a.
Proof.
  unfold iou, union_area.
  rewrite (intersection_area_sym a b). 
  apply Qdiv_comp; [reflexivity|]. ring.
Qed.

(** X1: the match test of the deduplicator does not depend on which of
    the two words is the incoming one: the overlap test, the IoU and the
    whole condition are symmetric. *)
Theorem X1_match_symmetric (word existing : Word) :
  overlaps (bbox word) (bbox existing) = overlaps (bbox existing) (bbox word) /\
  iou (bbox word) (bbox existing) == iou (bbox existing) (bbox word) /\
  is_match word existing = is_match existing word.
Proof.
  split; [apply overlaps_sym|]. split; [apply iou_sym|].
  unfold is_match.
  now rewrite (overlaps_sym (bbox word)), (iou_sym (bbox word)),
    (text_similarity_sym (text word)).
Qed.

Lemma separated_no_overlap (a b : BoundingBox) :
  separated a b -> overlaps a b = false.
Proof.
  intros H. unfold overlaps, inter_x1, inter_x2, inter_y1, inter_y2.
  destruct (pymax_lub (x a) (x b)) as [Hx1 Hx1'].
  destruct (pymax_lub (y a) (y b)) as [Hy1 Hy1'].
  destruct (pymin_glb (x a + width a) (x b + width b)) as [Hx2 Hx2'].
  destruct (pymin_glb (y a + height a) (y b + height b)) as [Hy2 Hy2'].
  apply andb_false_iff.
  destruct H as [H|[H|[H|H]]];
    [left|left|right|right]; apply Qltb_ge; lra.
Qed.

Lemma settled_from_separated (seen rest : list Word) :
  (forall e p, In e rest -> In p seen -> separated (bbox e) (bbox p)) ->
  ForallOrdPairs (fun p e => separated (bbox e) (bbox p)) rest ->
  settled_from seen rest = true.
Proof.
  revert seen. induction rest as [|e rest IH]; intros seen Hseen Hrest;
    [reflexivity|].
  simpl. apply andb_true_iff. split.
  - apply forallb_forall. intros p Hp. apply negb_true_iff.
    unfold is_match.
    now rewrite (separated_no_overlap _ _ (Hseen e p (or_introl eq_refl) Hp)).
  - inversion Hrest as [|? ? He Hrest']; subst.
    apply IH; [|exact Hrest'].
    intros e' p He' Hp. apply in_app_or in Hp as [Hp|[<-|[]]].
    + apply Hseen; [now right|exact Hp].
    + rewrite List.Forall_forall in He. now apply He.
Qed.

(** X4: words whose boxes do not overlap are never merged, whatever their
    texts: on a list of words whose boxes are pairwise side by side or one
    above the other the deduplicator returns the list unchanged. *)
Theorem X4_separated_words_kept (words : list Word) :
  ForallOrdPairs (fun p e => separated (bbox e) (bbox p)) words ->
  _deduplicate_words words = words.
Proof.
  intros H. unfold _deduplicate_words.
  rewrite (fold_dedup_settled [] words); [reflexivity|].
  apply settled_from_separated; [intros e p _ []|exact H].
Qed.

Lemma X4_separated_words_kept_witness :
  _deduplicate_words [SampleLayout.heading; SampleLayout.footer]
  = [SampleLayout.heading; SampleLayout.footer].
Proof.
  apply (X4_separated_words_kept [SampleLayout.heading; SampleLayout.footer]).
  constructor.
  - constructor; [|constructor].
    unfold separated. simpl. right. right. right. lra.
  - constructor; constructor.
Defined.

(** ** Text similarity *)

Lemma lower_char_idem (c : ascii) :
  Str.lower_char (Str.lower_char c) = Str.lower_char c.
Proof.
  destruct c as [[] [] [] [] [] [] [] []]; reflexivity.
Qed.

Lemma lower_idem (s : string) : Str.lower (Str.lower s) = Str.lower s.
Proof.
  induction s as [|c s IH]; [reflexivity|].
  simpl. now rewrite lower_char_idem, IH.
Qed.

Lemma truthy_lower (s : string) : Str.truthy (Str.lower s) = Str.truthy s.
Proof. now destruct s. Qed.

(** [_text_similarity] in terms of the token sets. *)
Lemma text_similarity_tokens (t1 t2 : string) :
  Str.truthy t1 = true -> Str.truthy t2 = true ->
  _text_similarity t1 t2
  = if bool_decide (tokens t1 = ∅) && bool_decide (tokens t2 = ∅) then 1
    else if (0 <? size (tokens t1 ∪ tokens t2))%nat
         then num (size (tokens t1 ∩ tokens t2))
              / num (size (tokens t1 ∪ tokens t2))
         else 0.
Proof.
  intros H1 H2. unfold _text_similarity. now rewrite H1, H2.
Qed.

Lemma num_le (n m : nat) : (n <= m)%nat -> num n <= num m.
Proof. intros H. unfold num. rewrite <- Zle_Qle. lia. Qed.

Lemma num_pos (n : nat) : (0 < n)%nat -> 0 < num n.
Proof.
  intros H. unfold num. change 0 with (inject_Z 0). rewrite <- Zlt_Qlt. lia.
Qed.

(** X5: the similarity of two texts always lies in [0, 1]. *)
Theorem X5_text_similarity_range (text1 text2 : string) :
  0 <= _text_similarity text1 text2 /\ _text_similarity text1 text2 <= 1.
Proof.
  destruct (Str.truthy text1) eqn:H1.
  2:{ unfold _text_similarity. rewrite H1. simpl. lra. }
  destruct (Str.truthy text2) eqn:H2.
  2:{ unfold _text_similarity. rewrite H1, H2. simpl. lra. }
  rewrite (text_similarity_tokens _ _ H1 H2).
  destruct (_ && _); [lra|].
  destruct (0 <? _)%nat eqn:Hu; [|lra].
  apply Nat.ltb_lt in Hu.
  pose proof (num_pos _ Hu) as Hpos.
  pose proof (num_nonneg (size (tokens text1 ∩ tokens text2))) as Hi.
  assert (Hle : (size (tokens text1 ∩ tokens text2)
                 <= size (tokens text1 ∪ tokens text2))%nat).
  { apply subseteq_size. set_solver. }
  apply num_le in Hle.
  split.
  - apply Qle_shift_div_l; lra.
  - apply Qle_shift_div_r; lra.
Qed.

Lemma same_set_meet_join (A B : gset string) :
  A ∩ B = A ∪ B -> A = B.
Proof. set_solver. Qed.

Lemma jaccard_one (A B : gset string) :
  (0 < size (A ∪ B))%nat ->
  num (size (A ∩ B)) / num (size (A ∪ B)) == 1 ->
  A = B.
Proof.
  intros Hu H. apply same_set_meet_join.
  apply set_subseteq_size_eq; [set_solver|].
  pose proof (num_pos _ Hu) as Hpos.
  assert (Heq : num (size (A ∩ B)) == num (size (A ∪ B))).
  { rewrite <- (Qmult_1_l (num (size (A ∪ B)))), <- H. field. lra. }
  unfold num, Qeq in Heq. simpl in Heq. lia.
Qed.

(** X6: for two non-empty texts the similarity is 1 exactly when their
    sets of lower-cased tokens are equal; in particular texts that differ
    only in letter case, in the amount of whitespace or in the order and
    repetition of words count as identical. *)
Theorem X6_text_similarity_one (text1 text2 : string) :
  Str.truthy text1 = true -> Str.truthy text2 = true ->
  (_text_similarity text1 text2 == 1 <-> tokens text1 = tokens text2).
Proof.
  intros H1 H2. rewrite (text_similarity_tokens _ _ H1 H2).
  split.
  - destruct (bool_decide (tokens text1 = ∅)) eqn:E1,
             (bool_decide (tokens text2 = ∅)) eqn:E2; simpl.
    1:{ intros _. apply bool_decide_eq_true in E1, E2. congruence. }
    all: destruct (0 <? _)%nat eqn:Hu;
      [apply Nat.ltb_lt in Hu; now apply jaccard_one
      |intros Hz; exfalso; revert Hz; discriminate].
  - intros Heq. rewrite Heq.
    destruct (bool_decide (tokens text2 = ∅)) eqn:E; simpl; [reflexivity|].
    apply bool_decide_eq_false in E.
    assert (Hi : tokens text2 ∩ tokens text2 = tokens text2) by set_solver.
    assert (Hu : tokens text2 ∪ tokens text2 = tokens text2) by set_solver.
    rewrite Hi, Hu.
    assert (Hs : (0 < size (tokens text2))%nat).
    { destruct (size (tokens text2)) eqn:Hz; [|lia].
      exfalso. apply E. apply leibniz_equiv. now apply size_empty_iff. }
    destruct (0 <? _)%nat eqn:Hb; [|apply Nat.ltb_ge in Hb; lia].
    pose proof (num_pos _ Hs). field. lra.
Qed.

Lemma X6_text_similarity_one_witness :
  _text_similarity "Total  DUE total" "due Total" == 1.
Proof.
  apply (X6_text_similarity_one "Total  DUE total" "due Total");
    vm_compute; reflexivity.
Defined.

(** ** What the deduplicator keeps *)

Lemma list_remove_incl (e u : Word) (l : list Word) :
  In u (list_remove e l) -> In u l.
Proof.
  induction l as [|a l IH]; simpl; [tauto|].
  destruct (word_eqb a e); simpl; tauto.
Qed.

(** The three ways in which the inner loop ends. *)
Lemma scan_cases (word : Word) (unique_words rest : list Word) :
  scan word unique_words rest = (unique_words, false) \/
  (scan word unique_words rest = (unique_words, true) /\ rest <> []) \/
  exists e, In e rest /\
            scan word unique_words rest = (list_remove e unique_words, false).
Proof.
  induction rest as [|e rest IH]; simpl; [now left|].
  assert (Hrest :
    scan word unique_words rest = (unique_words, false) \/
    (scan word unique_words rest = (unique_words, true) /\ e :: rest <> []) \/
    exists e0, (e = e0 \/ In e0 rest) /\
      scan word unique_words rest = (list_remove e0 unique_words, false)).
  { destruct IH as [H|[[H _]|(e0 & He0 & H)]]; [now left| |].
    - right. left. split; [exact H|discriminate].
    - right. right. exists e0. auto. }
  destruct (overlaps (bbox word) (bbox e)); [|exact Hrest].
  destruct (_ && _); [|exact Hrest].
  destruct (Qltb (confidence e) (confidence word)).
  - right. right. exists e. auto.
  - right. left. split; [reflexivity|discriminate].
Qed.

Lemma dedup_step_incl (unique_words : list Word) (word u : Word) :
  In u (dedup_step unique_words word) -> In u unique_words \/ u = word.
Proof.
  unfold dedup_step.
  destruct (scan_cases word unique_words unique_words)
    as [H|[[H _]|(e & _ & H)]]; rewrite H.
  - intros Hin. apply in_app_or in Hin as [Hin|[<-|[]]]; auto.
  - auto.
  - intros Hin. apply in_app_or in Hin as [Hin|[<-|[]]]; auto.
    left. now apply list_remove_incl in Hin.
Qed.

Lemma dedup_step_nonempty (unique_words : list Word) (word : Word) :
  dedup_step unique_words word <> [].
Proof.
  unfold dedup_step.
  destruct (scan_cases word unique_words unique_words)
    as [H|[[H Hne]|(e & _ & H)]]; rewrite H.
  - now destruct unique_words.
  - exact Hne.
  - now destruct (list_remove e unique_words).
Qed.

Lemma fold_dedup_incl (seen rest : list Word) (u : Word) :
  In u (fold_left dedup_step rest seen) -> In u seen \/ In u rest.
Proof.
  revert seen. induction rest as [|e rest IH]; intros seen; simpl; [auto|].
  intros H. destruct (IH _ H) as [H'|H']; [|auto].
  destruct (dedup_step_incl _ _ _ H'); auto.
Qed.

Lemma fold_dedup_nonempty (seen rest : list Word) :
  seen <> [] -> fold_left dedup_step rest seen <> [].
Proof.
  revert seen. induction rest as [|e rest IH]; intros seen H; simpl;
    [exact H|].
  apply IH, dedup_step_nonempty.
Qed.

(** X8: the deduplicator only selects: every word of its output is a word
    of its input, the output is no longer than the input, and it is empty
    only when the input is. *)
Theorem X8_dedup_selects (words : list Word) :
  (forall u, In u (_deduplicate_words words) -> In u words) /\
  (length (_deduplicate_words words) <= length words)%nat /\
  (words <> [] -> _deduplicate_words words <> []).
Proof.
  unfold _deduplicate_words. split; [|split].
  - intros u H. now destruct (fold_dedup_incl [] words u H).
  - exact (fold_dedup_length [] words).
  - destruct words as [|w words]; [congruence|]. intros _. simpl.
    apply fold_dedup_nonempty, dedup_step_nonempty.
Qed.

(** Every word of [seen_words] has a word of [kept] with at least its
    confidence. *)
Lemma dedup_step_dominates (kept seen_words : list Word) (word : Word) :
  (forall w, In w seen_words ->
     exists u, In u kept /\ confidence w <= confidence u) ->
  forall w, In w (seen_words ++ [word]) ->
    exists u, In u (dedup_step kept word) /\ confidence w <= confidence u.
Proof.
  intros Hdom.
  destruct (unmatched word kept) eqn:Hu.
  - rewrite (dedup_step_unmatched _ _ Hu).
    intros w Hw. apply in_app_or in Hw as [Hw|[<-|[]]].
    + destruct (Hdom w Hw) as (u & Hin & Hle).
      exists u. split; [apply in_or_app; now left|exact Hle].
    + exists word. split; [apply in_or_app; right; now left|apply Qle_refl].
  - destruct (first_match_exists _ _ Hu) as (pre & e & post & -> & Hpre & He).
    rewrite (dedup_step_first_match word e pre post Hpre He).
    destruct (Qltb (confidence e) (confidence word)) eqn:Hc.
    + apply Qltb_lt in Hc.
      intros w Hw. apply in_app_or in Hw as [Hw|[<-|[]]].
      * destruct (Hdom w Hw) as (u & Hin & Hle).
        apply in_app_or in Hin as [Hin|[<-|Hin]].
        -- exists u. split; [apply in_or_app; now left|exact Hle].
        -- exists word. split; [|lra].
           apply in_or_app. right. apply in_or_app. right. now left.
        -- exists u. split; [|exact Hle].
           apply in_or_app. right. apply in_or_app. now left.
      * exists word. split; [|apply Qle_refl].
        apply in_or_app. right. apply in_or_app. right. now left.
    + apply Qltb_ge in Hc.
      intros w Hw. apply in_app_or in Hw as [Hw|[<-|[]]].
      * exact (Hdom w Hw).
      * exists e. split; [apply in_elt|exact Hc].
Qed.

Lemma fold_dedup_dominates (kept seen_words rest : list Word) :
  (forall w, In w seen_words ->
     exists u, In u kept /\ confidence w <= confidence u) ->
  forall w, In w (seen_words ++ rest) ->
    exists u, In u (fold_left dedup_step rest kept) /\
              confidence w <= confidence u.
Proof.
  revert kept seen_words.
  induction rest as [|e rest IH]; intros kept seen_words Hdom; simpl.
  - rewrite app_nil_r. exact Hdom.
  - intros w Hw.
    apply (IH (dedup_step kept e) (seen_words ++ [e])).
    + now apply dedup_step_dominates.
    + now rewrite <- app_assoc.
Qed.

(** X9: merging never loses confidence: for every word of the input the
    output holds a word whose confidence is at least as high; so the best
    confidence of a page survives deduplication. *)
Theorem X9_dedup_keeps_confidence (words : list Word) (w : Word) :
  In w words ->
  exists u, In u (_deduplicate_words words) /\ confidence w <= confidence u.
Proof.
  intros H. unfold _deduplicate_words.
  apply (fold_dedup_dominates [] [] words); [intros ? []|exact H].
Qed.

Lemma X9_dedup_keeps_confidence_witness :
  exists u,
    In u (_deduplicate_words
            [Sample.word_left; Sample.word_right; Sample.word_middle]) /\
    confidence Sample.word_left <= confidence u.
Proof.
  apply (X9_dedup_keeps_confidence
           [Sample.word_left; Sample.word_right; Sample.word_middle]).
  left. reflexivity.
Defined.

Lemma X8_dedup_selects_witness :
  _deduplicate_words [Sample.word_left; Sample.word_middle] <> [].
Proof.
  destruct (X8_dedup_selects [Sample.word_left; Sample.word_middle])
    as (_ & _ & H).
  apply H. discriminate.
Defined.

(** ** The reconciled document *)

Lemma for_each_nth {A B} (body : A -> outcome B) (l : list A) (bs : list B) :
  for_each body l = Ok bs ->
  forall i b, nth_error bs i = Some b ->
    exists a, nth_error l i = Some a /\ body a = Ok b.
Proof.
  revert bs. induction l as [|a l IH]; intros bs; simpl.
  - intros [= <-] [|i] b; discriminate.
  - destruct (body a) as [b0|] eqn:Ha; [|discriminate]. simpl.
    destruct (for_each body l) as [bs0|]; [|discriminate]. simpl.
    intros [= <-] [|i] b; simpl.
    + intros [= <-]. now exists a.
    + intros Hb. exact (IH bs0 eq_refl i b Hb).
Qed.

(** The page that the loop builds at [page_idx], field by field. *)
Lemma reconcile_page_eq (native_data ocr_data : SourceData)
    (table_data : list Table) (page_idx : nat) :
  let native_page := nth_error (pages native_data) page_idx in
  let ocr_page := nth_error (pages ocr_data) page_idx in
  let native_list :=
    match native_page with Some p => words p | None => [] end in
  let ocr_list := match ocr_page with Some p => words p | None => [] end in
  let first_page :=
    match native_page with Some p => Some p | None => ocr_page end in
  exists cp,
    reconcile_page native_data ocr_data table_data page_idx
    = Ok {| pr_page_number := page_idx + 1;
            pr_width :=
              match first_page with Some p => page_width p | None => 1000 end;
            pr_height :=
              match first_page with Some p => page_height p | None => 1000 end;
            pr_words := _deduplicate_words (native_list ++ ocr_list);
            pr_tables :=
              filter (fun t => Nat.eqb (table_page_number t) (page_idx + 1))
                     table_data;
            pr_layout_elements := [];
            pr_shapes :=
              match native_page with Some p => page_shapes p | None => [] end ++
              match ocr_page with Some p => page_shapes p | None => [] end;
            coverage :=
              {| native_words := length native_list;
                 ocr_words := length ocr_list;
                 final_words :=
                   length (_deduplicate_words (native_list ++ ocr_list));
                 coverage_percent := cp |} |} /\
    cp = pymin 100
           (num (length (_deduplicate_words (native_list ++ ocr_list)))
            / pymax (pymax (num (length native_list))
                           (num (length ocr_list))) 1
            * 100).
Proof.
  intros native_page ocr_page native_list ocr_list first_page.
  unfold reconcile_page. rewrite compute_coverage_percent_ok. simpl.
  fold native_page ocr_page.
  eexists. split; [|reflexivity].
  subst native_list ocr_list first_page.
  destruct native_page, ocr_page; reflexivity.
Qed.

(** The pages of a reconciled document, by index. *)
Lemma reconcile_nth (native_data ocr_data : SourceData)
    (table_data : list Table) :
  exists doc,
    _reconcile_extraction_sources native_data ocr_data table_data = Ok doc /\
    doc_total_pages doc = length (doc_pages doc) /\
    length (doc_pages doc)
    = Nat.max (length (pages native_data)) (length (pages ocr_data)) /\
    (forall i p, nth_error (doc_pages doc) i = Some p ->
       (i < Nat.max (length (pages native_data))
                    (length (pages ocr_data)))%nat /\
       reconcile_page native_data ocr_data table_data i = Ok p) /\
    overall_coverage doc
    = match doc_pages doc with
      | [] => 0
      | _ => sum_coverage (doc_pages doc) / len (doc_pages doc)
      end.
Proof.
  unfold _reconcile_extraction_sources.
  destruct (for_each_total
              (reconcile_page native_data ocr_data table_data)
              (seq 0 (Nat.max (length (pages native_data))
                              (length (pages ocr_data)))))
    as [ps Hps].
  { intros i _.
    destruct (reconcile_page_ok native_data ocr_data table_data i)
      as (p & Hp & _). now exists p. }
  rewrite Hps. simpl.
  assert (Hlen := for_each_length _ _ _ Hps). rewrite length_seq in Hlen.
  assert (Hnth : forall i p, nth_error ps i = Some p ->
            (i < Nat.max (length (pages native_data))
                         (length (pages ocr_data)))%nat /\
            reconcile_page native_data ocr_data table_data i = Ok p).
  { intros i p Hnth.
    destruct (for_each_nth _ _ _ Hps i p Hnth) as (a & Ha & Hbody).
    assert (Hi : (i < length ps)%nat) by (apply nth_error_Some; congruence).
    rewrite Hlen in Hi. split; [exact Hi|].
    rewrite nth_error_seq in Ha.
    destruct (Nat.ltb_spec i
                (Nat.max (length (pages native_data))
                         (length (pages ocr_data)))) as [_|Hge]; [|lia].
    injection Ha as <-. exact Hbody. }
  destruct ps as [|p0 ps].
  - simpl. eexists. split; [reflexivity|]. simpl. auto.
  - rewrite pydiv_ok by (apply len_pos; discriminate). simpl.
    eexists. split; [reflexivity|]. simpl. auto.
Qed.

(** X10: reconciliation yields one page per page index of the longer
    source, numbered 1, 2, ... in order, and [total_pages] is their
    number. *)
Theorem X10_reconciled_pages_numbered (native_data ocr_data : SourceData)
    (table_data : list Table) :
  exists doc,
    _reconcile_extraction_sources native_data ocr_data table_data = Ok doc /\
    doc_total_pages doc
    = Nat.max (length (pages native_data)) (length (pages ocr_data)) /\
    length (doc_pages doc) = doc_total_pages doc /\
    forall i p, nth_error (doc_pages doc) i = Some p ->
      pr_page_number p = (i + 1)%nat.
Proof.
  destruct (reconcile_nth native_data ocr_data table_data)
    as (doc & Hdoc & Ht & Hlen & Hnth & _).
  exists doc. split; [exact Hdoc|]. split; [congruence|].
  split; [congruence|].
  intros i p Hp. destruct (Hnth i p Hp) as [_ Hpage].
  destruct (reconcile_page_eq native_data ocr_data table_data i)
    as (cp & Heq & _).
  rewrite Hpage in Heq. injection Heq as ->. reflexivity.
Qed.

(** X11: the size of every reconciled page is the size that a source
    reported for it: the native page's when the native source has that
    page, the OCR page's otherwise; the fallback of 1000 x 1000 is never
    used. *)
Theorem X11_page_size_from_a_source (native_data ocr_data : SourceData)
    (table_data : list Table) :
  exists doc,
    _reconcile_extraction_sources native_data ocr_data table_data = Ok doc /\
    forall i p, nth_error (doc_pages doc) i = Some p ->
      exists source_page,
        (nth_error (pages native_data) i = Some source_page \/
         (nth_error (pages native_data) i = None /\
          nth_error (pages ocr_data) i = Some source_page)) /\
        pr_width p = page_width source_page /\
        pr_height p = page_height source_page.
Proof.
  destruct (reconcile_nth native_data ocr_data table_data)
    as (doc & Hdoc & _ & _ & Hnth & _).
  exists doc. split; [exact Hdoc|].
  intros i p Hp. destruct (Hnth i p Hp) as [Hi Hpage].
  destruct (reconcile_page_eq native_data ocr_data table_data i)
    as (cp & Heq & _).
  rewrite Hpage in Heq. injection Heq as ->. simpl.
  destruct (nth_error (pages native_data) i) as [np|] eqn:Hn.
  - exists np. auto.
  - destruct (nth_error (pages ocr_data) i) as [op|] eqn:Ho.
    + exists op. auto.
    + apply nth_error_None in Hn, Ho. lia.
Qed.

(** X12: a table is attached to the page whose number it carries and to
    no other; a table whose page number is 0 or exceeds the number of
    pages is attached to no page. *)
Theorem X12_tables_by_page_number (native_data ocr_data : SourceData)
    (table_data : list Table) :
  exists doc,
    _reconcile_extraction_sources native_data ocr_data table_data = Ok doc /\
    (forall i p t, nth_error (doc_pages doc) i = Some p ->
       (In t (pr_tables p) <->
        In t table_data /\ table_page_number t = pr_page_number p)) /\
    (forall t p,
       table_page_number t = 0%nat \/
       (doc_total_pages doc < table_page_number t)%nat ->
       In p (doc_pages doc) -> ~ In t (pr_tables p)).
Proof.
  destruct (reconcile_nth native_data ocr_data table_data)
    as (doc & Hdoc & Ht & Hlen & Hnth & _).
  exists doc. split; [exact Hdoc|].
  assert (Hpage : forall i p, nth_error (doc_pages doc) i = Some p ->
            (i < doc_total_pages doc)%nat /\
            pr_page_number p = (i + 1)%nat /\
            pr_tables p
            = filter (fun t => Nat.eqb (table_page_number t) (i + 1))
                     table_data).
  { intros i p Hp. destruct (Hnth i p Hp) as [Hi Hpage].
    destruct (reconcile_page_eq native_data ocr_data table_data i)
      as (cp & Heq & _).
    rewrite Hpage in Heq. injection Heq as ->. simpl.
    split; [lia|]. auto. }
  assert (Hfilter : forall t n,
            In t (filter (fun t => Nat.eqb (table_page_number t) n) table_data)
            <-> In t table_data /\ table_page_number t = n).
  { intros t n. rewrite <- !list_elem_of_In, list_elem_of_filter.
    rewrite Is_true_true, Nat.eqb_eq. tauto. }
  split.
  - intros i p t Hp. destruct (Hpage i p Hp) as (_ & -> & ->).
    apply Hfilter.
  - intros t p Hout Hin Htab.
    apply In_nth_error in Hin as [i Hp].
    destruct (Hpage i p Hp) as (Hi & _ & Htabs).
    rewrite Htabs in Htab. apply Hfilter in Htab. lia.
Qed.

Lemma X10_reconciled_pages_numbered_witness :
  exists doc second,
    _reconcile_extraction_sources
      SampleSources.native_two_pages SampleSources.ocr_two_pages [] = Ok doc /\
    nth_error (doc_pages doc) 1 = Some second /\
    pr_page_number second = 2%nat.
Proof.
  destruct (X10_reconciled_pages_numbered
              SampleSources.native_two_pages SampleSources.ocr_two_pages [])
    as (doc & Hdoc & _ & _ & Hnum).
  assert (Hp : exists p, nth_error (doc_pages doc) 1 = Some p).
  { vm_compute in Hdoc. injection Hdoc as <-. eexists. reflexivity. }
  destruct Hp as [p Hp].
  exists doc, p. split; [exact Hdoc|]. split; [exact Hp|].
  exact (Hnum 1%nat p Hp).
Defined.

Lemma X11_page_size_from_a_source_witness :
  exists doc first,
    _reconcile_extraction_sources
      SampleSources.native_two_pages SampleSources.ocr_two_pages [] = Ok doc /\
    nth_error (doc_pages doc) 0 = Some first /\
    pr_width first == 600 /\ pr_height first == 800.
Proof.
  destruct (X11_page_size_from_a_source
              SampleSources.native_two_pages SampleSources.ocr_two_pages [])
    as (doc & Hdoc & Hsize).
  assert (Hp : exists p, nth_error (doc_pages doc) 0 = Some p).
  { vm_compute in Hdoc. injection Hdoc as <-. eexists. reflexivity. }
  destruct Hp as [p Hp].
  exists doc, p. split; [exact Hdoc|]. split; [exact Hp|].
  destruct (Hsize 0%nat p Hp) as (sp & [Hn|[Hn _]] & -> & ->).
  - injection Hn as <-. split; reflexivity.
  - discriminate.
Defined.

Lemma pymin_pos (a b : Q) : 0 < a -> 0 < b -> 0 < pymin a b.
Proof. intros Ha Hb. unfold pymin. now destruct (Qltb b a). Qed.

(** X13: on every reconciled page the number of words kept is at most the
    number of words the two sources gave together, and is 0 only when they
    gave none; so [coverage_percent] is 0 exactly on the pages where both
    sources found no word. *)
Theorem X13_coverage_zero_iff_no_words (native_data ocr_data : SourceData)
    (table_data : list Table) :
  exists doc,
    _reconcile_extraction_sources native_data ocr_data table_data = Ok doc /\
    forall p, In p (doc_pages doc) ->
      let c := coverage p in
      final_words c = length (pr_words p) /\
      (final_words c <= native_words c + ocr_words c)%nat /\
      (final_words c = 0%nat <->
       native_words c = 0%nat /\ ocr_words c = 0%nat) /\
      (coverage_percent c == 0 <->
       native_words c = 0%nat /\ ocr_words c = 0%nat).
Proof.
  destruct (reconcile_nth native_data ocr_data table_data)
    as (doc & Hdoc & _ & _ & Hnth & _).
  exists doc. split; [exact Hdoc|].
  intros p Hin c. apply In_nth_error in Hin as [i Hp].
  destruct (Hnth i p Hp) as [_ Hpage].
  destruct (reconcile_page_eq native_data ocr_data table_data i)
    as (cp & Heq & Hcp).
  rewrite Hpage in Heq. injection Heq as Heq. subst c. rewrite Heq. simpl.
  clear Heq Hpage Hp Hnth Hdoc.
  set (nl := match nth_error (pages native_data) i with
             | Some p => words p | None => [] end) in *.
  set (ol := match nth_error (pages ocr_data) i with
             | Some p => words p | None => [] end) in *.
  assert (Hle : (length (_deduplicate_words (nl ++ ol))
                 <= length nl + length ol)%nat).
  { rewrite <- length_app. exact (fold_dedup_length [] (nl ++ ol)). }
  assert (Hzero : length (_deduplicate_words (nl ++ ol)) = 0%nat <->
                  length nl = 0%nat /\ length ol = 0%nat).
  { split.
    - intros Hz. apply length_zero_iff_nil in Hz.
      destruct (nl ++ ol) as [|w l] eqn:Hl.
      + apply app_eq_nil in Hl as [-> ->]. auto.
      + exfalso. revert Hz. unfold _deduplicate_words. simpl.
        apply fold_dedup_nonempty, dedup_step_nonempty.
    - intros [Hn Ho]. apply length_zero_iff_nil in Hn, Ho.
      now rewrite Hn, Ho. }
  split; [reflexivity|]. split; [exact Hle|]. split; [exact Hzero|].
  rewrite <- Hzero, Hcp.
  pose proof (coverage_denominator (length nl) (length ol)) as Hd.
  set (d := pymax (pymax (num (length nl)) (num (length ol))) 1) in *.
  split.
  - intros Hc.
    destruct (length (_deduplicate_words (nl ++ ol))) as [|n] eqn:Hf;
      [reflexivity|].
    exfalso.
    assert (Hpos : 0 < num (S n)) by (apply num_pos; lia).
    assert (Hr : 0 < num (S n) / d) by (apply Qlt_shift_div_l; lra).
    assert (Hm : 0 < pymin 100 (num (S n) / d * 100))
      by (apply pymin_pos; lra).
    lra.
  - intros ->. vm_compute. reflexivity.
Qed.

Lemma X13_coverage_zero_iff_no_words_witness :
  exists doc first,
    _reconcile_extraction_sources
      SampleSources.native_two_pages SampleSources.ocr_two_pages [] = Ok doc /\
    nth_error (doc_pages doc) 0 = Some first /\
    ~ coverage_percent (coverage first) == 0.
Proof.
  destruct (X13_coverage_zero_iff_no_words
              SampleSources.native_two_pages SampleSources.ocr_two_pages [])
    as (doc & Hdoc & Hpages).
  assert (Hp : exists p, nth_error (doc_pages doc) 0 = Some p /\
                         native_words (coverage p) = 1%nat).
  { vm_compute in Hdoc. injection Hdoc as <-.
    eexists. split; reflexivity. }
  destruct Hp as (p & Hp & Hn).
  exists doc, p. split; [exact Hdoc|]. split; [exact Hp|].
  destruct (Hpages p (nth_error_In _ _ Hp)) as (_ & _ & _ & Hiff).
  intros Hz. apply Hiff in Hz as [Hz _]. congruence.
Defined.

Lemma sum_coverage_bounds (ps : list PageRecord) (acc : Q) :
  (forall p, In p ps ->
     0 <= coverage_percent (coverage p) /\
     coverage_percent (coverage p) <= 100) ->
  acc <= fold_left (fun a p => a + coverage_percent (coverage p)) ps acc /\
  fold_left (fun a p => a + coverage_percent (coverage p)) ps acc
  <= acc + 100 * len ps.
Proof.
  revert acc. induction ps as [|p ps IH]; intros acc H.
  - simpl fold_left. unfold len. simpl length.
    change (inject_Z (Z.of_nat 0)) with 0. lra.
  - simpl fold_left.
    destruct (H p (or_introl eq_refl)) as [Hlo Hhi].
    destruct (IH (acc + coverage_percent (coverage p))) as [IHlo IHhi].
    { intros q Hq. apply H. now right. }
    assert (Hlen : len (p :: ps) == len ps + 1).
    { unfold len. simpl length. rewrite Nat2Z.inj_succ, <- Z.add_1_r.
      now rewrite inject_Z_plus. }
    rewrite Hlen. lra.
Qed.

(** X14: [overall_coverage] is the arithmetic mean of the pages'
    [coverage_percent] (0 for a document without pages) and lies in
    [0, 100]. *)
Theorem X14_overall_coverage_mean (native_data ocr_data : SourceData)
    (table_data : list Table) :
  exists doc,
    _reconcile_extraction_sources native_data ocr_data table_data = Ok doc /\
    overall_coverage doc * len (doc_pages doc)
    == sum_coverage (doc_pages doc) /\
    0 <= overall_coverage doc /\ overall_coverage doc <= 100 /\
    (doc_pages doc = [] -> overall_coverage doc = 0).
Proof.
  destruct (reconcile_nth native_data ocr_data table_data)
    as (doc & Hdoc & _ & _ & Hnth & Hoverall).
  exists doc. split; [exact Hdoc|].
  assert (Hrange : forall p, In p (doc_pages doc) ->
            0 <= coverage_percent (coverage p) /\
            coverage_percent (coverage p) <= 100).
  { intros p Hin. apply In_nth_error in Hin as [i Hp].
    destruct (Hnth i p Hp) as [_ Hpage].
    destruct (reconcile_page_eq native_data ocr_data table_data i)
      as (cp & Heq & Hcp).
    rewrite Hpage in Heq. injection Heq as ->. simpl. rewrite Hcp.
    apply coverage_range. }
  destruct (sum_coverage_bounds (doc_pages doc) 0 Hrange) as [Hlo Hhi].
  fold (sum_coverage (doc_pages doc)) in Hlo, Hhi.
  rewrite Hoverall.
  destruct (doc_pages doc) as [|p ps] eqn:Hps.
  - split; [reflexivity|]. split; [lra|]. split; [lra|reflexivity].
  - assert (Hn : 0 < len (p :: ps)).
    { unfold len. apply num_pos. simpl. lia. }
    split; [field; lra|].
    split; [apply Qle_shift_div_l; lra|].
    split; [apply Qle_shift_div_r; lra|discriminate].
Qed.

Lemma X12_tables_by_page_number_witness :
  exists doc,
    _reconcile_extraction_sources
      SampleSources.native_two_pages SampleSources.ocr_two_pages
      [SampleTables.on_page 1; SampleTables.on_page 5] = Ok doc /\
    forall p, In p (doc_pages doc) ->
      ~ In (SampleTables.on_page 5) (pr_tables p).
Proof.
  destruct (X12_tables_by_page_number
              SampleSources.native_two_pages SampleSources.ocr_two_pages
              [SampleTables.on_page 1; SampleTables.on_page 5])
    as (doc & Hdoc & _ & Hout).
  exists doc. split; [exact Hdoc|].
  intros p Hp. apply (Hout (SampleTables.on_page 5) p); [|exact Hp].
  right. vm_compute in Hdoc. injection Hdoc as <-. simpl. lia.
Defined.

Lemma X14_overall_coverage_mean_witness :
  exists doc,
    _reconcile_extraction_sources
      (SampleSources.nothing "pdf_native") (SampleSources.nothing "pdf_ocr") []
    = Ok doc /\
    overall_coverage doc = 0.
Proof.
  destruct (X14_overall_coverage_mean
              (SampleSources.nothing "pdf_native")
              (SampleSources.nothing "pdf_ocr") [])
    as (doc & Hdoc & _ & _ & _ & Hzero).
  exists doc. split; [exact Hdoc|].
  apply Hzero. vm_compute in Hdoc. injection Hdoc as <-. reflexivity.
Defined.

(** ** Boxes of detections and of segments *)

Lemma fold_pymin_le (l : list Q) (a : Q) :
  fold_left pymin l a <= a /\ forall v, In v l -> fold_left pymin l a <= v.
Proof.
  revert a. induction l as [|b l IH]; intros a; simpl.
  - split; [apply Qle_refl|intros v []].
  - destruct (IH (pymin a b)) as [Hm Hall].
    destruct (pymin_glb a b) as [Ha Hb].
    split; [lra|].
    intros v [<-|Hv]; [lra|now apply Hall].
Qed.

Lemma fold_pymax_ge (l : list Q) (a : Q) :
  a <= fold_left pymax l a /\ forall v, In v l -> v <= fold_left pymax l a.
Proof.
  revert a. induction l as [|b l IH]; intros a; simpl.
  - split; [apply Qle_refl|intros v []].
  - destruct (IH (pymax a b)) as [Hm Hall].
    destruct (pymax_lub a b) as [Ha Hb].
    split; [lra|].
    intros v [<-|Hv]; [lra|now apply Hall].
Qed.

Lemma min_max_list (l : list Q) :
  l <> [] ->
  exists lo hi,
    min_list l = Ok lo /\ max_list l = Ok hi /\
    forall v, In v l -> lo <= v /\ v <= hi.
Proof.
  destruct l as [|a l]; [congruence|]. intros _.
  exists (fold_left pymin l a), (fold_left pymax l a).
  split; [reflexivity|]. split; [reflexivity|].
  destruct (fold_pymin_le l a) as [Hlo Hlos].
  destruct (fold_pymax_ge l a) as [Hhi His].
  intros v [<-|Hv]; split; auto.
Qed.

Lemma quotient_le (a b d : Q) : 0 < d -> a <= b -> a / d <= b / d.
Proof.
  intros Hd H. unfold Qdiv. apply Qmult_le_compat_r; [exact H|].
  apply Qlt_le_weak, Qinv_lt_0_compat, Hd.
Qed.

Lemma fold_pymin_in (l : list Q) (a : Q) : In (fold_left pymin l a) (a :: l).
Proof.
  revert a. induction l as [|b l IH]; intros a; simpl; [now left|].
  destruct (IH (pymin a b)) as [H|H]; [|now right; right].
  rewrite <- H. unfold pymin. destruct (Qltb b a); simpl; auto.
Qed.

Lemma min_list_in (l : list Q) :
  l <> [] -> exists lo, min_list l = Ok lo /\ In lo l.
Proof.
  destruct l as [|a l]; [congruence|]. intros _.
  exists (fold_left pymin l a). split; [reflexivity|apply fold_pymin_in].
Qed.

(** X15: the box that the PaddleOCR and EasyOCR paths build from the
    corner points of a detection, on an image of positive size: its width
    and height are not negative, no corner point lies to the left of its
    [x] or above its [y] (after division by the image size), and one
    corner point lies on each of these two edges.  A detection without
    corner points raises ValueError. *)
Theorem X15_quad_box_origin (q : list (Q * Q)) (page_w page_h : Q) :
  (q = [] -> exists message,
     normalize_quad q page_w page_h = Raise (ValueError message)) /\
  (q <> [] -> 0 < page_w -> 0 < page_h ->
   exists b,
     normalize_quad q page_w page_h = Ok b /\
     0 <= width b /\ 0 <= height b /\
     (forall px py, In (px, py) q ->
        x b <= px / page_w /\ y b <= py / page_h) /\
     (exists px py, In (px, py) q /\ x b = px / page_w) /\
     (exists px py, In (px, py) q /\ y b = py / page_h)).
Proof.
  split.
  - intros ->. eexists. reflexivity.
  - intros Hq Hw Hh.
    destruct (min_max_list (map fst q)) as (xlo & xhi & Hxlo & Hxhi & Hx).
    { destruct q; [congruence|discriminate]. }
    destruct (min_max_list (map snd q)) as (ylo & yhi & Hylo & Hyhi & Hy).
    { destruct q; [congruence|discriminate]. }
    destruct (min_list_in (map fst q)) as (xlo' & Hxlo' & Hxin).
    { destruct q; [congruence|discriminate]. }
    destruct (min_list_in (map snd q)) as (ylo' & Hylo' & Hyin).
    { destruct q; [congruence|discriminate]. }
    rewrite Hxlo in Hxlo'. injection Hxlo' as <-.
    rewrite Hylo in Hylo'. injection Hylo' as <-.
    unfold normalize_quad.
    rewrite Hxlo, Hylo, Hxhi, Hyhi. simpl.
    rewrite !(pydiv_ok _ page_w), !(pydiv_ok _ page_h) by lra. simpl.
    eexists. split; [reflexivity|]. simpl.
    assert (Hin : forall px py, In (px, py) q ->
              (xlo <= px /\ px <= xhi) /\ (ylo <= py /\ py <= yhi)).
    { intros px py Hp. split.
      - apply Hx. apply (in_map fst) in Hp. exact Hp.
      - apply Hy. apply (in_map snd) in Hp. exact Hp. }
    assert (Hne : exists px py, In (px, py) q).
    { destruct q as [|[px py] q']; [congruence|].
      exists px, py. now left. }
    destruct Hne as (px0 & py0 & Hp0).
    destruct (Hin _ _ Hp0) as [[Hx1 Hx2] [Hy1 Hy2]].
    split; [apply Qle_shift_div_l; lra|].
    split; [apply Qle_shift_div_l; lra|].
    split; [|split].
    + intros px py Hp. destruct (Hin _ _ Hp) as [[Hpx1 _] [Hpy1 _]].
      split; apply quotient_le; assumption.
    + apply in_map_iff in Hxin as ([px py] & Hfst & Hp). simpl in Hfst.
      exists px, py. split; [exact Hp|now rewrite Hfst].
    + apply in_map_iff in Hyin as ([px py] & Hsnd & Hp). simpl in Hsnd.
      exists px, py. split; [exact Hp|now rewrite Hsnd].
Qed.

Lemma X15_quad_box_origin_witness :
  exists b,
    normalize_quad [(10, 20); (110, 20); (110, 50); (10, 50)] 1200 1600
    = Ok b /\
    0 <= width b /\ 0 <= height b /\
    x b <= 110 / 1200 /\ y b <= 50 / 1600.
Proof.
  destruct (X15_quad_box_origin
              [(10, 20); (110, 20); (110, 50); (10, 50)] 1200 1600)
    as [_ H].
  destruct H as (b & Hb & Hw & Hh & Hall & _);
    [discriminate|reflexivity..|].
  exists b. split; [exact Hb|]. split; [exact Hw|]. split; [exact Hh|].
  apply (Hall 110 50). simpl. auto.
Defined.

Lemma pymin_cases (a b : Q) :
  pymin a b <= a /\ pymin a b <= b /\ (pymin a b = a \/ pymin a b = b).
Proof.
  destruct (pymin_glb a b) as [Ha Hb].
  split; [exact Ha|]. split; [exact Hb|].
  unfold pymin. destruct (Qltb b a); auto.
Qed.

Lemma pyabs_nonneg (a : Q) : 0 <= pyabs a.
Proof.
  unfold pyabs. destruct (Qltb a 0) eqn:E;
    [apply Qltb_lt in E|apply Qltb_ge in E]; lra.
Qed.

(** X16: the box that the shape extractors build for a line segment, on a
    page of positive size: its width and height are not negative, neither
    of the two end points stored under [coordinates] lies to the left of
    its [x] or above its [y], and on each axis the box starts exactly at
    the coordinate of one of the two end points. *)
Theorem X16_segment_box_origin (p1 p2 : Q * Q) (page_w page_h : Q) :
  0 < page_w -> 0 < page_h ->
  exists b c1 c2,
    normalize_segment p1 p2 page_w page_h = Ok (b, [c1; c2]) /\
    c1 = (fst p1 / page_w, snd p1 / page_h) /\
    c2 = (fst p2 / page_w, snd p2 / page_h) /\
    0 <= width b /\ 0 <= height b /\
    x b <= fst c1 /\ x b <= fst c2 /\
    y b <= snd c1 /\ y b <= snd c2 /\
    (x b = fst c1 \/ x b = fst c2) /\
    (y b = snd c1 \/ y b = snd c2).
Proof.
  intros Hw Hh. unfold normalize_segment.
  rewrite !(pydiv_ok _ page_w), !(pydiv_ok _ page_h) by lra. simpl.
  do 3 eexists. split; [reflexivity|]. simpl.
  split; [reflexivity|]. split; [reflexivity|].
  destruct (pymin_cases (fst p1) (fst p2)) as (Hx1 & Hx2 & Hx).
  destruct (pymin_cases (snd p1) (snd p2)) as (Hy1 & Hy2 & Hy).
  pose proof (pyabs_nonneg (fst p2 - fst p1)) as Hax.
  pose proof (pyabs_nonneg (snd p2 - snd p1)) as Hay.
  split; [apply Qle_shift_div_l; lra|].
  split; [apply Qle_shift_div_l; lra|].
  split; [now apply quotient_le|]. split; [now apply quotient_le|].
  split; [now apply quotient_le|]. split; [now apply quotient_le|].
  split.
  - destruct Hx as [-> | ->]; auto.
  - destruct Hy as [-> | ->]; auto.
Qed.

Lemma X16_segment_box_origin_witness :
  exists b c1 c2,
    normalize_segment (300, 40) (100, 40) 600 800 = Ok (b, [c1; c2]) /\
    0 <= width b /\ 0 <= height b /\ x b <= fst c1 /\ x b <= fst c2.
Proof.
  destruct (X16_segment_box_origin (300, 40) (100, 40) 600 800)
    as (b & c1 & c2 & H & _ & _ & Hw & Hh & Hx1 & Hx2 & _);
    [reflexivity..|].
  exists b, c1, c2. auto.
Defined.

(** ** The cascade of OCR engines *)

Lemma appends_ret {S} (P : S -> Prop) : appends P (ret tt).
Proof. intros s. exists []. now rewrite app_nil_r. Qed.

Lemma appends_append {S} (P : S -> Prop) (v : S) :
  P v -> appends P (append v).
Proof. intros H s. exists [v]. split; [reflexivity|]. now constructor. Qed.

Lemma appends_lift {S A} (P : S -> Prop) (o : outcome A)
    (k : A -> M (list S) unit) :
  (forall a, appends P (k a)) -> appends P (a <~ lift o ;; k a).
Proof.
  intros H s. unfold bindM, lift. destruct o as [a|e].
  - apply H.
  - exists []. now rewrite app_nil_r.
Qed.

Lemma appends_seq {S} (P : S -> Prop) (m : M (list S) unit)
    (k : unit -> M (list S) unit) :
  appends P m -> (forall u, appends P (k u)) -> appends P (u <~ m ;; k u).
Proof.
  intros Hm Hk s. unfold bindM.
  destruct (Hm s) as (a1 & H1 & HP1).
  destruct (m s) as [s1 [u|e]]; simpl in H1; subst s1.
  - destruct (Hk u (s ++ a1)) as (a2 & H2 & HP2).
    exists (a1 ++ a2). rewrite H2, app_assoc. split; [reflexivity|].
    now apply Forall_app.
  - now exists a1.
Qed.

Lemma appends_for_eachM {S A} (P : S -> Prop) (body : A -> M (list S) unit)
    (l : list A) :
  (forall a, appends P (body a)) -> appends P (for_eachM body l).
Proof.
  intros H. induction l as [|a l IH]; simpl.
  - apply appends_ret.
  - apply appends_seq; [apply H|intros _; exact IH].
Qed.

Lemma appends_try_log {S} (P : S -> Prop) (m : M (list S) unit) :
  appends P m -> appends P (try_log m).
Proof.
  intros H s. destruct (H s) as (added & Hs & HP).
  exists added. unfold try_log. destruct (m s) as [s' r]. auto.
Qed.

Lemma guarded_try_appends {S} (P : S -> Prop) (c : bool)
    (body : M (list S) unit) (s : list S) :
  appends P body ->
  exists added,
    (if c then try_log body else ret tt) s = (s ++ added, Ok tt) /\
    Forall P added /\ (c = false -> added = []).
Proof.
  intros H. destruct c.
  - destruct (H s) as (added & Hs & HP). exists added.
    unfold try_log. destruct (body s) as [s' r]. simpl in Hs. subst s'.
    split; [reflexivity|]. split; [exact HP|discriminate].
  - exists []. unfold ret. rewrite app_nil_r. auto.
Qed.

Lemma Qdiv_100_lt (z : Z) : (30 < z)%Z -> 0.3 < inject_Z z / 100.
Proof.
  intros H. apply Qlt_shift_div_l; [reflexivity|].
  unfold Qlt. simpl. lia.
Qed.

Lemma tesseract_row_appends (image_np : Image) (r : TessRow) :
  appends (fun w => origin w = Engine "tesseract" /\
                    0.3 < confidence w /\ Str.truthy (text w) = true)
          (tesseract_row image_np r).
Proof.
  unfold tesseract_row.
  destruct (30 <? conf r)%Z eqn:Hc; [|apply appends_ret].
  destruct (Str.truthy (Str.strip (row_text r))) eqn:Ht; [|apply appends_ret].
  apply appends_lift. intros b. apply appends_append. simpl.
  apply Z.ltb_lt in Hc. split; [reflexivity|].
  split; [now apply Qdiv_100_lt|exact Ht].
Qed.

Lemma ocr_line_word_appends (engine : string) (image_np : Image)
    (l : OcrLine) :
  appends (fun w => origin w = Engine engine) (ocr_line_word engine image_np l).
Proof.
  unfold ocr_line_word. apply appends_lift. intros b.
  now apply appends_append.
Qed.

(** X17: the words that the OCR stage returns are the Tesseract words,
    then the PaddleOCR words, then the EasyOCR words.  Every Tesseract
    word has a confidence above 0.3 and a non-empty text; PaddleOCR words
    are present only with fewer than ten Tesseract words; EasyOCR words
    are present only when the two other engines gave none. *)
Theorem X17_engine_cascade (rt : runtime) (self : gmap string Value)
    (image_np : Image) (a p e : Value) :
  self !! "pytesseract_available" = Some a ->
  self !! "paddle_ocr" = Some p ->
  self !! "easy_ocr" = Some e ->
  exists tesseract_words paddle_words easy_words,
    _multi_engine_ocr rt self image_np
    = Ok (tesseract_words ++ paddle_words ++ easy_words) /\
    Forall (fun w => origin w = Engine "tesseract" /\
                     0.3 < confidence w /\ Str.truthy (text w) = true)
           tesseract_words /\
    Forall (fun w => origin w = Engine "paddle") paddle_words /\
    Forall (fun w => origin w = Engine "easy") easy_words /\
    (paddle_words <> [] -> (length tesseract_words < 10)%nat) /\
    (easy_words <> [] -> tesseract_words = [] /\ paddle_words = []) /\
    (truth a = false -> tesseract_words = []) /\
    (truth p = false -> paddle_words = []) /\
    (truth e = false -> easy_words = []).
Proof.
  intros Ha Hp He.
  unfold _multi_engine_ocr, multi_engine_body, bindM, lift, getattr,
    length_so_far.
  rewrite Ha, Hp, He.
  match goal with
  | |- context [(if truth a then try_log ?b else ret tt) ?s] =>
      destruct (guarded_try_appends
                  (fun w => origin w = Engine "tesseract" /\
                            0.3 < confidence w /\ Str.truthy (text w) = true)
                  (truth a) b s) as (t & -> & Ht & Hta)
  end.
  { apply appends_lift. intros data.
    apply appends_for_eachM, tesseract_row_appends. }
  simpl app.
  match goal with
  | |- context [(if ?c then try_log ?b else ret tt) t] =>
      destruct (guarded_try_appends
                  (fun w => origin w = Engine "paddle") c b t)
        as (pd & -> & Hpd & Hpda)
  end.
  { apply appends_lift. intros [|first_result rest].
    - apply appends_ret.
    - apply appends_for_eachM, ocr_line_word_appends. }
  match goal with
  | |- context [(if ?c then try_log ?b else ret tt) (t ++ pd)] =>
      destruct (guarded_try_appends
                  (fun w => origin w = Engine "easy") c b (t ++ pd))
        as (ez & -> & Hez & Heza)
  end.
  { apply appends_lift. intros results.
    apply appends_for_eachM, ocr_line_word_appends. }
  simpl. exists t, pd, ez. rewrite <- app_assoc.
  split; [reflexivity|]. split; [exact Ht|]. split; [exact Hpd|].
  split; [exact Hez|].
  split; [|split; [|split; [|split]]].
  - intros Hne. destruct (truth p && (length t <? 10)%nat) eqn:Hc.
    + apply andb_true_iff in Hc as [_ Hc]. now apply Nat.ltb_lt in Hc.
    + now rewrite Hpda in Hne.
  - intros Hne. destruct (truth e && (length (t ++ pd) =? 0)%nat) eqn:Hc.
    + apply andb_true_iff in Hc as [_ Hc]. apply Nat.eqb_eq in Hc.
      apply length_zero_iff_nil in Hc. now apply app_eq_nil in Hc.
    + now rewrite Heza in Hne.
  - exact Hta.
  - intros Hf. apply Hpda. now rewrite Hf.
  - intros Hf. apply Heza. now rewrite Hf.
Qed.

Lemma X17_engine_cascade_witness :
  let rt := SampleRuntime.healthy [SampleRuntime.readable_page] in
  exists tesseract_words paddle_words easy_words,
    _multi_engine_ocr rt (ocr_service (SampleRuntime.imported rt))
                      SampleRuntime.scan_image
    = Ok (tesseract_words ++ paddle_words ++ easy_words) /\
    (easy_words <> [] -> tesseract_words = [] /\ paddle_words = []).
Proof.
  intros rt.
  destruct (X17_engine_cascade rt (ocr_service (SampleRuntime.imported rt))
              SampleRuntime.scan_image
              (VBool true) (VObject "PaddleOCR") (VObject "Reader")
              eq_refl eq_refl eq_refl)
    as (t & p & e & H & _ & _ & _ & _ & He & _).
  exists t, p, e. auto.
Defined.

Lemma num_nonzero (n : nat) : (0 < n)%nat -> ~ num n == 0.
Proof. intros H E. pose proof (num_pos n H). lra. Qed.

Lemma tesseract_row_eq (image_np : Image) (r : TessRow) (s : list Word) :
  (0 < shape0 image_np)%nat -> (0 < shape1 image_np)%nat ->
  tesseract_row image_np r s
  = (s ++ (if tesseract_keeps r then [tesseract_word image_np r] else []),
     Ok tt).
Proof.
  intros H0 H1. unfold tesseract_row, tesseract_keeps.
  destruct (30 <? conf r)%Z;
    [|unfold ret; now rewrite app_nil_r].
  destruct (Str.truthy (Str.strip (row_text r)));
    [|unfold ret; now rewrite app_nil_r].
  unfold bindM, lift.
  rewrite normalize_rect_ok by now apply num_nonzero.
  reflexivity.
Qed.

Lemma for_eachM_tesseract (image_np : Image) (rows : list TessRow)
    (s : list Word) :
  (0 < shape0 image_np)%nat -> (0 < shape1 image_np)%nat ->
  for_eachM (tesseract_row image_np) rows s
  = (s ++ map (tesseract_word image_np) (List.filter tesseract_keeps rows),
     Ok tt).
Proof.
  intros H0 H1. revert s. induction rows as [|r rows IH]; intros s.
  - unfold for_eachM, ret. now rewrite app_nil_r.
  - change (for_eachM (tesseract_row image_np) (r :: rows))
      with (_ <~ tesseract_row image_np r ;;
            for_eachM (tesseract_row image_np) rows).
    unfold bindM. rewrite (tesseract_row_eq image_np r s H0 H1), IH.
    rewrite <- app_assoc. simpl List.filter.
    now destruct (tesseract_keeps r).
Qed.

(** X18: with Tesseract available and answering on an image of positive
    size, the OCR stage returns first one word per row of confidence above
    30 and non-blank text, in the order of the rows, with the stripped
    text, the box divided by the image size and the confidence divided by
    100.  With ten such rows or more, or without another engine, these are
    all the words returned: what PaddleOCR and EasyOCR would answer plays
    no part. *)
Theorem X18_tesseract_words (rt : runtime) (self : gmap string Value)
    (image_np : Image) (rows : list TessRow) (a p e : Value) :
  self !! "pytesseract_available" = Some a ->
  self !! "paddle_ocr" = Some p ->
  self !! "easy_ocr" = Some e ->
  truth a = true ->
  image_to_data rt image_np = Ok rows ->
  (0 < shape0 image_np)%nat -> (0 < shape1 image_np)%nat ->
  let tesseract_words :=
    map (tesseract_word image_np) (List.filter tesseract_keeps rows) in
  exists others,
    _multi_engine_ocr rt self image_np = Ok (tesseract_words ++ others) /\
    ((10 <= length tesseract_words)%nat -> others = []) /\
    (truth p = false -> truth e = false -> others = []).
Proof.
  intros Ha Hp He Hta Hdata H0 H1 t.
  unfold _multi_engine_ocr, multi_engine_body, bindM, lift, getattr,
    length_so_far.
  rewrite Ha, Hp, He, Hta.
  unfold try_log at 1. unfold bindM, lift. rewrite Hdata.
  rewrite (for_eachM_tesseract image_np rows [] H0 H1). simpl app. fold t.
  match goal with
  | |- context [(if ?c then try_log ?b else ret tt) t] =>
      destruct (guarded_try_ok c b t) as [s2 Hs2];
      destruct (guarded_try_appends (fun _ => True) c b t)
        as (pd & Hpd & _ & Hpda)
  end.
  { apply appends_lift. intros [|first_result rest].
    - apply appends_ret.
    - apply appends_for_eachM. intros l. unfold ocr_line_word.
      apply appends_lift. intros b. now apply appends_append. }
  rewrite Hpd. clear Hs2 s2.
  match goal with
  | |- context [(if ?c then try_log ?b else ret tt) (t ++ pd)] =>
      destruct (guarded_try_appends (fun _ => True) c b (t ++ pd))
        as (ez & -> & _ & Heza)
  end.
  { apply appends_lift. intros results.
    apply appends_for_eachM. intros l. unfold ocr_line_word.
    apply appends_lift. intros b. now apply appends_append. }
  simpl. exists (pd ++ ez). rewrite app_assoc.
  split; [reflexivity|]. split.
  - intros Hlen.
    assert (Hpd0 : pd = []).
    { apply Hpda. apply andb_false_iff. right. apply Nat.ltb_ge. exact Hlen. }
    subst pd. rewrite app_nil_r in Heza. simpl.
    apply Heza. apply andb_false_iff. right. apply Nat.eqb_neq.
    lia.
  - intros Hpf Hef.
    rewrite (Hpda ltac:(now rewrite Hpf)).
    now rewrite (Heza ltac:(now rewrite Hef)).
Qed.

Lemma X18_tesseract_words_witness :
  let rt := SampleRuntime.healthy [SampleRuntime.readable_page] in
  exists others,
    _multi_engine_ocr rt (ocr_service (SampleRuntime.imported rt))
                      SampleRuntime.scan_image
    = Ok ([tesseract_word SampleRuntime.scan_image SampleRuntime.total_row]
          ++ others).
Proof.
  intros rt.
  destruct (X18_tesseract_words rt (ocr_service (SampleRuntime.imported rt))
              SampleRuntime.scan_image [SampleRuntime.total_row]
              (VBool true) (VObject "PaddleOCR") (VObject "Reader")
              eq_refl eq_refl eq_refl eq_refl eq_refl)
    as (others & H & _); [simpl; lia..|].
  exists others. exact H.
Defined.

(** ** The table detector *)

Lemma in_combine_seq {A} (l : list A) (s i : nat) (a : A) :
  In (i, a) (combine (seq s (length l)) l) ->
  (s <= i)%nat /\ nth_error l (i - s) = Some a.
Proof.
  revert s. induction l as [|b l IH]; intros s; simpl; [tauto|].
  intros [[= <- <-]|H].
  - rewrite Nat.sub_diag. auto.
  - destruct (IH (S s) H) as [Hle Hnth].
    split; [lia|].
    replace (i - s)%nat with (S (i - S s)) by lia. exact Hnth.
Qed.

Lemma in_enumerate_nth {A} (l : list A) (i : nat) (a : A) :
  In (i, a) (enumerate l) -> nth_error l i = Some a.
Proof.
  intros H. apply in_combine_seq in H as [_ H].
  now rewrite Nat.sub_0_r in H.
Qed.

Lemma table_cols_ge (table_data : list (option (list (option string))))
    (r : option (list (option string))) :
  In r table_data -> (length (default [] r) <= table_cols table_data)%nat.
Proof.
  unfold table_cols. induction table_data as [|r0 td IH]; simpl; [tauto|].
  intros [<-|H]; [lia|]. specialize (IH H). lia.
Qed.

Lemma table_cells_inside (table_data : list (option (list (option string))))
    (c : Cell) :
  In c (table_cells table_data) ->
  (row c < length table_data)%nat /\ (col c < table_cols table_data)%nat /\
  Str.truthy (cell_text c) = true /\ cell_confidence c == 0.95.
Proof.
  unfold table_cells. intros H.
  apply in_flat_map in H as ([row_idx r] & Hr & H).
  apply in_flat_map in H as ([col_idx cell] & Hc & H).
  apply in_enumerate_nth in Hr, Hc.
  assert (Hrow : (row_idx < length table_data)%nat)
    by (apply nth_error_Some; congruence).
  assert (Hcol : (col_idx < length (default [] r))%nat)
    by (apply nth_error_Some; congruence).
  pose proof (table_cols_ge table_data r (nth_error_In _ _ Hr)) as Hcols.
  destruct cell as [t|]; [|destruct H].
  destruct (Str.truthy t) eqn:Ht; [|destruct H].
  destruct H as [<-|[]]. simpl.
  split; [exact Hrow|]. split; [lia|]. split; [exact Ht|reflexivity].
Qed.

Lemma plumber_table_appends (page_num : nat) (page : PlumberPage)
    (entry : nat * PlumberTable) :
  appends (fun t => well_formed_table t /\
                    table_page_number t = (page_num + 1)%nat)
          (plumber_table page_num page entry).
Proof.
  unfold plumber_table. destruct entry as [table_idx table].
  apply appends_lift. intros table_data.
  apply appends_lift. intros b.
  apply appends_append. unfold well_formed_table. simpl.
  split; [|reflexivity]. split; [lia|].
  intros c Hc. now apply table_cells_inside.
Qed.

Lemma appends_lift_eq {S A} (P : S -> Prop) (o : outcome A)
    (k : A -> M (list S) unit) :
  (forall a, o = Ok a -> appends P (k a)) -> appends P (a <~ lift o ;; k a).
Proof.
  intros H s. unfold bindM, lift. destruct o as [a|e].
  - now apply H.
  - exists []. now rewrite app_nil_r.
Qed.

Lemma tables_of_pages_appends (n : nat) (l : list (nat * PlumberPage)) :
  (forall i page, In (i, page) l -> (i < n)%nat) ->
  appends (fun t => well_formed_table t /\ (table_page_number t <= n)%nat)
          (for_eachM
             (fun '(page_num, page) =>
                page_tables <~ lift (find_tables page) ;;
                for_eachM (plumber_table page_num page)
                          (enumerate page_tables))
             l).
Proof.
  induction l as [|[page_num page] l IH]; intros Hn; simpl.
  - apply appends_ret.
  - apply appends_seq.
    + apply appends_lift. intros page_tables s.
      destruct (appends_for_eachM
                  (fun t => well_formed_table t /\
                            table_page_number t = (page_num + 1)%nat)
                  (plumber_table page_num page) (enumerate page_tables)
                  (plumber_table_appends page_num page) s)
        as (added & Hs & HP).
      exists added. split; [exact Hs|].
      pose proof (Hn page_num page (or_introl eq_refl)) as Hlt.
      eapply List.Forall_impl; [|exact HP]. simpl.
      intros t [Hwf Hpn]. split; [exact Hwf|lia].
    + intros _. apply IH. intros i pg H. apply (Hn i pg). now right.
Qed.

(** X19: the table detector returns a list, also when pdfplumber is
    missing or fails; every table in it carries a page number between 1
    and the number of pages pdfplumber sees, and each of its cells has a
    non-empty text, the confidence 0.95, a row below the table's [rows]
    and a column below its [cols]. *)
Theorem X19_tables_well_formed (rt : runtime) (pdf_bytes : bytes) :
  exists table_data,
    _extract_pdf_tables rt (module_globals rt) pdf_bytes = Ok table_data /\
    Forall well_formed_table table_data /\
    (forall pdf, pdfplumber_open rt pdf_bytes = Ok pdf ->
       Forall (fun t => (table_page_number t <= length pdf)%nat) table_data) /\
    (import_pdfplumber rt = false -> table_data = []).
Proof.
  unfold _extract_pdf_tables, load_global.
  change (module_globals rt !! "PDFPLUMBER_AVAILABLE")
    with (Some (VBool (import_pdfplumber rt))).
  simpl bind. destruct (import_pdfplumber rt); simpl negb; cbv iota.
  2:{ exists []. repeat split; constructor. }
  match goal with
  | |- context [try_log ?body []] =>
      assert (Happ : appends
                (fun t => well_formed_table t /\
                          forall pdf, pdfplumber_open rt pdf_bytes = Ok pdf ->
                            (table_page_number t <= length pdf)%nat)
                (try_log body))
  end.
  { apply appends_try_log, appends_lift_eq. intros pdf Hpdf s.
    destruct (tables_of_pages_appends (length pdf) (enumerate pdf)) with s
      as (added & Hs & HP).
    { intros i page H. apply in_enumerate_nth in H.
      apply nth_error_Some. congruence. }
    exists added. split; [exact Hs|].
    eapply List.Forall_impl; [|exact HP]. simpl.
    intros t [Hwf Hle]. split; [exact Hwf|].
    intros pdf' Hpdf'. rewrite Hpdf in Hpdf'. now injection Hpdf' as <-. }
  destruct (Happ []) as (added & Hs & HP). rewrite Hs. simpl app.
  exists added. split; [reflexivity|]. split; [|split].
  - eapply List.Forall_impl; [|exact HP]. now intros t [H _].
  - intros pdf Hpdf. eapply List.Forall_impl; [|exact HP].
    intros t [_ H]. now apply H.
  - discriminate.
Qed.

Lemma X19_tables_well_formed_witness :
  exists table_data,
    _extract_pdf_tables SampleTables.runtime_with_table
      (module_globals SampleTables.runtime_with_table)
      SampleRuntime.pdf_upload = Ok table_data /\
    Forall (fun t => (table_page_number t <= 1)%nat) table_data.
Proof.
  destruct (X19_tables_well_formed SampleTables.runtime_with_table
              SampleRuntime.pdf_upload)
    as (table_data & H & _ & Hpages & _).
  exists table_data. split; [exact H|].
  exact (Hpages _ eq_refl).
Defined.

(** ** The native extractor and the whole PDF path *)

Lemma for_each_map {A B} (body : A -> outcome B) (f : A -> B) (l : list A) :
  (forall a, In a l -> body a = Ok (f a)) ->
  for_each body l = Ok (map f l).
Proof.
  induction l as [|a l IH]; intros H; simpl; [reflexivity|].
  rewrite (H a (or_introl eq_refl)). simpl.
  rewrite IH by (intros a' Ha'; apply H; now right). reflexivity.
Qed.

Lemma length_enumerate {A} (l : list A) : length (enumerate l) = length l.
Proof.
  unfold enumerate. rewrite length_combine, length_seq. apply Nat.min_id.
Qed.

Lemma nth_combine {A B} (s : list A) (l : list B) (i : nat) (x : A) (a : B) :
  nth_error s i = Some x -> nth_error l i = Some a ->
  nth_error (combine s l) i = Some (x, a).
Proof.
  revert s l. induction i as [|i IH]; intros [|n s] [|b l]; simpl;
    try discriminate.
  - now intros [= ->] [= ->].
  - apply IH.
Qed.

Lemma nth_enumerate {A} (l : list A) (i : nat) (a : A) :
  nth_error l i = Some a -> nth_error (enumerate l) i = Some (i, a).
Proof.
  intros H. unfold enumerate. apply nth_combine; [|exact H].
  assert (Hi : (i < length l)%nat) by (apply nth_error_Some; congruence).
  rewrite nth_error_seq. destruct (Nat.ltb_spec i (length l)); [auto|lia].
Qed.

(** The word stored for a span on a page of positive size. *)
Lemma native_word_ok (page_w page_h : Q) (span : Span) :
  0 < page_w -> 0 < page_h ->
  exists w,
    native_word page_w page_h span = Ok w /\
    text w = span_text span /\ confidence w = 1.
Proof.
  intros Hw Hh. unfold native_word.
  destruct (span_bbox span) as [[[b0 b1] b2] b3].
  rewrite normalize_corners_ok by lra. simpl.
  eexists. split; [reflexivity|]. auto.
Qed.

Lemma for_each_native_word (page_w page_h : Q) (spans : list Span) :
  0 < page_w -> 0 < page_h ->
  exists ws,
    for_each (native_word page_w page_h) spans = Ok ws /\
    map text ws = map span_text spans /\
    Forall (fun w => confidence w = 1) ws.
Proof.
  intros Hw Hh. induction spans as [|sp spans IH]; simpl.
  - exists []. auto.
  - destruct (native_word_ok page_w page_h sp Hw Hh) as (w & -> & Ht & Hc).
    destruct IH as (ws & -> & Hts & Hcs). simpl.
    exists (w :: ws). split; [reflexivity|]. simpl.
    split; [now rewrite Ht, Hts|now constructor].
Qed.

Lemma native_lines_ok (page_w page_h : Q) (block_lines : list (list Span)) :
  0 < page_w -> 0 < page_h ->
  exists per_line,
    for_each (for_each (native_word page_w page_h)) block_lines
    = Ok per_line /\
    map text (concat per_line) = map span_text (concat block_lines) /\
    Forall (fun w => confidence w = 1) (concat per_line).
Proof.
  intros Hw Hh. induction block_lines as [|line ls IH]; simpl.
  - exists []. auto.
  - destruct (for_each_native_word page_w page_h line Hw Hh)
      as (ws & -> & Ht & Hc).
    destruct IH as (per_line & -> & Hts & Hcs). simpl.
    exists (ws :: per_line). split; [reflexivity|]. simpl.
    rewrite !map_app, Ht, Hts. split; [reflexivity|].
    now apply Forall_app.
Qed.

Lemma native_page_words_ok (page_w page_h : Q) (blocks : list Block) :
  0 < page_w -> 0 < page_h ->
  exists ws,
    native_page_words page_w page_h blocks = Ok ws /\
    map text ws = map span_text (page_spans blocks) /\
    Forall (fun w => confidence w = 1) ws.
Proof.
  intros Hw Hh. unfold native_page_words, page_spans.
  assert (H : exists per_block,
             for_each
               (fun block =>
                  match block_lines block with
                  | Some block_lines =>
                      per_line <-
                        for_each (for_each (native_word page_w page_h))
                                 block_lines ;;
                      Ok (concat per_line)
                  | None => Ok []
                  end) blocks = Ok per_block /\
             map text (concat per_block)
             = map span_text (concat (map block_spans blocks)) /\
             Forall (fun w => confidence w = 1) (concat per_block)).
  { induction blocks as [|block blocks IH]; simpl.
    - exists []. auto.
    - destruct IH as (per_block & IHeq & Hts & Hcs).
      unfold block_spans at 1.
      destruct (block_lines block) as [ls|].
      + destruct (native_lines_ok page_w page_h ls Hw Hh)
          as (per_line & -> & Ht & Hc).
        simpl. rewrite IHeq. simpl.
        exists (concat per_line :: per_block). split; [reflexivity|]. simpl.
        rewrite !map_app, Ht, Hts. split; [reflexivity|].
        now apply Forall_app.
      + simpl. rewrite IHeq. simpl.
        exists ([] :: per_block). split; [reflexivity|]. simpl. auto. }
  destruct H as (per_block & -> & Ht & Hc). simpl.
  now exists (concat per_block).
Qed.

Lemma extract_pdf_native_ok (rt : runtime) (pdf_bytes : bytes)
    (doc : list FitzPage) :
  fitz_open rt pdf_bytes = Ok doc ->
  (forall page, In page doc ->
     0 < rect_width page /\ 0 < rect_height page /\
     exists blocks, get_text page = Ok blocks) ->
  exists native_data,
    _extract_pdf_native rt pdf_bytes = Ok native_data /\
    total_pages native_data = length doc /\
    length (pages native_data) = length doc /\
    forall i page, nth_error doc i = Some page ->
      exists source_page blocks,
        nth_error (pages native_data) i = Some source_page /\
        get_text page = Ok blocks /\
        page_number source_page = (i + 1)%nat /\
        page_width source_page = rect_width page /\
        page_height source_page = rect_height page /\
        map text (words source_page) = map span_text (page_spans blocks) /\
        Forall (fun w => confidence w = 1) (words source_page).
Proof.
  intros Hdoc Hpages. unfold _extract_pdf_native. rewrite Hdoc. simpl.
  match goal with
  | |- context [for_each ?body (enumerate doc)] =>
      set (page_body := body);
      assert (Hbody : forall i page, In page doc ->
                exists sp blocks,
                  page_body (i, page) = Ok sp /\
                  get_text page = Ok blocks /\
                  page_number sp = (i + 1)%nat /\
                  page_width sp = rect_width page /\
                  page_height sp = rect_height page /\
                  map text (words sp) = map span_text (page_spans blocks) /\
                  Forall (fun w => confidence w = 1) (words sp))
  end.
  { intros i page Hin.
    destruct (Hpages page Hin) as (Hw & Hh & blocks & Hblocks).
    destruct (native_page_words_ok (rect_width page) (rect_height page)
                blocks Hw Hh) as (ws & Hws & Ht & Hc).
    subst page_body. simpl. rewrite Hblocks. simpl. rewrite Hws. simpl.
    eexists. exists blocks. split; [reflexivity|]. simpl. auto 10. }
  destruct (for_each_total page_body (enumerate doc)) as [ps Hps].
  { intros [i page] Hin. apply in_enumerate in Hin.
    destruct (Hbody i page Hin) as (sp & _ & H & _). now exists sp. }
  rewrite Hps. simpl. eexists. split; [reflexivity|]. simpl.
  assert (Hlen := for_each_length _ _ _ Hps).
  rewrite length_enumerate in Hlen.
  split; [exact Hlen|]. split; [exact Hlen|].
  intros i page Hnth.
  assert (Hi : (i < length ps)%nat).
  { rewrite Hlen. apply nth_error_Some. congruence. }
  destruct (nth_error ps i) as [sp|] eqn:Hsp;
    [|apply nth_error_None in Hsp; lia].
  destruct (for_each_nth _ _ _ Hps i sp Hsp) as (a & Ha & Hbd).
  rewrite (nth_enumerate doc i page Hnth) in Ha. injection Ha as <-.
  destruct (Hbody i page (nth_error_In _ _ Hnth))
    as (sp' & blocks & Hbd' & Hrest).
  rewrite Hbd in Hbd'. injection Hbd' as <-.
  now exists sp, blocks.
Qed.

(** X20: on a document that opens, whose pages have a positive size and a
    text layer that reads, the native extractor returns one page per page
    of the document, numbered from 1, with the page's own width and
    height and one word per span of its text blocks, in reading order,
    with the span's text and the confidence 1. *)
Theorem X20_native_extraction (rt : runtime) (pdf_bytes : bytes)
    (doc : list FitzPage) :
  fitz_open rt pdf_bytes = Ok doc ->
  (forall page, In page doc ->
     0 < rect_width page /\ 0 < rect_height page /\
     exists blocks, get_text page = Ok blocks) ->
  exists native_data,
    _extract_pdf_native rt pdf_bytes = Ok native_data /\
    total_pages native_data = length doc /\
    length (pages native_data) = length doc /\
    forall i page, nth_error doc i = Some page ->
      exists source_page blocks,
        nth_error (pages native_data) i = Some source_page /\
        get_text page = Ok blocks /\
        page_number source_page = (i + 1)%nat /\
        page_width source_page = rect_width page /\
        page_height source_page = rect_height page /\
        map text (words source_page) = map span_text (page_spans blocks) /\
        Forall (fun w => confidence w = 1) (words source_page).
Proof. apply extract_pdf_native_ok. Qed.

Lemma X20_native_extraction_witness :
  exists native_data,
    _extract_pdf_native
      (SampleRuntime.healthy [SampleRuntime.readable_page])
      SampleRuntime.pdf_upload = Ok native_data /\
    total_pages native_data = 1%nat.
Proof.
  destruct (X20_native_extraction
              (SampleRuntime.healthy [SampleRuntime.readable_page])
              SampleRuntime.pdf_upload [SampleRuntime.readable_page] eq_refl)
    as (nd & H & Ht & _).
  - intros page [<-|[]]. split; [reflexivity|]. split; [reflexivity|].
    eexists. reflexivity.
  - exists nd. auto.
Defined.

Lemma extract_pdf_via_ocr_length (rt : runtime) (self : gmap string Value)
    (pdf_bytes : bytes) (doc : list FitzPage) (ocr_data : SourceData) :
  fitz_open rt pdf_bytes = Ok doc ->
  _extract_pdf_via_ocr rt self pdf_bytes = Ok ocr_data ->
  length (pages ocr_data) = length doc.
Proof.
  intros Hdoc. unfold _extract_pdf_via_ocr. rewrite Hdoc. simpl.
  destruct (for_each _ (enumerate doc)) as [ps|] eqn:Hps; [|discriminate].
  simpl. intros [= <-]. simpl.
  now rewrite (for_each_length _ _ _ Hps), length_enumerate.
Qed.

(** X21: a PDF that opens and whose pages are all processable (positive
    size, readable text layer, rendering that decodes) is always answered
    with a document, whatever the OCR engines and the table detector do;
    the document has one page per page of the PDF, and [POST /extract]
    returns it for every upload that is dispatched as a PDF. *)
Theorem X21_processable_pdf_succeeds (rt : runtime) (file_content : bytes)
    (doc : list FitzPage) :
  fitz_open rt file_content = Ok doc ->
  (forall page, In page doc -> page_processable rt page) ->
  exists m result,
    load_module rt = Ok m /\
    extract_pdf_with_coordinates rt m file_content = Ok result /\
    doc_total_pages result = length doc /\
    length (doc_pages result) = length doc /\
    forall file,
      read file = Ok file_content ->
      is_pdf (or_empty (content_type file)) (or_empty (filename file)) = true ->
      extract_document rt m file = Ok result.
Proof.
  intros Hdoc Hproc.
  destruct (load_module_ok rt)
    as (m & Hm & Hg & _ & Ha & [p Hp] & [e He]).
  destruct (extract_pdf_native_ok rt file_content doc Hdoc)
    as (native_data & Hnative & _ & Hnlen & _).
  { intros page Hin. destruct (Hproc page Hin) as (Hw & Hh & Ht & _). auto. }
  destruct (extract_pdf_via_ocr_ok rt (ocr_service m) file_content doc
              _ _ _ Ha Hp He Hdoc) as [ocr_data Hocr].
  { intros page Hin. destruct (Hproc page Hin) as (_ & _ & _ & Hr). exact Hr. }
  pose proof (extract_pdf_via_ocr_length _ _ _ _ _ Hdoc Hocr) as Holen.
  assert (Ht : exists table_data,
             (if import_pdfplumber rt
              then _extract_pdf_tables rt (module_globals rt) file_content
              else Ok []) = Ok table_data).
  { destruct (import_pdfplumber rt); [|now exists []].
    destruct (extract_pdf_tables_ok rt file_content) as (td & -> & _).
    now exists td. }
  destruct Ht as [table_data Htables].
  destruct (reconcile_nth native_data ocr_data table_data)
    as (result & Hrec & Htotal & Hlen & _).
  assert (Hpdf : extract_pdf_with_coordinates rt m file_content = Ok result).
  { unfold extract_pdf_with_coordinates. rewrite Hnative. simpl.
    rewrite Hocr. simpl. rewrite Hg. unfold load_global.
    change (module_globals rt !! "PDFPLUMBER_AVAILABLE")
      with (Some (VBool (import_pdfplumber rt))).
    simpl. rewrite Htables. simpl. now rewrite Hrec. }
  exists m, result. split; [exact Hm|]. split; [exact Hpdf|].
  rewrite Hnlen, Holen, Nat.max_id in Hlen.
  split; [congruence|]. split; [exact Hlen|].
  intros file Hread Hispdf. unfold extract_document.
  rewrite Hread. simpl. now rewrite Hispdf, Hpdf.
Qed.

Lemma X21_processable_pdf_succeeds_witness :
  exists m result,
    load_module SampleRuntime.engines_down = Ok m /\
    extract_pdf_with_coordinates SampleRuntime.engines_down m
      SampleRuntime.pdf_upload = Ok result /\
    doc_total_pages result = 1%nat.
Proof.
  destruct (X21_processable_pdf_succeeds SampleRuntime.engines_down
              SampleRuntime.pdf_upload [SampleRuntime.readable_page] eq_refl)
    as (m & result & Hm & Hres & Ht & _).
  - intros page [<-|[]]. unfold page_processable.
    split; [reflexivity|]. split; [reflexivity|].
    split; [eexists; reflexivity|].
    exists SampleRuntime.rendering, SampleRuntime.scan_image.
    split; reflexivity.
  - exists m, result. auto.
Defined.

(** ** Native words take precedence *)

Lemma fold_native_first (native_list rest kept : list Word) :
  (forall n o, In n native_list -> In o rest ->
     confidence o <= confidence n) ->
  exists kept',
    fold_left dedup_step rest (native_list ++ kept) = native_list ++ kept' /\
    forall w, In w kept' -> In w kept \/ In w rest.
Proof.
  revert kept. induction rest as [|o rest IH]; intros kept Hconf; simpl.
  - exists kept. auto.
  - assert (Hstep : exists kept1,
               dedup_step (native_list ++ kept) o = native_list ++ kept1 /\
               forall w, In w kept1 -> In w kept \/ w = o).
    { destruct (unmatched o (native_list ++ kept)) eqn:Hu.
      - rewrite (dedup_step_unmatched _ _ Hu), <- app_assoc.
        exists (kept ++ [o]). split; [reflexivity|].
        intros w Hw. apply in_app_or in Hw as [Hw|[<-|[]]]; auto.
      - destruct (first_match_exists _ _ Hu)
          as (pre & e & post & Heq & Hpre & He).
        rewrite Heq, (dedup_step_first_match o e pre post Hpre He), <- Heq.
        destruct (Qltb (confidence e) (confidence o)) eqn:Hc;
          [|exists kept; auto].
        apply Qltb_lt in Hc.
        apply app_eq_app in Heq as [l [[Hn Hk]|[Hp Hk]]].
        + destruct l as [|e' l'].
          * rewrite app_nil_r in Hn. simpl in Hk. subst pre kept.
            exists (post ++ [o]). split; [reflexivity|].
            intros w Hw. apply in_app_or in Hw as [Hw|[<-|[]]]; auto.
            left. now right.
          * injection Hk as <- Hpost. exfalso.
            assert (Hin : In e native_list)
              by (rewrite Hn; apply in_elt).
            pose proof (Hconf e o Hin (or_introl eq_refl)). lra.
        + subst pre kept. rewrite <- !app_assoc.
          exists (l ++ post ++ [o]). split; [reflexivity|].
          intros w Hw. apply in_app_or in Hw as [Hw|Hw].
          * left. apply in_or_app. now left.
          * apply in_app_or in Hw as [Hw|[<-|[]]]; auto.
            left. apply in_or_app. right. now right. }
    destruct Hstep as (kept1 & -> & Hk1).
    destruct (IH kept1) as (kept' & -> & Hk').
    { intros n o' Hn Ho'. apply Hconf; [exact Hn|now right]. }
    exists kept'. split; [reflexivity|].
    intros w Hw. destruct (Hk' w Hw) as [H|H]; [|auto].
    destruct (Hk1 w H) as [H'| ->]; auto.
Qed.

(** X22: native words are never displaced by OCR words of no higher
    confidence: when the native words of a page do not match one another
    and no OCR word has a higher confidence than a native word, the
    deduplicated list starts with all the native words, in their order,
    followed by OCR words only. *)
Theorem X22_native_words_first (native_list ocr_list : list Word) :
  settled native_list = true ->
  (forall n o, In n native_list -> In o ocr_list ->
     confidence o <= confidence n) ->
  exists kept,
    _deduplicate_words (native_list ++ ocr_list) = native_list ++ kept /\
    forall w, In w kept -> In w ocr_list.
Proof.
  intros Hs Hconf. unfold _deduplicate_words.
  rewrite fold_left_app, (fold_dedup_settled [] native_list Hs). simpl app.
  destruct (fold_native_first native_list ocr_list [] Hconf)
    as (kept & Hfold & Hk).
  rewrite app_nil_r in Hfold. rewrite Hfold.
  exists kept. split; [reflexivity|].
  intros w Hw. now destruct (Hk w Hw).
Qed.

Lemma X22_native_words_first_witness :
  exists kept,
    _deduplicate_words
      ([SampleLayout.heading] ++ [SampleLayout.footer; Sample.word_left])
    = [SampleLayout.heading] ++ kept.
Proof.
  destruct (X22_native_words_first [SampleLayout.heading]
              [SampleLayout.footer; Sample.word_left]) as (kept & H & _).
  - reflexivity.
  - intros n o [<-|[]] [<-|[<-|[]]]; simpl; lra.
  - exists kept. exact H.
Defined.

(** ** The service instance and the endpoint *)

(** X23: importing the module never fails, whatever the engines do: the
    instance gets exactly the attributes [paddle_ocr], [easy_ocr] and
    [pytesseract_available]; an engine is stored only when its import and
    its constructor both succeed, and is [None] otherwise. *)
Theorem X23_init_engines (rt : runtime) :
  exists m,
    load_module rt = Ok m /\
    dom (ocr_service m)
    = ({["paddle_ocr"; "easy_ocr"; "pytesseract_available"]} : gset string) /\
    ocr_service m !! "pytesseract_available"
    = Some (VBool (import_pytesseract rt)) /\
    ocr_service m !! "paddle_ocr"
    = Some (match new_PaddleOCR rt with
            | Ok _ => if import_paddleocr rt then VObject "PaddleOCR" else VNone
            | Raise _ => VNone
            end) /\
    ocr_service m !! "easy_ocr"
    = Some (match new_easyocr_Reader rt with
            | Ok _ => if import_easyocr rt then VObject "Reader" else VNone
            | Raise _ => VNone
            end).
Proof.
  unfold load_module, __init__, load_global.
  change (module_globals rt !! "PYTESSERACT_AVAILABLE")
    with (Some (VBool (import_pytesseract rt))).
  change (module_globals rt !! "PADDLE_AVAILABLE")
    with (Some (VBool (import_paddleocr rt))).
  change (module_globals rt !! "EASY_OCR_AVAILABLE")
    with (Some (VBool (import_easyocr rt))).
  simpl bind.
  destruct (import_paddleocr rt), (new_PaddleOCR rt),
           (import_easyocr rt), (new_easyocr_Reader rt); simpl;
    eexists; (split; [reflexivity|]); simpl;
    (split; [vm_compute; reflexivity|]); repeat split.
Qed.

(** X24: [POST /extract] fails only with status 500, and it fails for
    every upload that is dispatched to the image path, because that path
    always raises. *)
Theorem X24_extract_errors (rt : runtime) :
  exists m,
    load_module rt = Ok m /\
    (forall file e,
       extract_document rt m file = Raise e ->
       exists detail, e = HTTPException 500 detail) /\
    (forall file file_content,
       read file = Ok file_content ->
       is_pdf (or_empty (content_type file)) (or_empty (filename file))
       = false ->
       is_image (or_empty (content_type file)) (or_empty (filename file))
       = true ->
       exists detail,
         extract_document rt m file = Raise (HTTPException 500 detail)).
Proof.
  destruct (load_module_ok rt) as (m & Hm & _ & Hlayout & _).
  exists m. split; [exact Hm|]. split.
  - intros file e. unfold extract_document, try_except.
    destruct (_ <- read file ;; _); [discriminate|].
    intros [= <-]. eexists. reflexivity.
  - intros file file_content Hread Hpdf Himage.
    unfold extract_document. rewrite Hread. simpl.
    rewrite Hpdf, Himage.
    unfold extract_image_with_layout.
    destruct (Image_open rt file_content) as [image_np|e]; simpl.
    + unfold _analyze_layout, getattr. rewrite Hlayout. simpl.
      eexists. reflexivity.
    + eexists. reflexivity.
Qed.

Lemma X24_extract_errors_witness :
  let rt := SampleRuntime.healthy [SampleRuntime.readable_page] in
  exists m detail,
    load_module rt = Ok m /\
    extract_document rt m SampleRuntime.png_upload
    = Raise (HTTPException 500 detail).
Proof.
  intros rt.
  destruct (X24_extract_errors rt) as (m & Hm & _ & Himage).
  destruct (Himage SampleRuntime.png_upload [] eq_refl eq_refl eq_refl)
    as [detail H].
  exists m, detail. auto.
Defined.

(** The PDF path on a processable document: the three sources return and
    the result is their reconciliation. *)
Lemma pdf_path_result (rt : runtime) (file_content : bytes)
    (doc : list FitzPage) :
  fitz_open rt file_content = Ok doc ->
  (forall page, In page doc -> page_processable rt page) ->
  exists m native_data ocr_data table_data result,
    load_module rt = Ok m /\
    _extract_pdf_native rt file_content = Ok native_data /\
    length (pages native_data) = length doc /\
    length (pages ocr_data) = length doc /\
    _reconcile_extraction_sources native_data ocr_data table_data
    = Ok result /\
    extract_pdf_with_coordinates rt m file_content = Ok result.
Proof.
  intros Hdoc Hproc.
  destruct (load_module_ok rt)
    as (m & Hm & Hg & _ & Ha & [p Hp] & [e He]).
  destruct (extract_pdf_native_ok rt file_content doc Hdoc)
    as (native_data & Hnative & _ & Hnlen & _).
  { intros page Hin. destruct (Hproc page Hin) as (Hw & Hh & Ht & _). auto. }
  destruct (extract_pdf_via_ocr_ok rt (ocr_service m) file_content doc
              _ _ _ Ha Hp He Hdoc) as [ocr_data Hocr].
  { intros page Hin. destruct (Hproc page Hin) as (_ & _ & _ & Hr). exact Hr. }
  pose proof (extract_pdf_via_ocr_length _ _ _ _ _ Hdoc Hocr) as Holen.
  assert (Ht : exists table_data,
             (if import_pdfplumber rt
              then _extract_pdf_tables rt (module_globals rt) file_content
              else Ok []) = Ok table_data).
  { destruct (import_pdfplumber rt); [|now exists []].
    destruct (extract_pdf_tables_ok rt file_content) as (td & -> & _).
    now exists td. }
  destruct Ht as [table_data Htables].
  destruct (reconcile_nth native_data ocr_data table_data)
    as (result & Hrec & _).
  exists m, native_data, ocr_data, table_data, result.
  split; [exact Hm|]. split; [exact Hnative|]. split; [exact Hnlen|].
  split; [exact Holen|]. split; [exact Hrec|].
  unfold extract_pdf_with_coordinates. rewrite Hnative. simpl.
  rewrite Hocr. simpl. rewrite Hg. unfold load_global.
  change (module_globals rt !! "PDFPLUMBER_AVAILABLE")
    with (Some (VBool (import_pdfplumber rt))).
  simpl. rewrite Htables. simpl. now rewrite Hrec.
Qed.


(** X25: in the document that the PDF path returns for a processable PDF,
    every page carries the number, the width and the height of the PDF
    page (not those of its rendering), and its [native_words] is the
    number of spans of that page's text blocks. *)
Theorem X25_pdf_pages_follow_the_document (rt : runtime)
    (file_content : bytes) (doc : list FitzPage) :
  fitz_open rt file_content = Ok doc ->
  (forall page, In page doc -> page_processable rt page) ->
  exists m result,
    load_module rt = Ok m /\
    extract_pdf_with_coordinates rt m file_content = Ok result /\
    forall i page, nth_error doc i = Some page ->
      exists p blocks,
        nth_error (doc_pages result) i = Some p /\
        get_text page = Ok blocks /\
        pr_page_number p = (i + 1)%nat /\
        pr_width p = rect_width page /\
        pr_height p = rect_height page /\
        native_words (coverage p) = length (page_spans blocks).
Proof.
  intros Hdoc Hproc.
  destruct (pdf_path_result rt file_content doc Hdoc Hproc)
    as (m & native_data & ocr_data & table_data & result
        & Hm & Hnative & Hnlen & Holen & Hrec & Hpdf).
  destruct (extract_pdf_native_ok rt file_content doc Hdoc)
    as (native_data' & Hnative' & _ & _ & Hnpages).
  { intros page Hin. destruct (Hproc page Hin) as (Hw & Hh & Ht & _). auto. }
  rewrite Hnative in Hnative'. injection Hnative' as <-.
  destruct (reconcile_nth native_data ocr_data table_data)
    as (result' & Hrec' & _ & Hlen & Hnth & _).
  rewrite Hrec in Hrec'. injection Hrec' as <-.
  exists m, result. split; [exact Hm|]. split; [exact Hpdf|].
  intros i page Hpage.
  destruct (Hnpages i page Hpage)
    as (sp & blocks & Hsp & Hblocks & Hnum & Hw & Hh & Htexts & _).
  assert (Hi : (i < length (doc_pages result))%nat).
  { rewrite Hlen, Hnlen, Holen, Nat.max_id.
    apply nth_error_Some. congruence. }
  destruct (nth_error (doc_pages result) i) as [p|] eqn:Hp;
    [|apply nth_error_None in Hp; lia].
  destruct (Hnth i p Hp) as [_ Hbody].
  destruct (reconcile_page_eq native_data ocr_data table_data i)
    as (cp & Heq & _).
  rewrite Hbody, Hsp in Heq. injection Heq as ->.
  eexists. exists blocks. split; [reflexivity|]. simpl.
  split; [exact Hblocks|]. split; [reflexivity|].
  split; [exact Hw|]. split; [exact Hh|].
  now rewrite <- (length_map text), Htexts, length_map.
Qed.

Lemma X25_pdf_pages_follow_the_document_witness :
  exists m result p,
    load_module SampleRuntime.engines_down = Ok m /\
    extract_pdf_with_coordinates SampleRuntime.engines_down m
      SampleRuntime.pdf_upload = Ok result /\
    nth_error (doc_pages result) 0 = Some p /\
    pr_width p = 600 /\ pr_height p = 800.
Proof.
  destruct (X25_pdf_pages_follow_the_document SampleRuntime.engines_down
              SampleRuntime.pdf_upload [SampleRuntime.readable_page] eq_refl)
    as (m & result & Hm & Hres & Hpages).
  - intros page [<-|[]]. unfold page_processable.
    split; [reflexivity|]. split; [reflexivity|].
    split; [eexists; reflexivity|].
    exists SampleRuntime.rendering, SampleRuntime.scan_image.
    split; reflexivity.
  - destruct (Hpages 0%nat SampleRuntime.readable_page eq_refl)
      as (p & blocks & Hp & _ & _ & Hw & Hh & _).
    exists m, result, p. auto.
Defined.

(** ** Dispatch of uploads *)

Lemma lower_append (s t : string) :
  Str.lower (s ++ t) = (Str.lower s ++ Str.lower t)%string.
Proof.
  induction s as [|c s IH]; [reflexivity|]. simpl. now rewrite IH.
Qed.

Lemma string_append_assoc (a b c : string) :
  (a ++ (b ++ c))%string = ((a ++ b) ++ c)%string.
Proof.
  induction a as [|ch a IH]; [reflexivity|].
  change (String ch (a ++ (b ++ c)) = String ch ((a ++ b) ++ c))%string.
  now f_equal.
Qed.

Lemma rev_string_acc (acc s : string) :
  Str.rev_string acc s = (Str.rev_string EmptyString s ++ acc)%string.
Proof.
  revert acc. induction s as [|c s IH]; intros acc; [reflexivity|].
  simpl. rewrite (IH (String c acc)), (IH (String c EmptyString)).
  now rewrite <- string_append_assoc.
Qed.

Lemma append_empty_r (s : string) : (s ++ EmptyString)%string = s.
Proof.
  induction s as [|c s IH]; [reflexivity|].
  change (String c (s ++ EmptyString)%string = String c s). now f_equal.
Qed.

Lemma rev_string_append (s t : string) :
  Str.rev_string EmptyString (s ++ t)
  = (Str.rev_string EmptyString t ++ Str.rev_string EmptyString s)%string.
Proof.
  induction s as [|c s IH].
  - change (EmptyString ++ t)%string with t.
    change (Str.rev_string EmptyString EmptyString) with EmptyString.
    now rewrite append_empty_r.
  - change (Str.rev_string EmptyString (String c s ++ t))
      with (Str.rev_string (String c EmptyString) (s ++ t)).
    change (Str.rev_string EmptyString (String c s))
      with (Str.rev_string (String c EmptyString) s).
    rewrite (rev_string_acc (String c EmptyString) (s ++ t)), IH.
    rewrite (rev_string_acc (String c EmptyString) s).
    now rewrite string_append_assoc.
Qed.

Lemma prefix_append (p r : string) : String.prefix p (p ++ r) = true.
Proof.
  induction p as [|c p IH]; [now destruct r|].
  change (String.prefix (String c p) (String c (p ++ r)) = true).
  simpl. destruct (ascii_dec c c); [exact IH|congruence].
Qed.

Lemma endswith_append (s p : string) : Str.endswith p (s ++ p) = true.
Proof.
  unfold Str.endswith. rewrite rev_string_append. apply prefix_append.
Qed.

(** X26: an upload is dispatched to the PDF path when its content type is
    application/pdf, whatever its name, and when its name ends in ".pdf"
    in any letter case, whatever its content type (also an image one). *)
Theorem X26_pdf_dispatch (content_type base ext : string) :
  is_pdf "application/pdf" base = true /\
  (Str.lower ext = ".pdf" -> is_pdf content_type (base ++ ext) = true).
Proof.
  split; [reflexivity|].
  intros Hext. unfold is_pdf.
  rewrite lower_append, Hext, endswith_append. apply orb_true_r.
Qed.

Lemma X26_pdf_dispatch_witness :
  is_pdf "image/png" ("Scan 01" ++ ".PDF") = true.
Proof.
  apply (X26_pdf_dispatch "image/png" "Scan 01" ".PDF"). reflexivity.
Defined.

(** ** Shapes, and pages of size zero *)

Lemma normalize_segment_two_points (p1 p2 : Q * Q) (page_w page_h : Q)
    (s : BoundingBox * list (Q * Q)) :
  normalize_segment p1 p2 page_w page_h = Ok s -> length (snd s) = 2%nat.
Proof.
  unfold normalize_segment.
  repeat (destruct (pydiv _ _); simpl; [|discriminate]).
  now intros [= <-].
Qed.

Lemma pdf_shape_of_item_appends (page_w page_h : Q) (item : DrawItem) :
  appends well_formed_shape (pdf_shape_of_item page_w page_h item).
Proof.
  destruct item as [p1 p2|x0 y0 rect_w rect_h|]; simpl.
  - apply appends_lift_eq. intros s Hs. apply appends_append.
    left. split; [reflexivity|]. simpl.
    exact (normalize_segment_two_points _ _ _ _ _ Hs).
  - apply appends_lift. intros b. apply appends_append.
    right. split; reflexivity.
  - apply appends_ret.
Qed.

(** X27: every shape that the two shape extractors return is a "line"
    with exactly two end points or a "rectangle" without end points; when
    PyMuPDF cannot list the drawings of a page, the page has no shape (and
    the extraction of the page goes on). *)
Theorem X27_shapes_well_formed (rt : runtime) (page : FitzPage)
    (page_w page_h : Q) (image_np : Image) :
  Forall well_formed_shape (_extract_pdf_shapes page page_w page_h) /\
  Forall well_formed_shape (_detect_shapes_and_lines rt image_np) /\
  (forall e, get_drawings page = Raise e ->
     _extract_pdf_shapes page page_w page_h = []).
Proof.
  split; [|split].
  - unfold _extract_pdf_shapes.
    match goal with
    | |- context [try_log ?body []] =>
        assert (Happ : appends well_formed_shape (try_log body))
    end.
    { apply appends_try_log, appends_lift. intros paths.
      apply appends_for_eachM. intros path.
      apply appends_for_eachM, pdf_shape_of_item_appends. }
    destruct (Happ []) as (added & -> & HP). exact HP.
  - unfold _detect_shapes_and_lines.
    match goal with
    | |- context [try_log ?body []] =>
        assert (Happ : appends well_formed_shape (try_log body))
    end.
    { apply appends_try_log, appends_lift. intros lines.
      apply appends_seq.
      - apply appends_for_eachM. intros [[[x1 y1] x2] y2].
        apply appends_lift_eq. intros s Hs. apply appends_append.
        left. split; [reflexivity|]. simpl.
        exact (normalize_segment_two_points _ _ _ _ _ Hs).
      - intros _. apply appends_lift. intros contours.
        apply appends_for_eachM. intros contour.
        destruct (_ && _); [|apply appends_ret].
        apply appends_lift. intros b. apply appends_append.
        right. split; reflexivity. }
    destruct (Happ []) as (added & -> & HP). exact HP.
  - intros e He. unfold _extract_pdf_shapes, try_log, bindM, lift.
    now rewrite He.
Qed.

Lemma X27_shapes_well_formed_witness :
  _extract_pdf_shapes
    {| rect_width := 600; rect_height := 800; get_text := Ok [];
       get_drawings := Raise (PyError "RuntimeError" "no drawings");
       get_pixmap := Ok SampleRuntime.rendering |} 600 800 = [].
Proof.
  destruct (X27_shapes_well_formed
              SampleRuntime.engines_down
              {| rect_width := 600; rect_height := 800; get_text := Ok [];
                 get_drawings := Raise (PyError "RuntimeError" "no drawings");
                 get_pixmap := Ok SampleRuntime.rendering |}
              600 800 SampleRuntime.scan_image) as (_ & _ & H).
  exact (H _ eq_refl).
Defined.

Lemma for_each_raise_inv {A B} (body : A -> outcome B) (l : list A)
    (e : exn) :
  for_each body l = Raise e -> exists a, In a l /\ body a = Raise e.
Proof.
  induction l as [|a l IH]; simpl; [discriminate|].
  destruct (body a) as [b|e'] eqn:Hb; simpl.
  - destruct (for_each body l) as [bs|e'] eqn:Hl; simpl; [discriminate|].
    intros [= ->]. destruct (IH eq_refl) as (a' & Hin & Hr).
    exists a'. auto.
  - intros [= ->]. exists a. auto.
Qed.

(** An outcome that is a value or the exception of a division by zero. *)
Lemma for_each_only_zero_division {A B} (body : A -> outcome B) (l : list A) :
  (forall a, In a l ->
     (exists b, body a = Ok b) \/ body a = Raise ZeroDivisionError) ->
  ((exists bs, for_each body l = Ok bs) /\
   forall a, In a l -> exists b, body a = Ok b) \/
  for_each body l = Raise ZeroDivisionError.
Proof.
  induction l as [|a l IH]; intros H; simpl.
  - left. split; [now exists []|intros a []].
  - destruct (H a (or_introl eq_refl)) as [[b Hb]|Hb]; rewrite Hb; simpl;
      [|now right].
    destruct IH as [[[bs Hbs] Hall]|Hr].
    + intros a' Ha'. apply H. now right.
    + left. rewrite Hbs. simpl. split; [now eexists|].
      intros a' [<-|Ha']; [now exists b|now apply Hall].
    + right. now rewrite Hr.
Qed.

Lemma normalize_corners_cases (b : Q * Q * Q * Q) (page_w page_h : Q) :
  (exists box, normalize_corners b page_w page_h = Ok box /\
               ~ page_w == 0 /\ ~ page_h == 0) \/
  (normalize_corners b page_w page_h = Raise ZeroDivisionError /\
   (page_w == 0 \/ page_h == 0)).
Proof.
  destruct b as [[[b0 b1] b2] b3].
  destruct (Qeq_dec page_w 0) as [Hw|Hw].
  - right. split; [|now left]. apply normalize_corners_zero. now left.
  - destruct (Qeq_dec page_h 0) as [Hh|Hh].
    + right. split; [|now right]. apply normalize_corners_zero. now right.
    + left. eexists. split; [now apply normalize_corners_ok|auto].
Qed.

Lemma native_word_cases (page_w page_h : Q) (span : Span) :
  (exists w, native_word page_w page_h span = Ok w /\
             ~ page_w == 0 /\ ~ page_h == 0) \/
  (native_word page_w page_h span = Raise ZeroDivisionError /\
   (page_w == 0 \/ page_h == 0)).
Proof.
  unfold native_word.
  destruct (normalize_corners_cases (span_bbox span) page_w page_h)
    as [(box & -> & H)|[-> H]]; simpl.
  - left. eexists. split; [reflexivity|exact H].
  - right. auto.
Qed.

(** On a page one of whose dimensions is 0, the words of a text dict are
    extracted only when it has no span. *)
Lemma native_page_words_zero (page_w page_h : Q) (blocks : list Block) :
  page_w == 0 \/ page_h == 0 ->
  (page_spans blocks = [] /\
   exists ws, native_page_words page_w page_h blocks = Ok ws) \/
  (page_spans blocks <> [] /\
   native_page_words page_w page_h blocks = Raise ZeroDivisionError).
Proof.
  intros Hz.
  assert (Hspans : forall spans,
            (spans = [] /\
             for_each (native_word page_w page_h) spans = Ok []) \/
            (spans <> [] /\
             for_each (native_word page_w page_h) spans
             = Raise ZeroDivisionError)).
  { intros [|sp spans]; [now left|]. right. split; [discriminate|]. simpl.
    destruct (native_word_cases page_w page_h sp)
      as [(w & _ & Hw & Hh)|[-> _]]; [|reflexivity].
    destruct Hz; contradiction. }
  assert (Hlines : forall ls,
            (concat ls = [] /\
             exists per_line,
               for_each (for_each (native_word page_w page_h)) ls
               = Ok per_line /\ concat per_line = []) \/
            (concat ls <> [] /\
             for_each (for_each (native_word page_w page_h)) ls
             = Raise ZeroDivisionError)).
  { induction ls as [|line ls IH]; simpl.
    - left. split; [reflexivity|]. now exists [].
    - destruct (Hspans line) as [[-> ->]|[Hne ->]]; simpl.
      + destruct IH as [(Hc & per_line & -> & Hp)|[Hne ->]]; simpl.
        * left. split; [exact Hc|]. now exists ([] :: per_line).
        * right. auto.
      + right. split; [|reflexivity].
        destruct line; [congruence|discriminate]. }
  unfold native_page_words, page_spans.
  assert (Hblocks :
            (concat (map block_spans blocks) = [] /\
             exists per_block,
               for_each
                 (fun block =>
                    match block_lines block with
                    | Some block_lines =>
                        per_line <-
                          for_each (for_each (native_word page_w page_h))
                                   block_lines ;;
                        Ok (concat per_line)
                    | None => Ok []
                    end) blocks = Ok per_block) \/
            (concat (map block_spans blocks) <> [] /\
             for_each
               (fun block =>
                  match block_lines block with
                  | Some block_lines =>
                      per_line <-
                        for_each (for_each (native_word page_w page_h))
                                 block_lines ;;
                      Ok (concat per_line)
                  | None => Ok []
                  end) blocks = Raise ZeroDivisionError)).
  { induction blocks as [|block blocks IH]; simpl.
    - left. split; [reflexivity|]. now exists [].
    - unfold block_spans at 1 3.
      destruct (block_lines block) as [ls|]; simpl.
      + destruct (Hlines ls) as [(Hc & per_line & -> & _)|[Hne ->]]; simpl.
        * rewrite Hc. simpl.
          destruct IH as [(Hc' & per_block & ->)|[Hne ->]]; simpl.
          -- left. split; [exact Hc'|]. now eexists.
          -- right. auto.
        * right. split; [|reflexivity].
          destruct (concat ls); [congruence|discriminate].
      + destruct IH as [(Hc' & per_block & ->)|[Hne ->]]; simpl.
        * left. split; [exact Hc'|]. now eexists.
        * right. auto. }
  destruct Hblocks as [(Hc & per_block & ->)|[Hne ->]]; simpl.
  - left. split; [exact Hc|]. now eexists.
  - right. auto.
Qed.

Lemma native_page_words_nonzero (page_w page_h : Q) (blocks : list Block) :
  ~ page_w == 0 -> ~ page_h == 0 ->
  exists ws, native_page_words page_w page_h blocks = Ok ws.
Proof.
  intros Hw Hh. unfold native_page_words.
  assert (Hspan : forall sp, exists w, native_word page_w page_h sp = Ok w).
  { intros sp. destruct (native_word_cases page_w page_h sp)
      as [(w & H & _)|[_ [H|H]]]; [now exists w|contradiction..]. }
  destruct (for_each_total
              (fun block =>
                 match block_lines block with
                 | Some block_lines =>
                     per_line <-
                       for_each (for_each (native_word page_w page_h))
                                block_lines ;;
                     Ok (concat per_line)
                 | None => Ok []
                 end) blocks) as [per_block ->].
  - intros block _. destruct (block_lines block) as [ls|];
      [|now eexists].
    destruct (for_each_total
                (for_each (native_word page_w page_h)) ls) as [pl ->].
    + intros line _. apply for_each_total. intros sp _. apply Hspan.
    + simpl. now eexists.
  - simpl. now eexists.
Qed.

(** X28: when the text layer of every page reads, the native extractor
    can fail only with ZeroDivisionError, and it does so exactly when some
    page has a width or a height of 0 and at least one span; the request
    then ends with status 500.  A page of size 0 without text does not
    make it fail. *)
Theorem X28_zero_size_page (rt : runtime) (m : Module) (pdf_bytes : bytes)
    (doc : list FitzPage) :
  fitz_open rt pdf_bytes = Ok doc ->
  (forall page, In page doc -> exists blocks, get_text page = Ok blocks) ->
  let fails :=
    exists page blocks,
      In page doc /\ get_text page = Ok blocks /\
      (rect_width page == 0 \/ rect_height page == 0) /\
      page_spans blocks <> [] in
  (fails ->
   _extract_pdf_native rt pdf_bytes = Raise ZeroDivisionError /\
   extract_pdf_with_coordinates rt m pdf_bytes
   = Raise (HTTPException 500
              ("PDF extraction failed: " ++ exn_str rt ZeroDivisionError))) /\
  (~ fails -> exists native_data,
     _extract_pdf_native rt pdf_bytes = Ok native_data).
Proof.
  intros Hdoc Htext fails.
  unfold _extract_pdf_native. rewrite Hdoc. simpl bind.
  match goal with
  | |- context [for_each ?body (enumerate doc)] => set (page_body := body)
  end.
  assert (Hbody : forall i page blocks,
            get_text page = Ok blocks ->
            ((exists sp, page_body (i, page) = Ok sp) /\
             ((rect_width page == 0 \/ rect_height page == 0) ->
              page_spans blocks = [])) \/
            (page_body (i, page) = Raise ZeroDivisionError /\
             (rect_width page == 0 \/ rect_height page == 0) /\
             page_spans blocks <> [])).
  { intros i page blocks Hblocks. subst page_body. simpl.
    rewrite Hblocks. simpl.
    destruct (Qeq_dec (rect_width page) 0) as [Hw|Hw];
      [|destruct (Qeq_dec (rect_height page) 0) as [Hh|Hh]].
    - destruct (native_page_words_zero _ (rect_height page) blocks
                  (or_introl Hw)) as [[Hs [ws ->]]|[Hs ->]]; simpl.
      + left. split; [now eexists|auto].
      + right. auto.
    - destruct (native_page_words_zero (rect_width page) _ blocks
                  (or_intror Hh)) as [[Hs [ws ->]]|[Hs ->]]; simpl.
      + left. split; [now eexists|auto].
      + right. auto.
    - destruct (native_page_words_nonzero (rect_width page)
                  (rect_height page) blocks Hw Hh) as [ws ->].
      simpl. left. split; [now eexists|].
      intros [H|H]; contradiction. }
  destruct (for_each_only_zero_division page_body (enumerate doc))
    as [[[ps Hps] Hall]|Hraise].
  { intros [i page] Hin. apply in_enumerate in Hin.
    destruct (Htext page Hin) as [blocks Hblocks].
    destruct (Hbody i page blocks Hblocks) as [[H _]|[H _]]; auto. }
  - split.
    + intros (page & blocks & Hin & Hblocks & Hz & Hs). exfalso.
      apply In_nth_error in Hin as [i Hi].
      pose proof (nth_error_In _ _ (nth_enumerate doc i page Hi)) as Hin.
      destruct (Hall _ Hin) as [sp Hsp].
      destruct (Hbody i page blocks Hblocks) as [[_ H]|[H _]].
      * apply Hs, H, Hz.
      * congruence.
    + intros _. rewrite Hps. simpl. now eexists.
  - split.
    + intros _. rewrite Hraise. split; [reflexivity|].
      unfold extract_pdf_with_coordinates, _extract_pdf_native.
      rewrite Hdoc. simpl bind. fold page_body. now rewrite Hraise.
    + intros Hnot. exfalso. apply Hnot. clear Hnot.
      destruct (for_each_raise_inv _ _ _ Hraise) as ([i page] & Hin & Hr).
      pose proof (in_enumerate _ _ _ Hin) as Hpage.
      destruct (Htext page Hpage) as [blocks Hblocks].
      destruct (Hbody i page blocks Hblocks) as [[[sp Hsp] _]|(_ & Hz & Hs)];
        [congruence|].
      now exists page, blocks.
Qed.

Lemma X28_zero_size_page_witness :
  let rt := SampleRuntime.healthy
              [SampleRuntime.readable_page; SamplePages.zero_width_page] in
  _extract_pdf_native rt SampleRuntime.pdf_upload = Raise ZeroDivisionError /\
  extract_pdf_with_coordinates rt (SampleRuntime.imported rt)
    SampleRuntime.pdf_upload
  = Raise (HTTPException 500
             ("PDF extraction failed: " ++ exn_str rt ZeroDivisionError)).
Proof.
  intros rt.
  destruct (X28_zero_size_page rt (SampleRuntime.imported rt)
              SampleRuntime.pdf_upload
              [SampleRuntime.readable_page; SamplePages.zero_width_page]
              eq_refl) as [H _].
  - intros page [<-|[<-|[]]]; eexists; reflexivity.
  - apply H.
    exists SamplePages.zero_width_page. eexists.
    split; [right; left; reflexivity|].
    split; [reflexivity|]. split; [left; reflexivity|discriminate].
Defined.

(** * Idempotence, the merge rule and the failures of a source *)

(** ** A second run of the deduplicator *)

(** C3 (amended): deduplication is idempotent on an input exactly when its
    output holds no word that still passes the match test (overlap, IoU
    above 0.7 and text similarity above 0.8) against a word before it; on
    such a list a second run changes nothing, on any other list it drops a
    word: its output is strictly shorter and holds only words of the
    first output. *)
Theorem C3_dedup_idempotent_on_settled (words : list Word) :
  (settled (_deduplicate_words words) = true <->
   _deduplicate_words (_deduplicate_words words) = _deduplicate_words words) /\
  (settled (_deduplicate_words words) = false ->
   (length (_deduplicate_words (_deduplicate_words words))
    < length (_deduplicate_words words))%nat /\
   forall w, In w (_deduplicate_words (_deduplicate_words words)) ->
             In w (_deduplicate_words words)).
Proof.
  split; [split|].
  - intros H. unfold _deduplicate_words at 1.
    now rewrite (fold_dedup_settled [] _ H).
  - intros H. destruct (settled (_deduplicate_words words)) eqn:Hs;
      [reflexivity|].
    pose proof (fold_dedup_unsettled [] _ Hs) as Hlt.
    fold (_deduplicate_words (_deduplicate_words words)) in Hlt.
    rewrite H in Hlt. simpl in Hlt. lia.
  - intros Hs. split.
    + exact (fold_dedup_unsettled [] _ Hs).
    + intros w Hw. unfold _deduplicate_words at 1 in Hw.
      destruct (fold_dedup_incl [] _ w Hw) as [[]|H]. exact H.
Qed.

Lemma C3_dedup_idempotent_on_settled_witness :
  let kept := [Sample.word_left; Sample.word_right; Sample.word_left] in
  let merged := [Sample.word_left; Sample.word_right; Sample.word_middle] in
  (settled (_deduplicate_words kept) = true /\
   _deduplicate_words (_deduplicate_words kept) = _deduplicate_words kept) /\
  (settled (_deduplicate_words merged) = false /\
   (length (_deduplicate_words (_deduplicate_words merged))
    < length (_deduplicate_words merged))%nat).
Proof.
  intros kept merged.
  assert (Hk : settled (_deduplicate_words kept) = true)
    by (vm_compute; reflexivity).
  assert (Hm : settled (_deduplicate_words merged) = false)
    by (vm_compute; reflexivity).
  destruct (C3_dedup_idempotent_on_settled kept) as [[Hkept _] _].
  destruct (C3_dedup_idempotent_on_settled merged) as [_ Hmerged].
  split.
  - split; [exact Hk|exact (Hkept Hk)].
  - split; [exact Hm|exact (proj1 (Hmerged Hm))].
Defined.

(** ** The merge rule *)

(** C4 (amended): in one pass of the deduplicator over the current list,
    (1) the test that lets a record be dropped is the program's own: the
    boxes overlap, and the IoU and the text similarity that it computes
    compare greater than 0.7 and 0.8; (2) when no entry passes this test
    against the incoming word, the word is appended and no record is
    dropped; (3) a record is dropped only when an entry passes it; (4) at
    the first such entry the scan stops, whatever the entries after it:
    when the confidence of the incoming word is strictly higher, the entry
    is removed and the incoming word is appended at the end of the list
    (it does not take the position of the entry), otherwise the incoming
    word is discarded and the list is unchanged; (5) so of two matching
    detections only the one with the strictly higher confidence is kept,
    the earlier one on a tie. *)
Theorem C4_merge_rule (unique_words : list Word) (word : Word) :
  (forall e,
     is_match word e = true <->
     overlaps (bbox word) (bbox e) = true /\
     Qltb 0.7 (iou (bbox word) (bbox e)) = true /\
     Qltb 0.8 (_text_similarity (text word) (text e)) = true) /\
  (unmatched word unique_words = true ->
   dedup_step unique_words word = unique_words ++ [word]) /\
  (dedup_step unique_words word <> unique_words ++ [word] ->
   exists e, In e unique_words /\ is_match word e = true) /\
  (forall pre e post,
     unique_words = pre ++ e :: post ->
     unmatched word pre = true ->
     is_match word e = true ->
     dedup_step unique_words word
     = if Qltb (confidence e) (confidence word)
       then pre ++ post ++ [word]
       else unique_words) /\
  (forall e,
     is_match word e = true ->
     _deduplicate_words [e; word]
     = [if Qltb (confidence e) (confidence word) then word else e]).
Proof.
  split; [|split; [apply dedup_step_unmatched|split; [|split]]].
  - intros e. unfold is_match. rewrite !andb_true_iff. tauto.
  - intros Hne. destruct (unmatched word unique_words) eqn:Hu.
    + exfalso. apply Hne. now apply dedup_step_unmatched.
    + destruct (first_match_exists _ _ Hu) as (pre & e & post & -> & _ & He).
      exists e. split; [apply in_elt|exact He].
  - intros pre e post -> Hpre He. now apply dedup_step_first_match.
  - intros e He. unfold _deduplicate_words. simpl.
    change (dedup_step [] e) with ([] ++ [e]).
    rewrite (dedup_step_first_match word e [] [] eq_refl He).
    now destruct (Qltb (confidence e) (confidence word)).
Qed.

Lemma C4_merge_rule_witness :
  let unique_words := [Sample.word_left; Sample.word_right] in
  unmatched Sample.word_middle [] = true /\
  is_match Sample.word_middle Sample.word_left = true /\
  dedup_step unique_words Sample.word_middle
  = [Sample.word_right; Sample.word_middle].
Proof.
  intros unique_words.
  assert (Hp : unmatched Sample.word_middle [] = true) by reflexivity.
  assert (He : is_match Sample.word_middle Sample.word_left = true)
    by (vm_compute; reflexivity).
  split; [exact Hp|]. split; [exact He|].
  destruct (C4_merge_rule unique_words Sample.word_middle)
    as (_ & _ & _ & H & _).
  rewrite (H [] Sample.word_left [Sample.word_right] eq_refl Hp He).
  reflexivity.
Defined.

(** C4 as stated fails: the middle word beats the left one, which is the
    first entry of the list; the deduplicator does not put it in the place
    of that entry, it removes the entry and appends the word after the
    right one. *)
Lemma C4_replace_in_place_counterexample :
  let unique_words := [Sample.word_left; Sample.word_right] in
  is_match Sample.word_middle Sample.word_left = true /\
  Qltb (confidence Sample.word_left) (confidence Sample.word_middle) = true /\
  replace_entry Sample.word_left Sample.word_middle unique_words
  = [Sample.word_middle; Sample.word_right] /\
  dedup_step unique_words Sample.word_middle
  = [Sample.word_right; Sample.word_middle] /\
  dedup_step unique_words Sample.word_middle
  <> replace_entry Sample.word_left Sample.word_middle unique_words.
Proof.
  intros unique_words.
  assert (H1 : replace_entry Sample.word_left Sample.word_middle unique_words
               = [Sample.word_middle; Sample.word_right])
    by (vm_compute; reflexivity).
  assert (H2 : dedup_step unique_words Sample.word_middle
               = [Sample.word_right; Sample.word_middle])
    by (vm_compute; reflexivity).
  split; [vm_compute; reflexivity|]. split; [vm_compute; reflexivity|].
  split; [exact H1|]. split; [exact H2|].
  rewrite H1, H2. discriminate.
Qed.

(** ** What a failing source leaves behind *)






Lemma uniform_fst {S} (m : M (list S) unit) (s : list S) :
  uniform m -> fst (m s) = s ++ fst (m []).
Proof. intros (added & r & H). now rewrite (H s), (H []). Qed.













